(** * AutoML frontend: the authenticated API client session and the upload flow

    A shallow embedding of [src/auth/AuthContext.tsx] (the [AuthProvider]:
    token hydration, base-URL resolution, the axios interceptors, [login],
    [signup], [logout]) and of the dataset upload page ([Upload]:
    [detectColumns], [validateStructure], [onFiles], [doUpload],
    [doUploadWithRetry]), with the properties the specification states
    about them.

    Conventions.
    - JavaScript values that cross the network are [Value]s; numbers are
      integers in this model (status codes, dataset ids, byte counts).
    - Strings are byte strings; [toLowerCase] and [trim] act on ASCII.
    - React state setters are applied immediately (functional updates are
      applied in program order, which is what React guarantees for them).
    - Effectful code runs in the monad [M W A := W -> W * Completion A]:
      a computation either returns normally or throws ([await] of a
      rejected promise is a throw).
    - Console messages are kept without their pictographs. *)

From stdpp Require Import gmap strings list pretty.
From Stdlib Require Import ZArith Lia Ascii.

#[local] Set Warnings "-register-all".
Local Open Scope string_scope.
Local Open Scope Z_scope.

(* ===================================================================== *)
(** ** JavaScript values and string primitives                            *)
(* ===================================================================== *)

Module JS.

Inductive Value : Type :=
| VUndefined
| VNull
| VBool (b : bool)
| VNumber (n : Z)
| VString (s : string)
| VArray (items : list Value)
| VObject (props : list (string * Value)).

(** ToBoolean. *)
Definition truthy (v : Value) : bool :=
  match v with
  | VUndefined | VNull => false
  | VBool b => b
  | VNumber n => negb (n =? 0)
  | VString s => negb (String.eqb s "")
  | VArray _ | VObject _ => true
  end.

(** [typeof v === 'string'] *)
Definition is_string (v : Value) : bool :=
  match v with VString _ => true | _ => false end.

(** [v === undefined || v === null] *)
Definition nullish (v : Value) : bool :=
  match v with VUndefined | VNull => true | _ => false end.

(** [a || b] *)
Definition or_else (a b : Value) : Value := if truthy a then a else b.

(** [a ?? b] *)
Definition coalesce (a b : Value) : Value := if nullish a then b else a.

(** A string taken as a condition: [if (s)], [!!s]. *)
Definition truthy_string (s : string) : bool := negb (String.eqb s "").

(** [s.split(sep)] for a one-character separator: never empty, one more
    piece than there are separators. *)
Fixpoint split (sep : ascii) (s : string) : list string :=
  match s with
  | EmptyString => [EmptyString]
  | String c rest =>
      if Ascii.eqb c sep then EmptyString :: split sep rest
      else match split sep rest with
           | piece :: pieces => String c piece :: pieces
           | [] => [String c EmptyString]
           end
  end.

(** [s.split(/\r?\n/)]: a line feed, or a carriage return followed by a
    line feed, ends a piece. *)
Fixpoint split_lines (s : string) : list string :=
  match s with
  | EmptyString => [EmptyString]
  | String c rest =>
      let cons_char pieces :=
        match pieces with
        | piece :: more => String c piece :: more
        | [] => [String c EmptyString]
        end in
      if Ascii.eqb c "010" then EmptyString :: split_lines rest
      else if Ascii.eqb c "013" then
        match rest with
        | String c' rest' =>
            if Ascii.eqb c' "010" then EmptyString :: split_lines rest'
            else cons_char (split_lines rest)
        | EmptyString => cons_char (split_lines rest)
        end
      else cons_char (split_lines rest)
  end.

(** [s.startsWith(p)] *)
Fixpoint startsWith (p s : string) : bool :=
  match p, s with
  | EmptyString, _ => true
  | String a p', String b s' => Ascii.eqb a b && startsWith p' s'
  | String _ _, EmptyString => false
  end.

(** [s.includes(p)] *)
Fixpoint includes (p s : string) : bool :=
  startsWith p s ||
  match s with
  | EmptyString => false
  | String _ s' => includes p s'
  end.

(** [s.endsWith(p)] *)
Definition endsWith (p s : string) : bool :=
  let lp := String.length p in
  let ls := String.length s in
  (lp <=? ls)%nat && String.eqb (String.substring (ls - lp) lp s) p.

Definition lower_ascii (c : ascii) : ascii :=
  let n := nat_of_ascii c in
  if ((65 <=? n) && (n <=? 90))%nat then ascii_of_nat (n + 32) else c.

(** [s.toLowerCase()] *)
Fixpoint toLowerCase (s : string) : string :=
  match s with
  | EmptyString => EmptyString
  | String c s' => String (lower_ascii c) (toLowerCase s')
  end.

Definition is_space (c : ascii) : bool :=
  let n := nat_of_ascii c in
  ((9 <=? n) && (n <=? 13) || (n =? 32))%nat.

Fixpoint trim_start (s : string) : string :=
  match s with
  | String c s' => if is_space c then trim_start s' else s
  | EmptyString => EmptyString
  end.

Fixpoint trim_end (s : string) : string :=
  match s with
  | EmptyString => EmptyString
  | String c s' =>
      match trim_end s' with
      | EmptyString => if is_space c then EmptyString else String c EmptyString
      | t => String c t
      end
  end.

(** [s.trim()] *)
Definition trim (s : string) : string := trim_end (trim_start s).

(** [pieces.join(sep)] *)
Fixpoint join (sep : string) (pieces : list string) : string :=
  match pieces with
  | [] => ""
  | [p] => p
  | p :: more => p +:+ sep +:+ join sep more
  end.

(** [String(v)] *)
Fixpoint String_ (v : Value) : string :=
  match v with
  | VUndefined => "undefined"
  | VNull => "null"
  | VBool true => "true"
  | VBool false => "false"
  | VNumber n => pretty n
  | VString s => s
  | VArray items =>
      join "," (map (fun x => if nullish x then "" else String_ x) items)
  | VObject _ => "[object Object]"
  end.

(** Own property keys of an array or of a string: ["0"], ["1"], ... *)
Definition index_keys (n : nat) : list string := map pretty (seq 0 n).

Fixpoint assoc (k : string) (props : list (string * Value)) : option Value :=
  match props with
  | [] => None
  | (k', v) :: more => if String.eqb k' k then Some v else assoc k more
  end.

Definition chars (s : string) : list Value :=
  map (fun c => VString (String c EmptyString)) (String.list_ascii_of_string s).

(** [v[k]] on a value that is neither null nor undefined: own properties
    (inherited ones are outside this model). *)
Definition get (v : Value) (k : string) : Value :=
  let indexed items :=
    if String.eqb k "length" then VNumber (Z.of_nat (length items))
    else default VUndefined (assoc k (zip (index_keys (length items)) items)) in
  match v with
  | VObject props => default VUndefined (assoc k props)
  | VArray items => indexed items
  | VString s => indexed (chars s)
  | _ => VUndefined
  end.

(** [v?.[k]], [v?.k] *)
Definition opt_get (v : Value) (k : string) : Value :=
  if nullish v then VUndefined else get v k.

(** [Object.keys(v)] *)
Definition keys (v : Value) : list string :=
  match v with
  | VObject props => map fst props
  | VArray items => index_keys (length items)
  | VString s => index_keys (String.length s)
  | _ => []
  end.

(** [obj[k] = v] on a plain object given by its own properties: the
    property is replaced where it stands, or added at the end. The key
    ['__proto__'] is the accessor inherited from [Object.prototype]: an
    assignment to it calls that accessor and creates no own property. *)
Fixpoint put_prop (k : string) (v : Value) (props : list (string * Value))
  : list (string * Value) :=
  match props with
  | [] => [(k, v)]
  | (k', v') :: more =>
      if String.eqb k' k then (k', v) :: more else (k', v') :: put_prop k v more
  end.

Definition set_prop (k : string) (v : Value) (props : list (string * Value))
  : list (string * Value) :=
  if String.eqb k "__proto__" then props else put_prop k v props.

(** [Math.max(0, c - 1)] *)
Definition dec_sat (c : Z) : Z := Z.max 0 (c - 1).

(** Double arithmetic on integers (IEEE 754 binary64, round to nearest,
    ties to even). A finite double is [m * 2 ^ u] for integers [m] and
    [u] with [|m| ≤ 2 ^ 53]; the exponent range is left unbounded, the
    byte counts computed with here being far inside it.

    [ilog2_ratio n d] is [floor (log2 (n / d))] for positive [n] and
    [d]; [round_half_even n d] is the integer nearest to [n / d] for
    positive [d], a tie going to the even one. *)
Definition ilog2_ratio (n d : Z) : Z :=
  let k := Z.log2 n - Z.log2 d in
  if d * 2 ^ Z.max k 0 <=? n * 2 ^ Z.max (- k) 0 then k else k - 1.

Definition round_half_even (n d : Z) : Z :=
  let q := n / d in
  let r := n mod d in
  if 2 * r <? d then q
  else if d <? 2 * r then q + 1
  else if Z.even q then q else q + 1.

(** The double nearest to the quotient [n / d] ([d] not zero), given as
    [(m, u)] for [m * 2 ^ u]: 53 significant bits. *)
Definition binary64 (n d : Z) : Z * Z :=
  let '(n, d) := if d <? 0 then (- n, - d) else (n, d) in
  if n =? 0 then (0, 0)
  else
    let u := ilog2_ratio (Z.abs n) d - 52 in
    (round_half_even (n * 2 ^ Z.max (- u) 0) (d * 2 ^ Z.max u 0), u).

(** The double nearest to an integer, which is an integer again: the
    integer itself below [2 ^ 53]. *)
Definition double_of_Z (n : Z) : Z :=
  if Z.abs n <? 2 ^ 53 then n
  else let '(m, u) := binary64 n 1 in m * 2 ^ u.

(** [Math.round(x)] for the double [x = m * 2 ^ u]: [floor (x + 1/2)]. *)
Definition Math_round (x : Z * Z) : Z :=
  let '(m, u) := x in
  if 0 <=? u then m * 2 ^ u else (2 * m + 2 ^ (- u)) / 2 ^ (1 - u).

End JS.
Import JS.

(* ===================================================================== *)
(** ** Requests, responses and errors of the HTTP client                  *)
(* ===================================================================== *)

(** A [File] of the browser: its name, its size in bytes and what
    [file.text()] settles to: the contents, or the message of the error
    the read is rejected with. *)
Module File.
Record t : Type := mk { name : string; size : Z; text : string + string }.
End File.

(** A request body. *)
Inductive Body : Type :=
| NoBody
| JsonBody (v : Value)
| URLSearchParams (fields : list (string * string))
| FormData (parts : list (string * File.t)).

(** An axios request configuration. [__retryCount] is the field the
    response interceptor attaches to it; every field may be undefined. *)
Module Config.
Record t : Type := mk {
  url : option string;
  method : option string;
  headers : gmap string string;
  data : Body;
  __retryCount : option Z
}.
(** The object literal [{}]. *)
Definition empty : t := mk None None ∅ NoBody None.
Definition set_header (k v : string) (c : t) : t :=
  mk (url c) (method c) (<[k := v]> (headers c)) (data c) (__retryCount c).
Definition set_retryCount (n : Z) (c : t) : t :=
  mk (url c) (method c) (headers c) (data c) (Some n).
(** What goes out on the wire: the configuration without the counter. *)
Definition payload (c : t) : t :=
  mk (url c) (method c) (headers c) (data c) None.
End Config.

Module Response.
Record t : Type := mk { status : Z; data : Value; config : Config.t }.
End Response.

Module AxiosError.
Record t : Type := mk {
  code : option string;
  message : string;
  response : option Response.t;
  config : option Config.t
}.
End AxiosError.

(** [error.response?.status], [error.config?.url],
    [error.response?.data?.detail] *)
Definition status_of (e : AxiosError.t) : option Z :=
  Response.status <$> AxiosError.response e.

Definition url_of (e : AxiosError.t) : option string :=
  c ← AxiosError.config e; Config.url c.

Definition detail_of (e : AxiosError.t) : Value :=
  match AxiosError.response e with
  | Some r => opt_get (Response.data r) "detail"
  | None => VUndefined
  end.

(** What can be thrown. *)
Inductive Exn : Type :=
| EAxios (e : AxiosError.t)
| TypeError (message : string)
| SyntaxError (message : string)
| Error (message : string).

(** [e?.message] and [e?.response?.data?.detail] of a caught value *)
Definition message_of (e : Exn) : string :=
  match e with
  | EAxios err => AxiosError.message err
  | TypeError m | SyntaxError m | Error m => m
  end.

Definition exn_detail (e : Exn) : Value :=
  match e with
  | EAxios err => detail_of err
  | _ => VUndefined
  end.

(** A request as the transport receives it. *)
Record Request : Type := { baseURL : string; config : Config.t }.

(** What the transport makes of a request: a response axios fulfils the
    promise with, or a rejection, which carries a response only when the
    server answered. *)
Inductive Outcome : Type :=
| Fulfilled (status : Z) (data : Value)
| Rejected (code : option string) (message : string)
           (response : option (Z * Value)).

Inductive Level : Type := LevelLog | LevelWarn | LevelError.

#[global] Instance Level_eq_dec : EqDecision Level.
Proof. solve_decision. Defined.

Inductive Toast : Type :=
| toast_error (message : Value)
| toast_success (message : Value).

(* ===================================================================== *)
(** ** Computations with state and exceptions                             *)
(* ===================================================================== *)

Module Eff.

Inductive Completion (A : Type) : Type :=
| Normal (a : A)
| Throw (e : Exn).
Arguments Normal {A} a.
Arguments Throw {A} e.

Definition M (W A : Type) : Type := W → W * Completion A.

Definition ret {W A} (a : A) : M W A := λ w, (w, Normal a).

Definition bind {W A B} (m : M W A) (k : A → M W B) : M W B :=
  λ w, match m w with
       | (w', Normal a) => k a w'
       | (w', Throw e) => (w', Throw e)
       end.

Definition throw {W A} (e : Exn) : M W A := λ w, (w, Throw e).

(** [try { body } catch (e) { handler }] *)
Definition try_catch {W A} (body : M W A) (handler : Exn → M W A) : M W A :=
  λ w, match body w with
       | (w', Normal a) => (w', Normal a)
       | (w', Throw e) => handler e w'
       end.

Definition modify {W} (f : W → W) : M W () := λ w, (f w, Normal ()).
Definition gets {W A} (f : W → A) : M W A := λ w, (w, Normal (f w)).

(** A computation of a component run on the component's part of a larger
    state. *)
Definition zoom {W V A} (proj : W → V) (inj : V → W → W) (m : M V A) : M W A :=
  λ w, let '(v', r) := m (proj w) in (inj v' w, r).

End Eff.
Import Eff.

Declare Scope eff_scope.
Delimit Scope eff_scope with eff.
Notation "x <- m ;; k" := (bind m (λ x, k))
  (at level 100, m at next level, right associativity) : eff_scope.
Notation "m ;; k" := (bind m (λ _, k))
  (at level 100, right associativity) : eff_scope.
Local Open Scope eff_scope.

(* ===================================================================== *)
(** ** [src/auth/AuthContext.tsx]                                         *)
(* ===================================================================== *)

Module AuthContext.

(** The parsed form of a URL, as far as the provider looks at it. *)
Module URL.
Record t : Type := mk { protocol : string }.
End URL.

(** The platform the provider runs on. [new_URL s] is [None] when the
    constructor throws; [import_meta_env] is [None] when [import.meta] or
    [import.meta.env] is undefined; [http] answers a request, given the
    requests sent before it. *)
Record Host : Type := {
  new_URL : string → option URL.t;
  import_meta_env : option (gmap string string);
  http : list Request → Request → Outcome
}.

(** The provider's React state and the parts of the browser it acts on.
    [window_location_href] is [None] when there is no [window]. *)
Record World : Type := mkWorld {
  token : option string;
  loadingCount : Z;
  localStorage : gmap string string;
  window_location_href : option string;
  console : list (Level * string);
  toasts : list Toast;
  wire : list Request
}.

Definition setToken (t : option string) : M World () :=
  modify (λ w, mkWorld t (loadingCount w) (localStorage w)
                 (window_location_href w) (console w) (toasts w) (wire w)).

Definition setLoadingCount (f : Z → Z) : M World () :=
  modify (λ w, mkWorld (token w) (f (loadingCount w)) (localStorage w)
                 (window_location_href w) (console w) (toasts w) (wire w)).

Definition localStorage_getItem (k : string) : M World (option string) :=
  gets (λ w, localStorage w !! k).

Definition localStorage_setItem (k v : string) : M World () :=
  modify (λ w, mkWorld (token w) (loadingCount w) (<[k := v]> (localStorage w))
                 (window_location_href w) (console w) (toasts w) (wire w)).

Definition localStorage_removeItem (k : string) : M World () :=
  modify (λ w, mkWorld (token w) (loadingCount w) (delete k (localStorage w))
                 (window_location_href w) (console w) (toasts w) (wire w)).

(** [if (typeof window !== 'undefined') window.location.href = target] *)
Definition navigate_if_window (target : string) : M World () :=
  modify (λ w, mkWorld (token w) (loadingCount w) (localStorage w)
                 (match window_location_href w with
                  | Some _ => Some target
                  | None => None
                  end)
                 (console w) (toasts w) (wire w)).

Definition console_ (l : Level) (text : string) : M World () :=
  modify (λ w, mkWorld (token w) (loadingCount w) (localStorage w)
                 (window_location_href w) (console w ++ [(l, text)])
                 (toasts w) (wire w)).

Definition toast_ (t : Toast) : M World () :=
  modify (λ w, mkWorld (token w) (loadingCount w) (localStorage w)
                 (window_location_href w) (console w) (toasts w ++ [t])
                 (wire w)).

Definition send (r : Request) : M World () :=
  modify (λ w, mkWorld (token w) (loadingCount w) (localStorage w)
                 (window_location_href w) (console w) (toasts w)
                 (wire w ++ [r])).

Definition console_log := console_ LevelLog.
Definition console_warn := console_ LevelWarn.
Definition console_error := console_ LevelError.

(** A template-literal hole filled with a possibly undefined string. *)
Definition show (s : option string) : string := default "undefined" s.
Definition show_status (s : option Z) : string :=
  match s with Some n => pretty n | None => "undefined" end.

(** *** The initial value of the [token] state (lines 19-34) *)

Definition useState_token_init : M World (option string) :=
  storedToken <- localStorage_getItem "token";;
  match storedToken with
  | Some s =>
      if truthy_string s then
        try_catch
          (parts <- ret (split "." s);;
           if (length parts =? 3)%nat then ret (Some s) else ret None)
          (λ e, console_warn "Invalid token format, clearing...";;
                localStorage_removeItem "token";;
                ret None)
      else ret None
  | None => ret None
  end.

(** The provider as first rendered over a given browser storage. *)
Definition mount (storage : gmap string string) (href : option string) : World :=
  let w0 := mkWorld None 0 storage href [] [] [] in
  match useState_token_init w0 with
  | (w, Normal t) => fst (setToken t w)
  | (w, Throw _) => w
  end.

(** [isAuthenticated: !!token] *)
Definition isAuthenticated (w : World) : bool :=
  match token w with Some t => truthy_string t | None => false end.

(** [isLoading = loadingCount > 0] *)
Definition isLoading (w : World) : bool := 0 <? loadingCount w.

Definition DEFAULT_BASE_URL : string := "http://127.0.0.1:8000/api".
Definition MAX_RETRIES : Z := 1.
Definition retriable : list Z := [502; 503; 504].

Section Provider.

Variable host : Host.

Definition VITE_API_BASE_URL : option string :=
  match import_meta_env host with
  | Some env => env !! "VITE_API_BASE_URL"
  | None => None
  end.

(** [new URL(s)] *)
Definition URL_ (s : string) : M World URL.t :=
  match new_URL host s with
  | Some u => ret u
  | None => throw (TypeError "Invalid URL")
  end.

(** *** Base-URL resolution of the [api] memo (lines 40-59) *)

Definition resolve_baseURL : M World string :=
  let baseURLCandidate := VITE_API_BASE_URL in
  baseURL <-
    try_catch
      (match baseURLCandidate with
       | Some c =>
           if truthy_string c then
             url <- URL_ c;;
             (if negb (startsWith "http" (URL.protocol url))
              then throw (Error "Invalid protocol") else ret ());;
             ret c
           else ret DEFAULT_BASE_URL
       | None => ret DEFAULT_BASE_URL
       end)
      (λ _, console_warn
              ("Invalid VITE_API_BASE_URL provided (" +:+ show baseURLCandidate
               +:+ "); falling back to " +:+ DEFAULT_BASE_URL);;
            ret DEFAULT_BASE_URL);;
  console_log ("Using API base URL: " +:+ baseURL);;
  ret baseURL.

(** *** The request interceptor (lines 64-73); [tok] is the token the
    memo closed over. *)

Definition on_request (tok : option string) (config : Config.t)
  : M World Config.t :=
  setLoadingCount (λ c, c + 1);;
  match tok with
  | Some t =>
      if truthy_string t then
        console_log ("Sending request to " +:+ show (Config.url config)
                      +:+ " with token: " +:+ String.substring 0 20 t +:+ "...");;
        ret (Config.set_header "Authorization" ("Bearer " +:+ t) config)
      else
        console_warn ("No token available for request to "
                       +:+ show (Config.url config));;
        ret config
  | None =>
      console_warn ("No token available for request to "
                     +:+ show (Config.url config));;
      ret config
  end.

(** *** The response interceptor, success path (lines 78-82) *)

Definition on_fulfilled (response : Response.t) : M World Response.t :=
  setLoadingCount dec_sat;;
  console_log ("Response from " +:+ show (Config.url (Response.config response))
                +:+ ": " +:+ pretty (Response.status response));;
  ret response.

(** *** The response interceptor, failure path (lines 83-127)

    The handler either hands the request back to the instance
    ([Retry cfg], the [return instance(cfg)] of line 103) or rejects. *)

Inductive Handled : Type :=
| Retry (cfg : Config.t)
| Reject (e : AxiosError.t).

(** [retriable.includes(status)] *)
Definition retriable_includes (status : option Z) : bool :=
  match status with
  | Some s => bool_decide (s ∈ retriable)
  | None => false
  end.

(** [cfg.__retryCount || 0] *)
Definition retryCount_or_0 (cfg : Config.t) : Z :=
  match Config.__retryCount cfg with
  | Some n => n
  | None => 0
  end.

Definition on_rejected (error : AxiosError.t) : M World Handled :=
  setLoadingCount dec_sat;;
  let status := status_of error in
  let url := url_of error in
  (if bool_decide (AxiosError.code error = Some "ERR_NETWORK")
      || String.eqb (AxiosError.message error) "Network Error"
   then
     console_error ("CORS/Network Error from " +:+ show url +:+ ": "
                     +:+ AxiosError.message error);;
     console_error "This might be a CORS issue. Check if backend is running and CORS is configured properly."
   else
     console_error ("Error from " +:+ show url +:+ ": "
                     +:+ show_status status +:+ " -"));;
  let cfg := default Config.empty (AxiosError.config error) in
  let n := retryCount_or_0 cfg in
  let cfg := Config.set_retryCount n cfg in
  (* [cfg] is [error.config] itself when that is defined: the assignment
     shows in the error that is rejected below *)
  let error := AxiosError.mk (AxiosError.code error) (AxiosError.message error)
                 (AxiosError.response error)
                 (Config.set_retryCount n <$> AxiosError.config error) in
  if retriable_includes status && (n <? MAX_RETRIES) then
    let cfg := Config.set_retryCount (n + 1) cfg in
    console_warn ("Retrying " +:+ show url +:+ " (attempt "
                   +:+ pretty (n + 1) +:+ ")");;
    ret (Retry cfg)
  else
    (if bool_decide (status = Some 401) then
       console_warn "401 Unauthorized - clearing token";;
       setToken None;;
       localStorage_removeItem "token";;
       try_catch (navigate_if_window "/login") (λ _, ret ())
     else
       let isPredict :=
         match url with
         | Some u => includes "/predict/" u
         | None => false
         end in
       if negb (bool_decide (status = Some 400) && isPredict) then
         let msg := or_else (or_else (detail_of error)
                                     (VString (AxiosError.message error)))
                            (VString "Request failed") in
         try_catch
           (toast_ (toast_error (if is_string msg then msg
                                 else VString "An unexpected error occurred")))
           (λ _, ret ())
       else ret ());;
    ret (Reject error).

(** *** The transport: one request on the wire, settled by the host *)

Definition transport (base : string) (cfg : Config.t) : M World Response.t :=
  λ w,
    let req := {| baseURL := base; config := cfg |} in
    let w' := fst (send req w) in
    match http host (wire w) req with
    | Fulfilled status data => (w', Normal (Response.mk status data cfg))
    | Rejected code message response =>
        (w', Throw (EAxios (AxiosError.mk code message
                              ((λ r, Response.mk r.1 r.2 cfg) <$> response)
                              (Some cfg))))
    end.

(** *** The instance [axios.create({ baseURL })] with both interceptors

    [instance(cfg)]: request interceptor, transport, response interceptor;
    the failure handler may call the instance again, so the definition
    takes the number of calls it may still make. *)

Fixpoint instance_fuel (fuel : nat) (base : string) (tok : option string)
    (cfg : Config.t) (w : World) : option (World * Completion Response.t) :=
  match fuel with
  | O => None
  | S fuel' =>
      match on_request tok cfg w with
      | (w1, Throw e) => Some (w1, Throw e)
      | (w1, Normal cfg1) =>
          match transport base cfg1 w1 with
          | (w2, Normal response) => Some (on_fulfilled response w2)
          | (w2, Throw (EAxios err)) =>
              match on_rejected err w2 with
              | (w3, Normal (Retry cfg2)) => instance_fuel fuel' base tok cfg2 w3
              | (w3, Normal (Reject e)) => Some (w3, Throw (EAxios e))
              | (w3, Throw e) => Some (w3, Throw e)
              end
          | (w2, Throw e) => Some (w2, Throw e)
          end
      end
  end.

(** Calls [instance(cfg)] can make: one, and one more for each step the
    counter is below [MAX_RETRIES]. *)
Definition calls_needed (cfg : Config.t) : nat :=
  S (Z.to_nat (MAX_RETRIES - retryCount_or_0 cfg)).

Definition instance (base : string) (tok : option string) (cfg : Config.t)
  : M World Response.t :=
  λ w, match instance_fuel (calls_needed cfg) base tok cfg w with
       | Some r => r
       | None => (w, Throw (Error "instance: out of calls"))
       end.

(** The value of the [api] memo: an instance bound to the resolved base
    URL whose interceptors close over the token of this render. *)
Record Api : Type := { api_baseURL : string; api_token : option string }.

Definition useMemo_api : M World Api :=
  b <- resolve_baseURL;;
  t <- gets token;;
  ret {| api_baseURL := b; api_token := t |}.

Definition api_request (api : Api) (cfg : Config.t) : M World Response.t :=
  instance (api_baseURL api) (api_token api) cfg.

(** [api.get(url)] and [api.post(url, data, { headers })] *)
Definition api_get (api : Api) (url : string) : M World Response.t :=
  api_request api (Config.mk (Some url) (Some "get") ∅ NoBody None).

Definition api_post (api : Api) (url : string) (data : Body)
    (headers : gmap string string) : M World Response.t :=
  api_request api (Config.mk (Some url) (Some "post") headers data None).

(** *** [login], [signup], [logout] (lines 132-172) *)

(** The base URL [login] and [signup] compute for their own instance. *)
Definition unchecked_baseURL : string :=
  match VITE_API_BASE_URL with
  | Some v => if truthy_string v then v else "http://127.0.0.1:8000/api"
  | None => "http://127.0.0.1:8000/api"
  end.

Definition login_request (username password : string) : Config.t :=
  Config.mk (Some "/login") (Some "post")
    {[ "Content-Type" := "application/x-www-form-urlencoded" ]}
    (URLSearchParams [("username", username); ("password", password)])
    None.

Definition login (username password : string) : M World () :=
  let baseURL := unchecked_baseURL in
  console_log ("Attempting login for user: " +:+ username);;
  res <- transport baseURL (login_request username password);;
  (* [res.data.access_token.substring(0, 20)] *)
  (if nullish (Response.data res)
   then throw (TypeError "Cannot read properties of undefined (reading 'access_token')")
   else ret ());;
  match get (Response.data res) "access_token" with
  | VString access_token =>
      console_log ("Login successful, token received: "
                   +:+ String.substring 0 20 access_token +:+ "...");;
      setToken (Some access_token);;
      localStorage_setItem "token" access_token
  | VUndefined | VNull =>
      throw (TypeError "Cannot read properties of undefined (reading 'substring')")
  | _ => throw (TypeError "res.data.access_token.substring is not a function")
  end.

Definition signup_request (email username password : string) : Config.t :=
  Config.mk (Some "/signup") (Some "post") ∅
    (JsonBody (VObject [("email", VString email);
                        ("username", VString username);
                        ("password", VString password)]))
    None.

Definition signup (email username password : string) : M World () :=
  let baseURL := unchecked_baseURL in
  console_log ("Attempting signup for user: " +:+ username);;
  transport baseURL (signup_request email username password);;
  console_log "Signup successful, proceeding to login";;
  login username password.

Definition logout : M World () :=
  setToken None;;
  localStorage_removeItem "token".

(** *** Interceptor invocations of concurrent requests

    Requests in flight at the same time have their interceptors run one
    after the other in some order; a run of the provider is the list of
    interceptor invocations in the order they happen. *)

Inductive Event : Type :=
| Dispatch (tok : option string) (cfg : Config.t)
| Success (response : Response.t)
| Failure (error : AxiosError.t).

Definition step (w : World) (ev : Event) : World :=
  match ev with
  | Dispatch tok cfg => fst (on_request tok cfg w)
  | Success response => fst (on_fulfilled response w)
  | Failure error => fst (on_rejected error w)
  end.

Definition run (w : World) (evs : list Event) : World := fold_left step evs w.

(** Requests in flight after a run, [None] when a response arrives that no
    request is waiting for. *)
Fixpoint in_flight (n : nat) (evs : list Event) : option nat :=
  match evs with
  | [] => Some n
  | Dispatch _ _ :: evs' => in_flight (S n) evs'
  | _ :: evs' =>
      match n with
      | O => None
      | S n' => in_flight n' evs'
      end
  end.

End Provider.

(** A host for the examples: [new URL] reads the scheme up to the first
    colon and rejects a string without one. *)
Definition is_alpha (c : ascii) : bool :=
  let n := nat_of_ascii c in ((97 <=? n) && (n <=? 122))%nat.

Definition is_scheme_char (c : ascii) : bool :=
  let n := nat_of_ascii c in
  is_alpha c || ((48 <=? n) && (n <=? 57))%nat
  || Ascii.eqb c "+" || Ascii.eqb c "-" || Ascii.eqb c ".".

Fixpoint scheme_rest (s : string) : option string :=
  match s with
  | EmptyString => None
  | String c s' =>
      if Ascii.eqb c ":" then Some ":"
      else if is_scheme_char c then String c <$> scheme_rest s'
      else None
  end.

Definition scheme (s : string) : option string :=
  match toLowerCase s with
  | String c s' => if is_alpha c then String c <$> scheme_rest s' else None
  | EmptyString => None
  end.

Definition new_URL_scheme (s : string) : option URL.t := URL.mk <$> scheme s.

End AuthContext.

(* ===================================================================== *)
(** ** The upload page ([Upload])                                         *)
(* ===================================================================== *)

Module Upload.

Definition MAX_BYTES : Z := 100 * 1024 * 1024.
Definition ALLOWED_EXT : list string := [".csv"; ".xlsx"; ".xls"; ".json"].

(** What a preview parser returns: [{ headers, rows }]. *)
Record Detected : Type := { headers : list string; rows : list Value }.

(** A progress event of the transport; [total] may be undefined. *)
Record ProgressEvent : Type := { loaded : Z; total : option Z }.

(** [Math.round((evt.loaded * 100) / evt.total)] on the byte counts of
    the event, which are doubles: the product and then the quotient are
    rounded to the nearest double, and [Math.round] takes the nearest
    integer of that, halves upwards. *)
Definition percent (loaded total : Z) : Z :=
  Math_round (binary64 (double_of_Z (loaded * 100)) total).

Definition validateFileBasics (file : File.t) : option string :=
  let lower := toLowerCase (File.name file) in
  let allowed := existsb (λ ext, endsWith ext lower) ALLOWED_EXT in
  if negb allowed then Some "Unsupported file type. Allowed: CSV, Excel, JSON"
  else if MAX_BYTES <? File.size file then Some "File too large. Maximum size is 100MB"
  else None.

(** [v === undefined || v === null || String(v).trim() === ''] *)
Definition empty_cell (v : Value) : bool :=
  nullish v || String.eqb (trim (String_ v)) "".

Definition validateStructure (headers : list string) (rows : list Value)
  : option string :=
  if (length headers =? 0)%nat then Some "Could not detect any columns in the file"
  else if (length rows =? 0)%nat then Some "No sample rows found in the file"
  else
    let totalCells := (length rows * length headers)%nat in
    let emptyCells :=
      fold_left
        (λ n row,
           fold_left (λ n h, if empty_cell (opt_get row h) then S n else n)
                     headers n)
        rows 0%nat in
    if (0 <? totalCells)%nat && (emptyCells =? totalCells)%nat
    then Some "All previewed values are empty; please check the file structure"
    else None.

(** One previewed CSV line as an object keyed by the headers:
    [headers.forEach((h, i) => { obj[h] = vals[i] ?? '' })]. *)
Definition csv_row (headers : list string) (l : string) : Value :=
  let vals := split "," l in
  VObject (fold_left (λ obj ih, set_prop ih.2 (VString (default "" (vals !! ih.1))) obj)
                     (imap pair headers) []).

(** The body of [parseCsvHeadersRows] after the text has been read. *)
Definition csv_headers_rows (text : string) : Detected :=
  let lines := take 6 (List.filter truthy_string (split_lines text)) in
  match lines with
  | [] => {| headers := []; rows := [] |}
  | first :: more =>
      let headers := split "," first in
      {| headers := headers; rows := map (csv_row headers) more |}
  end.

(** The body of [parseJsonHeadersRows] after [JSON.parse]. *)
Definition json_headers_rows (json : Value) : Detected :=
  let arr :=
    match json with
    | VArray items => items
    | _ =>
        match opt_get json "data" with
        | VArray items => items
        | _ => []
        end
    end in
  let slice := take 5 arr in
  let headers :=
    match slice with
    | first :: _ => if truthy first then keys first else []
    | [] => []
    end in
  {| headers := headers; rows := slice |}.

(** The page's state and the effects it leaves behind; [env] is the state
    of whatever serves [api] (the provider and the network behind it). *)
Record World (Env : Type) : Type := mkWorld {
  uploading : bool;
  progress : Z;
  fileName : string;
  previewRows : Value;
  previewHeaders : Value;
  errorMsg : string;
  lastFile : option File.t;
  success : bool;
  toasts : list Toast;
  console : list (Level * string);
  slept : list Z;
  scheduled : list (Z * string);
  env : Env
}.
Arguments mkWorld {Env}.
Arguments uploading {Env}.
Arguments progress {Env}.
Arguments fileName {Env}.
Arguments previewRows {Env}.
Arguments previewHeaders {Env}.
Arguments errorMsg {Env}.
Arguments lastFile {Env}.
Arguments success {Env}.
Arguments toasts {Env}.
Arguments console {Env}.
Arguments slept {Env}.
Arguments scheduled {Env}.
Arguments env {Env}.

Section Page.

Context {Env : Type}.

(** [api] and [token] of [useAuth()], the transport's progress reports
    for an upload started in a given state, and [JSON.parse] ([None]: it
    throws). *)
Variable api_post : string → Body → gmap string string → M Env Response.t.
Variable api_get : string → M Env Response.t.
Variable token : option string.
Variable upload_progress : Env → list ProgressEvent.
Variable JSON_parse : string → option Value.

Abbreviation W := (World Env).

Definition setUploading (b : bool) : M W () :=
  modify (λ w, mkWorld b (progress w) (fileName w) (previewRows w)
    (previewHeaders w) (errorMsg w) (lastFile w) (success w) (toasts w)
    (console w) (slept w) (scheduled w) (env w)).
Definition setProgress (p : Z) : M W () :=
  modify (λ w, mkWorld (uploading w) p (fileName w) (previewRows w)
    (previewHeaders w) (errorMsg w) (lastFile w) (success w) (toasts w)
    (console w) (slept w) (scheduled w) (env w)).
Definition setFileName (s : string) : M W () :=
  modify (λ w, mkWorld (uploading w) (progress w) s (previewRows w)
    (previewHeaders w) (errorMsg w) (lastFile w) (success w) (toasts w)
    (console w) (slept w) (scheduled w) (env w)).
Definition setPreviewRows (v : Value) : M W () :=
  modify (λ w, mkWorld (uploading w) (progress w) (fileName w) v
    (previewHeaders w) (errorMsg w) (lastFile w) (success w) (toasts w)
    (console w) (slept w) (scheduled w) (env w)).
Definition setPreviewHeaders (v : Value) : M W () :=
  modify (λ w, mkWorld (uploading w) (progress w) (fileName w) (previewRows w)
    v (errorMsg w) (lastFile w) (success w) (toasts w)
    (console w) (slept w) (scheduled w) (env w)).
Definition setErrorMsg (s : string) : M W () :=
  modify (λ w, mkWorld (uploading w) (progress w) (fileName w) (previewRows w)
    (previewHeaders w) s (lastFile w) (success w) (toasts w)
    (console w) (slept w) (scheduled w) (env w)).
Definition setLastFile (f : option File.t) : M W () :=
  modify (λ w, mkWorld (uploading w) (progress w) (fileName w) (previewRows w)
    (previewHeaders w) (errorMsg w) f (success w) (toasts w)
    (console w) (slept w) (scheduled w) (env w)).
Definition setSuccess (b : bool) : M W () :=
  modify (λ w, mkWorld (uploading w) (progress w) (fileName w) (previewRows w)
    (previewHeaders w) (errorMsg w) (lastFile w) b (toasts w)
    (console w) (slept w) (scheduled w) (env w)).
Definition toast_ (t : Toast) : M W () :=
  modify (λ w, mkWorld (uploading w) (progress w) (fileName w) (previewRows w)
    (previewHeaders w) (errorMsg w) (lastFile w) (success w) (toasts w ++ [t])
    (console w) (slept w) (scheduled w) (env w)).
Definition console_ (l : Level) (text : string) : M W () :=
  modify (λ w, mkWorld (uploading w) (progress w) (fileName w) (previewRows w)
    (previewHeaders w) (errorMsg w) (lastFile w) (success w) (toasts w)
    (console w ++ [(l, text)]) (slept w) (scheduled w) (env w)).
(** [await new Promise(r => setTimeout(r, ms))] *)
Definition sleep (ms : Z) : M W () :=
  modify (λ w, mkWorld (uploading w) (progress w) (fileName w) (previewRows w)
    (previewHeaders w) (errorMsg w) (lastFile w) (success w) (toasts w)
    (console w) (slept w ++ [ms]) (scheduled w) (env w)).
(** [setTimeout(() => navigate(path), ms)] *)
Definition navigate_after (ms : Z) (path : string) : M W () :=
  modify (λ w, mkWorld (uploading w) (progress w) (fileName w) (previewRows w)
    (previewHeaders w) (errorMsg w) (lastFile w) (success w) (toasts w)
    (console w) (slept w) (scheduled w ++ [(ms, path)]) (env w)).
Definition with_env (e : Env) (w : W) : W :=
  mkWorld (uploading w) (progress w) (fileName w) (previewRows w)
    (previewHeaders w) (errorMsg w) (lastFile w) (success w) (toasts w)
    (console w) (slept w) (scheduled w) e.

(** A call of [api]: it acts on [env] only. *)
Definition call {A} (m : M Env A) : M W A := zoom env with_env m.

(** [await file.text()] *)
Definition file_text (file : File.t) : M W string :=
  match File.text file with
  | inl text => ret text
  | inr message => throw (Error message)
  end.

Definition parseCsvHeadersRows (file : File.t) : M W Detected :=
  text <- file_text file;;
  ret (csv_headers_rows text).

Definition parseJsonHeadersRows (file : File.t) : M W Detected :=
  text <- file_text file;;
  match JSON_parse text with
  | Some json => ret (json_headers_rows json)
  | None => throw (SyntaxError "Unexpected token in JSON")
  end.

(** [detectColumns] (lines 98-114): the [for] loop from index [i] with
    [remaining = retries - i] rounds to go. A round ends the function with
    a result ([Some]) or goes on to the next ([None]). *)
Fixpoint detectColumns_loop (file : File.t) (retries i remaining : nat)
  : M W Detected :=
  match remaining with
  | O => throw (Error "Could not detect columns after multiple attempts")
  | S remaining' =>
      let lower := toLowerCase (File.name file) in
      round <-
        try_catch
          (result <-
             (if endsWith ".csv" lower then parseCsvHeadersRows file
              else if endsWith ".json" lower then parseJsonHeadersRows file
              else ret {| headers := []; rows := [] |});;
           if (0 <? length (headers result))%nat then ret (Some result)
           else sleep 500;; ret None)
          (λ error, if (i =? retries - 1)%nat then throw error else ret None);;
      match round with
      | Some result => ret result
      | None => detectColumns_loop file retries (S i) remaining'
      end
  end.

Definition detectColumns (file : File.t) (retries : nat) : M W Detected :=
  detectColumns_loop file retries 0 retries.

(** The progress callback of [doUpload]. *)
Definition onUploadProgress (evt : ProgressEvent) : M W () :=
  match total evt with
  | Some t => if t =? 0 then ret () else setProgress (percent (loaded evt) t)
  | None => ret ()
  end.

Fixpoint for_each {A} (f : A → M W ()) (l : list A) : M W () :=
  match l with
  | [] => ret ()
  | x :: l' => f x;; for_each f l'
  end.

(** [doUpload] (lines 176-227). The inner [try] yields [true] when it
    left the function through [return] (line 207). *)
Definition doUpload (file : File.t) : M W () :=
  try_catch
    (setUploading true;;
     setProgress 1;;
     let form := FormData [("file", file)] in
     let headers : gmap string string :=
       match token with
       | Some t =>
           if truthy_string t
           then {[ "Content-Type" := "multipart/form-data";
                   "Authorization" := "Bearer " +:+ t ]}
           else {[ "Content-Type" := "multipart/form-data" ]}
       | None => {[ "Content-Type" := "multipart/form-data" ]}
       end in
     events <- gets (λ w, upload_progress (env w));;
     for_each onUploadProgress events;;
     response <- call (api_post "/upload" form headers);;
     let data := Response.data response in
     let datasetId :=
       coalesce (coalesce (coalesce (opt_get (opt_get data "dataset") "id")
                                    (opt_get data "id"))
                          (opt_get data "dataset_id"))
                (VNumber 1) in
     returned <-
       try_catch
         (previewResponse <-
            call (api_get ("/datasets/" +:+ String_ datasetId +:+ "/preview"));;
          let rawData := Response.data previewResponse in
          console_ LevelLog "RAW DATA PREVIEW:";;
          (if nullish rawData
           then throw (TypeError "Cannot read properties of undefined (reading 'sample_data')")
           else ret ());;
          console_ LevelLog "RAW DATA SAMPLE:";;
          console_ LevelLog "PREPROCESSING APPLIED:";;
          if truthy (get rawData "preprocessing_applied") then
            console_ LevelWarn "WARNING: Data preprocessing was applied during upload!";;
            toast_ (toast_error (VString "Data corruption detected! Please re-upload the file."));;
            ret true
          else
            setPreviewHeaders (get rawData "columns");;
            setPreviewRows (get rawData "sample_data");;
            toast_ (toast_success (VString "Upload complete with RAW data preserved!"));;
            ret false)
         (λ previewError,
            console_ LevelWarn "Could not validate data integrity:";;
            toast_ (toast_success (VString "Upload complete. Redirecting..."));;
            ret false);;
     if returned : bool then ret ()
     else
       setSuccess true;;
       navigate_after 700 ("/analyze/" +:+ String_ datasetId))
    (λ e,
       toast_ (toast_error (or_else (or_else (exn_detail e)
                                             (VString (message_of e)))
                                    (VString "Upload failed")));;
       setUploading false;;
       setProgress 0).

(** What a round of the retry loop decides. *)
Inductive Round : Type := Return | Continue.

(** [doUploadWithRetry] (lines 230-246): the [while] loop at a given
    [attempt], with [remaining = maxRetries + 1 - attempt] rounds to go
    before [attempt <= maxRetries] fails. *)
Fixpoint doUploadWithRetry_loop (file : File.t) (maxRetries attempt remaining : nat)
  : M W () :=
  match remaining with
  | O => ret ()
  | S remaining' =>
      let prev := attempt in
      round <-
        try_catch
          (doUpload file;; ret Return)
          (λ e,
             let attempt := S attempt in
             if (maxRetries <? attempt)%nat then
               setErrorMsg "Upload failed. Please try again.";;
               ret Return
             else
               sleep (Z.min 2000 (500 * 2 ^ Z.of_nat prev));;
               ret Continue);;
      match round with
      | Return => ret ()
      | Continue => doUploadWithRetry_loop file maxRetries (S attempt) remaining'
      end
  end.

Definition doUploadWithRetry (file : File.t) (maxRetries : nat) : M W () :=
  doUploadWithRetry_loop file maxRetries 0 (S maxRetries).

(** [onFiles] (lines 142-174); [files] is the [FileList], or [None]. *)
Definition onFiles (files : option (list File.t)) : M W () :=
  match files ≫= head with
  | None => ret ()
  | Some file =>
      setErrorMsg "";;
      setSuccess false;;
      setFileName (File.name file);;
      setLastFile (Some file);;
      match validateFileBasics file with
      | Some basicError =>
          setErrorMsg basicError;;
          toast_ (toast_error (VString basicError))
      | None =>
          detected <-
            try_catch
              (d <- detectColumns file 3;; ret (Some d))
              (λ e,
                 let msg := if truthy_string (message_of e) then message_of e
                            else "Could not detect columns" in
                 setErrorMsg msg;;
                 toast_ (toast_error (VString msg));;
                 ret None);;
          match detected with
          | None => ret ()
          | Some detected =>
              setPreviewHeaders (VArray (VString <$> headers detected));;
              setPreviewRows (VArray (rows detected));;
              match validateStructure (headers detected) (rows detected) with
              | Some structError =>
                  setErrorMsg structError;;
                  toast_ (toast_error (VString structError))
              | None => doUploadWithRetry file 2
              end
          end
      end
  end.

End Page.

End Upload.

(* ===================================================================== *)
(** ** Vocabulary of the properties                                       *)
(* ===================================================================== *)

Import AuthContext.

(** The token the initializer returns: the stored one when it is a
    non-empty string of three dot-separated segments, [null] otherwise. *)
Definition hydrated (storage : gmap string string) : option string :=
  match storage !! "token" with
  | Some s =>
      if truthy_string s && (length (split "." s) =? 3)%nat then Some s else None
  | None => None
  end.

(** The override as the environment supplies it, when it is a non-empty
    string. *)
Definition override (host : Host) : option string :=
  match VITE_API_BASE_URL host with
  | Some c => if truthy_string c then Some c else None
  | None => None
  end.

(** A string parses as a URL whose scheme starts with [http]. *)
Definition http_url (host : Host) (c : string) : bool :=
  match new_URL host c with
  | Some u => startsWith "http" (URL.protocol u)
  | None => false
  end.

Definition fallback_warning (host : Host) : Level * string :=
  (LevelWarn,
   "Invalid VITE_API_BASE_URL provided (" +:+ show (VITE_API_BASE_URL host)
   +:+ "); falling back to " +:+ DEFAULT_BASE_URL).

Definition with_console (lines : list (Level * string)) (w : World) : World :=
  mkWorld (token w) (loadingCount w) (localStorage w) (window_location_href w)
    (console w ++ lines) (toasts w) (wire w).

(** The claim as the specification words it: whenever the override is
    missing or invalid, the default is used, a warning is emitted and
    nothing is thrown. *)
Definition fallback_warns (host : Host) (w : World) : Prop :=
  match override host with
  | Some c => http_url host c = false
  | None => True
  end →
  let r := resolve_baseURL host w in
  r.2 = Normal DEFAULT_BASE_URL ∧
  ∃ text, (LevelWarn, text) ∈ drop (length (console w)) (console r.1).

Definition no_reply : list Request → Request → Outcome :=
  λ _ _, Rejected (Some "ERR_NETWORK") "Network Error" None.

(** A browser in which no override is configured. *)
Definition plain_host : Host :=
  {| new_URL := new_URL_scheme; import_meta_env := Some ∅; http := no_reply |}.

Definition fresh : World := mount ∅ (Some "/").

(** The counter the failure handler reads off the failed request. *)
Definition counter (error : AxiosError.t) : Z :=
  retryCount_or_0 (default Config.empty (AxiosError.config error)).

(** The handler's test on line 100. *)
Definition will_retry (error : AxiosError.t) : bool :=
  retriable_includes (status_of error) && (counter error <? MAX_RETRIES).

(** The request the handler hands back to the instance, and the error as
    it is rejected: the failed request's configuration, with the counter
    incremented, respectively filled in. *)
Definition retry_config (error : AxiosError.t) : Config.t :=
  Config.set_retryCount (counter error + 1)
    (default Config.empty (AxiosError.config error)).

Definition rejected_error (error : AxiosError.t) : AxiosError.t :=
  AxiosError.mk (AxiosError.code error) (AxiosError.message error)
    (AxiosError.response error)
    (Config.set_retryCount (counter error) <$> AxiosError.config error).

(** [status === 400 && isPredict] *)
Definition handled_in_page (error : AxiosError.t) : bool :=
  bool_decide (status_of error = Some 400) &&
  match url_of error with
  | Some u => includes "/predict/" u
  | None => false
  end.

(** The text of the notification (lines 119-121). *)
Definition notification (error : AxiosError.t) : Value :=
  let msg := or_else (or_else (detail_of error) (VString (AxiosError.message error)))
                     (VString "Request failed") in
  if is_string msg then msg else VString "An unexpected error occurred".

Definition new_toasts (error : AxiosError.t) : list Toast :=
  if will_retry error then []
  else if bool_decide (status_of error = Some 401) then []
  else if handled_in_page error then []
  else [toast_error (notification error)].

(** The handler's second test: not retried and status 401. *)
Definition logs_out (error : AxiosError.t) : bool :=
  negb (will_retry error) && bool_decide (status_of error = Some 401).

(** The configuration as the request interceptor passes it on: with the
    bearer credential when the closure holds a non-empty token. *)
Definition dispatched (tok : option string) (cfg : Config.t) : Config.t :=
  match tok with
  | Some t => if truthy_string t
              then Config.set_header "Authorization" ("Bearer " +:+ t) cfg
              else cfg
  | None => cfg
  end.

(** One of the three transient gateway statuses. *)
Definition transient (status : option Z) : Prop :=
  status = Some 502 ∨ status = Some 503 ∨ status = Some 504.

(** The error axios rejects with when the transport rejects a request. *)
Definition failure (cfg : Config.t) (code : option string) (message : string)
    (response : option (Z * Value)) : AxiosError.t :=
  AxiosError.mk code message ((λ r, Response.mk r.1 r.2 cfg) <$> response) (Some cfg).

(** The text the handler shows: the body's [detail] when it is a
    non-empty string; a fixed text when [detail] is some other truthy
    value; otherwise the error's own message when it is non-empty;
    otherwise ['Request failed']. *)
Definition shown_text (error : AxiosError.t) : string :=
  let d := detail_of error in
  if truthy d then
    match d with
    | VString s => s
    | _ => "An unexpected error occurred"
    end
  else if truthy_string (AxiosError.message error) then AxiosError.message error
  else "Request failed".

(** What the specification says is shown: the [detail] field if present,
    otherwise the transport-level message, otherwise the fallback. *)
Definition detail_else_message (error : AxiosError.t) : Value :=
  if negb (nullish (detail_of error)) then detail_of error
  else if truthy_string (AxiosError.message error)
       then VString (AxiosError.message error)
       else VString "Request failed".

(** The claim as the specification words it, for a failure that is
    neither retried nor an authentication failure. *)
Definition shows_detail_else_message (error : AxiosError.t) (w : World) : Prop :=
  will_retry error = false →
  status_of error ≠ Some 401 →
  toasts (on_rejected error w).1 =
    (toasts w ++ if handled_in_page error then []
                 else [toast_error (detail_else_message error)])%list.

(** A validation failure as the backend reports it: status 422 with a
    list of problems under [detail]. *)
Definition validation_failure : AxiosError.t :=
  failure (Config.mk (Some "/train") (Some "post") ∅ NoBody None)
    (Some "ERR_BAD_REQUEST") "Request failed with status code 422"
    (Some (422, VObject [("detail",
                          VArray [VObject [("msg", VString "field required")]])])).

(** Computations that neither assign [errorMsg] nor sleep. *)
Definition quiet {Env A} (m : M (Upload.World Env) A) : Prop :=
  ∀ w, Upload.errorMsg (m w).1 = Upload.errorMsg w ∧
       Upload.slept (m w).1 = Upload.slept w.

(** What [onFiles] leaves behind when it turns a file away with a
    message before anything is sent. *)
Definition turned_away {Env} (message : string) (w w' : Upload.World Env)
  : Prop :=
  Upload.env w' = Upload.env w ∧
  Upload.uploading w' = Upload.uploading w ∧
  Upload.progress w' = Upload.progress w ∧
  Upload.scheduled w' = Upload.scheduled w ∧
  Upload.success w' = false ∧
  Upload.errorMsg w' = message ∧
  Upload.toasts w' = (Upload.toasts w ++ [toast_error (VString message)])%list.

Definition jwt : string := "aaa.bbb.ccc".

Definition list_datasets : Config.t :=
  Config.mk (Some "/datasets") (Some "get") ∅ NoBody None.

(** A backend behind a gateway that answers every request with 503. *)
Definition gateway_down : Host :=
  {| new_URL := new_URL_scheme;
     import_meta_env := Some ∅;
     http := λ _ _, Rejected (Some "ERR_BAD_RESPONSE")
                      "Request failed with status code 503"
                      (Some (503, VObject [("detail", VString "Service Unavailable")])) |}.

(** A backend that accepts every login with the token [jwt]. *)
Definition backend : Host :=
  {| new_URL := new_URL_scheme;
     import_meta_env := Some ∅;
     http := λ _ _, Fulfilled 200 (VObject [("access_token", VString jwt);
                                            ("token_type", VString "bearer")]) |}.

(** A backend whose login endpoint answers with a success that carries
    an empty token. *)
Definition empty_token_backend : Host :=
  {| new_URL := new_URL_scheme;
     import_meta_env := Some ∅;
     http := λ _ _, Fulfilled 200 (VObject [("access_token", VString "");
                                            ("token_type", VString "bearer")]) |}.

(** The claim as the specification words it: on a success response
    carrying [{access_token: t}] the token becomes [t], so that the
    session is authenticated, and [t] is persisted. *)
Definition login_authenticates (host : Host) (username password : string)
    (w : World) : Prop :=
  ∀ status data t,
    http host (wire w)
      {| baseURL := unchecked_baseURL host;
         config := login_request username password |} = Fulfilled status data →
    get data "access_token" = VString t →
    let w' := (login host username password w).1 in
    token w' = Some t ∧
    isAuthenticated w' = true ∧
    localStorage w' !! "token" = Some t.

(** A deployment whose override is not an HTTP URL. *)
Definition misconfigured : Host :=
  {| new_URL := new_URL_scheme;
     import_meta_env := Some {[ "VITE_API_BASE_URL" := "ftp://files.example/api" ]};
     http := no_reply |}.

Definition session_expired : AxiosError.t :=
  failure list_datasets (Some "ERR_BAD_REQUEST")
    "Request failed with status code 401"
    (Some (401, VObject [("detail", VString "Could not validate credentials")])).

Definition answered : Response.t := Response.mk 200 (VArray []) list_datasets.

Definition LF : string := String "010" EmptyString.
Definition CRLF : string := String "013" LF.

(** A CSV file that holds two line feeds and nothing else. *)
Definition blank_csv : File.t := File.mk "Blank.CSV" 2 (inl (LF +:+ LF)).

(** A CSV file with a header line and one row. *)
Definition small_csv : File.t :=
  File.mk "iris.csv" 8 (inl ("x,y" +:+ LF +:+ "1,2" +:+ LF)).

(** A backend that stores an upload as dataset 7 and serves its preview. *)
Definition datasets_backend : Host :=
  {| new_URL := new_URL_scheme;
     import_meta_env := Some ∅;
     http := λ _ r,
       if bool_decide (Config.url (config r) = Some "/upload")
       then Fulfilled 200 (VObject [("dataset", VObject [("id", VNumber 7)])])
       else Fulfilled 200
              (VObject [("columns", VArray [VString "x"; VString "y"]);
                        ("sample_data",
                         VArray [VObject [("x", VNumber 1); ("y", VNumber 2)]]);
                        ("preprocessing_applied", VBool false)]) |}.

(** The page wired to the provider: [api] is the provider's instance. In
    the runs below the transport reports no progress and only CSV files
    are chosen, so [JSON.parse] is never consulted. *)
Definition page_onFiles (host : Host) (api : Api)
  : option (list File.t) → M (Upload.World World) () :=
  Upload.onFiles (api_post host api) (api_get host api) (api_token api)
    (λ _, []) (λ _, None).

Definition page_initial (env : World) : Upload.World World :=
  Upload.mkWorld false 0 "" VNull VNull "" None false [] [] [] [] env.

(* ===================================================================== *)
(** ** Further parts of the application                                   *)
(* ===================================================================== *)

(** Occurrences of a character in a string. *)
Fixpoint count_char (c : ascii) (s : string) : nat :=
  match s with
  | EmptyString => 0%nat
  | String c' s' => ((if Ascii.eqb c' c then 1 else 0) + count_char c s')%nat
  end.

(** *** [src/components/ProtectedRoute.tsx]

    The component keeps one state, [isLoading], which starts [true] and
    is set to [false] by a timer 100 ms after the first render. *)
Module ProtectedRoute.

Inductive Rendered : Type :=
| Spinner
| Navigate (to : string)
| Page.

Definition isLoading_initial : bool := true.

(** The timer's callback: [setIsLoading(false)]. *)
Definition on_timer (isLoading : bool) : bool := false.

Definition render (isLoading : bool) : M World Rendered :=
  isAuthenticated <- gets AuthContext.isAuthenticated;;
  if isLoading then ret Spinner
  else if negb isAuthenticated then
    console_log "User not authenticated, redirecting to login";;
    ret (Navigate "/login")
  else ret Page.

End ProtectedRoute.

(** *** The upload page: the preview helpers (lines 34-71) and the retry
    button (lines 321-331) *)
Module UploadView.

Section View.

Context {Env : Type}.
Variable api_post : string → Body → gmap string string → M Env Response.t.
Variable api_get : string → M Env Response.t.
Variable token : option string.
Variable upload_progress : Env → list Upload.ProgressEvent.
Variable JSON_parse : string → option Value.

Abbreviation W := (Upload.World Env).

Definition simpleCsvPreview (file : File.t) : M W () :=
  try_catch
    (text <- Upload.file_text file;;
     let lines := take 6 (List.filter truthy_string (split_lines text)) in
     match lines with
     | [] => ret ()
     | first :: more =>
         let headers := split "," first in
         let rows := map (Upload.csv_row headers) more in
         Upload.setPreviewHeaders (VArray (VString <$> headers));;
         Upload.setPreviewRows (VArray rows)
     end)
    (λ _, ret ()).

Definition jsonPreview (file : File.t) : M W () :=
  try_catch
    (text <- Upload.file_text file;;
     match JSON_parse text with
     | None => throw (SyntaxError "Unexpected token in JSON")
     | Some json =>
         let d := Upload.json_headers_rows json in
         Upload.setPreviewHeaders (VArray (VString <$> Upload.headers d));;
         Upload.setPreviewRows (VArray (Upload.rows d))
     end)
    (λ _, ret ()).

Definition parsePreview (file : File.t) : M W () :=
  Upload.setPreviewRows VNull;;
  Upload.setPreviewHeaders VNull;;
  let lower := toLowerCase (File.name file) in
  if endsWith ".csv" lower then simpleCsvPreview file
  else if endsWith ".json" lower then jsonPreview file
  else ret ().

(** The file the "Retry Upload" button is rendered for, if it is
    rendered: inside [(fileName || uploading) && ...], under
    [!uploading && errorMsg && ...] and [lastFile && ...]. *)
Definition retry_button (w : W) : option File.t :=
  if (truthy_string (Upload.fileName w) || Upload.uploading w)
     && negb (Upload.uploading w) && truthy_string (Upload.errorMsg w)
  then Upload.lastFile w
  else None.

(** A click on it: [() => doUploadWithRetry(lastFile)], with the default
    [maxRetries = 2]; nothing happens when the button is not there. *)
Definition click_retry : M W () :=
  button <- gets retry_button;;
  match button with
  | Some file =>
      Upload.doUploadWithRetry api_post api_get token upload_progress file 2
  | None => ret ()
  end.

End View.

End UploadView.

(** The state in which [onFiles] starts to look at a file, the state it
    leaves when it turns the file away with a message, and the state in
    which the detected preview is on display. *)
Definition begin_file {Env} (file : File.t) (w : Upload.World Env) : Upload.World Env :=
  (Upload.setLastFile (Some file)
     (Upload.setFileName (File.name file)
        (Upload.setSuccess false (Upload.setErrorMsg "" w).1).1).1).1.

Definition turn_away {Env} (message : string) (w : Upload.World Env)
  : Upload.World Env :=
  (Upload.toast_ (toast_error (VString message)) (Upload.setErrorMsg message w).1).1.

Definition show_detected {Env} (d : Upload.Detected) (w : Upload.World Env)
  : Upload.World Env :=
  (Upload.setPreviewRows (VArray (Upload.rows d))
     (Upload.setPreviewHeaders (VArray (VString <$> Upload.headers d)) w).1).1.

(** What one round of [detectColumns] evaluates (lines 102-106). *)
Definition parse_round {Env} (JSON_parse : string → option Value) (file : File.t)
  : M (Upload.World Env) Upload.Detected :=
  let lower := toLowerCase (File.name file) in
  if endsWith ".csv" lower then Upload.parseCsvHeadersRows file
  else if endsWith ".json" lower then Upload.parseJsonHeadersRows JSON_parse file
  else ret {| Upload.headers := []; Upload.rows := [] |}.

(** A state after [k] waits of half a second. *)
Definition after_waits {Env} (k : nat) (w : Upload.World Env) : Upload.World Env :=
  Nat.iter k (λ w, (Upload.sleep 500 w).1) w.

(** [e?.message || 'Could not detect columns'] *)
Definition detection_message (e : Exn) : string :=
  if truthy_string (message_of e) then message_of e else "Could not detect columns".

(** The headers [doUpload] passes, and the id it reads off the upload
    response: [data?.dataset?.id ?? data?.id ?? data?.dataset_id ?? 1]. *)
Definition upload_headers (token : option string) : gmap string string :=
  match token with
  | Some t =>
      if truthy_string t
      then {[ "Content-Type" := "multipart/form-data";
              "Authorization" := "Bearer " +:+ t ]}
      else {[ "Content-Type" := "multipart/form-data" ]}
  | None => {[ "Content-Type" := "multipart/form-data" ]}
  end.

Definition dataset_id (data : Value) : Value :=
  coalesce (coalesce (coalesce (opt_get (opt_get data "dataset") "id")
                               (opt_get data "id"))
                     (opt_get data "dataset_id"))
           (VNumber 1).

(** The states [doUpload] goes through: the upload started and the
    transport's progress reports applied; the failure reported; the
    preview left unchecked, found corrupt, or shown; the upload finished
    and the navigation scheduled. *)
Definition progressed {Env} (events : list Upload.ProgressEvent)
    (w : Upload.World Env) : Upload.World Env :=
  fold_left (λ w evt, (Upload.onUploadProgress evt w).1) events w.

Definition upload_started {Env} (upload_progress : Env → list Upload.ProgressEvent)
    (w : Upload.World Env) : Upload.World Env :=
  progressed (upload_progress (Upload.env w))
    (Upload.setProgress 1 (Upload.setUploading true w).1).1.

(** [e?.response?.data?.detail || e?.message || 'Upload failed'] *)
Definition upload_message (e : Exn) : Value :=
  or_else (or_else (exn_detail e) (VString (message_of e))) (VString "Upload failed").

Definition upload_failed {Env} (e : Exn) (w : Upload.World Env) : Upload.World Env :=
  (Upload.setProgress 0
     (Upload.setUploading false
        (Upload.toast_ (toast_error (upload_message e)) w).1).1).1.

Definition preview_logged {Env} (w : Upload.World Env) : Upload.World Env :=
  (Upload.console_ LevelLog "PREPROCESSING APPLIED:"
     (Upload.console_ LevelLog "RAW DATA SAMPLE:"
        (Upload.console_ LevelLog "RAW DATA PREVIEW:" w).1).1).1.

Definition preview_unchecked {Env} (w : Upload.World Env) : Upload.World Env :=
  (Upload.toast_ (toast_success (VString "Upload complete. Redirecting..."))
     (Upload.console_ LevelWarn "Could not validate data integrity:" w).1).1.

Definition preview_corrupt {Env} (w : Upload.World Env) : Upload.World Env :=
  (Upload.toast_
     (toast_error (VString "Data corruption detected! Please re-upload the file."))
     (Upload.console_ LevelWarn
        "WARNING: Data preprocessing was applied during upload!"
        (preview_logged w)).1).1.

Definition preview_shown {Env} (rawData : Value) (w : Upload.World Env)
  : Upload.World Env :=
  (Upload.toast_ (toast_success (VString "Upload complete with RAW data preserved!"))
     (Upload.setPreviewRows (get rawData "sample_data")
        (Upload.setPreviewHeaders (get rawData "columns") (preview_logged w)).1).1).1.

Definition upload_finished {Env} (id : Value) (w : Upload.World Env)
  : Upload.World Env :=
  (Upload.navigate_after 700 ("/analyze/" +:+ String_ id)
     (Upload.setSuccess true w).1).1.

(** The properties [csv_row] builds for a line, header by header. *)
Definition csv_cells (vals hs : list string) : list (string * Value) :=
  fold_left (λ obj ih, set_prop ih.2 (VString (default "" (vals !! ih.1))) obj)
            (imap pair hs) [].

(** Whether [onFiles], started in [w], lets [file] through its three
    checks: name and size, column detection, preview structure. *)
Definition passes_checks {Env} (JSON_parse : string → option Value) (file : File.t)
    (w : Upload.World Env) : bool :=
  match Upload.validateFileBasics file with
  | Some _ => false
  | None =>
      match (Upload.detectColumns JSON_parse file 3 (begin_file file w)).2 with
      | Normal d =>
          match Upload.validateStructure (Upload.headers d) (Upload.rows d) with
          | Some _ => false
          | None => true
          end
      | Throw _ => false
      end
  end.

(** *** The Analyze page: the writers of the selection
    ([handleInputToggle], [handleTargetSelect] and the auto-selection of
    [analyzeDataset])

    The page's state as far as these use it. Each handler runs in the
    render that follows the event before it, so the [selectedOutput] it
    compares with is the current one. *)
Module Analyze.

Record State : Type := mkState {
  selectedInputs : list string;
  selectedOutput : string;
  toasts : list Toast
}.

Definition setSelectedInputs (f : list string → list string) : M State () :=
  modify (λ s, mkState (f (selectedInputs s)) (selectedOutput s) (toasts s)).
Definition setSelectedOutput (column : string) : M State () :=
  modify (λ s, mkState (selectedInputs s) column (toasts s)).
Definition toast_ (t : Toast) : M State () :=
  modify (λ s, mkState (selectedInputs s) (selectedOutput s) (toasts s ++ [t])%list).

(** [prev.includes(column)] and [prev.filter(c => c !== column)] *)
Definition includes (column : string) (prev : list string) : bool :=
  existsb (String.eqb column) prev.
Definition without (column : string) (prev : list string) : list string :=
  List.filter (λ c, negb (String.eqb c column)) prev.

Definition handleInputToggle (column : string) : M State () :=
  selectedOutput <- gets selectedOutput;;
  if String.eqb column selectedOutput then
    toast_ (toast_error (VString "Cannot select target column as input feature"))
  else
    setSelectedInputs (λ prev, if includes column prev then without column prev
                               else (prev ++ [column])%list).

Definition handleTargetSelect (column : string) : M State () :=
  setSelectedOutput column;;
  setSelectedInputs (without column).

(** What [analyzeDataset] (on mount and from the "Re-analyze" button)
    writes of the selection once its two requests have succeeded:
    [if (response.data.target && dataset?.columns)
       setSelectedOutput(response.data.target)].
    [target] is the analysis' suggestion ([''] when there is none) and
    [columns] whether the dataset with its columns is loaded. *)
Definition analyzeDataset_select (target : string) (columns : bool) : M State () :=
  if truthy_string target && columns then setSelectedOutput target
  else ret ().

(** The events that write the selection, and the page after them: the
    clicks of a user on the two controls and a finished analysis. These
    are all the callers of [setSelectedInputs] and [setSelectedOutput]. *)
Inductive Click : Type :=
| Toggle (column : string)
| Target (column : string)
| Analysed (target : string) (columns : bool).

Definition click (c : Click) : M State () :=
  match c with
  | Toggle column => handleInputToggle column
  | Target column => handleTargetSelect column
  | Analysed target columns => analyzeDataset_select target columns
  end.

Definition clicks (cs : list Click) (s : State) : State :=
  fold_left (λ s c, (click c s).1) cs s.

(** [useState([])], [useState('')] *)
Definition initial : State := mkState [] "" [].

End Analyze.

(** *** Concrete inputs of the further properties *)

(** A backend whose login endpoint answers with a success that carries no
    token. *)
Definition tokenless_backend : Host :=
  {| new_URL := new_URL_scheme;
     import_meta_env := Some ∅;
     http := λ _ _, Fulfilled 200 (VObject [("detail", VString "ok")]) |}.

(** A server as the page sees it through [api]: what it answers to the
    upload and to the preview request. The state behind [api] counts the
    calls made. *)
Definition server_post (answer : Completion Response.t)
  : string → Body → gmap string string → M nat Response.t :=
  λ _ _ _ calls, (S calls, answer).

Definition server_get (answer : Completion Response.t) : string → M nat Response.t :=
  λ _ calls, (S calls, answer).

Definition idle_page : Upload.World nat :=
  Upload.mkWorld false 0 "" VNull VNull "" None false [] [] [] [] 0%nat.

Definition offline : Exn := Error "Network Error".

Definition stored_as_7 : Response.t :=
  Response.mk 200 (VObject [("dataset", VObject [("id", VNumber 7)])]) Config.empty.

Definition stored_unnamed : Response.t :=
  Response.mk 200 (VObject [("message", VString "File uploaded")]) Config.empty.

Definition raw_preview : Response.t :=
  Response.mk 200
    (VObject [("columns", VArray [VString "x"; VString "y"]);
              ("sample_data", VArray [VObject [("x", VNumber 1); ("y", VNumber 2)]]);
              ("preprocessing_applied", VBool false)])
    Config.empty.

Definition preprocessed_preview : Response.t :=
  Response.mk 200
    (VObject [("columns", VArray [VString "x"]);
              ("sample_data", VArray []);
              ("preprocessing_applied", VBool true)])
    Config.empty.

(** An Excel workbook, a CSV file that cannot be read, a CSV file with a
    header line only, and a text file. *)
Definition workbook : File.t := File.mk "Sales.XLSX" 2048 (inl "PK").

Definition unreadable_csv : File.t :=
  File.mk "locked.csv" 10 (inr "The requested file could not be read").

Definition header_only_csv : File.t := File.mk "empty.csv" 4 (inl ("x,y" +:+ LF)).

Definition text_note : File.t := File.mk "notes.txt" 5 (inl "hello").

(* ===================================================================== *)
(** ** Properties of the session                                          *)
(* ===================================================================== *)

(** *** Token hydration *)

Lemma split_length (sep : ascii) (s : string) : (0 < length (split sep s))%nat.
Proof.
  induction s as [|c s IH]; simpl; [lia|].
  destruct (Ascii.eqb c sep); simpl; [lia|].
  destruct (split sep s); simpl; lia.
Qed.

Lemma useState_token_init_spec (w : World) :
  useState_token_init w = (w, Normal (hydrated (localStorage w))).
Proof.
  unfold useState_token_init, hydrated, bind, localStorage_getItem, gets.
  destruct (localStorage w !! "token") as [s|]; [|reflexivity].
  destruct (truthy_string s); [|reflexivity].
  unfold try_catch, ret; simpl.
  destruct (length (split "." s) =? 3)%nat; reflexivity.
Qed.

Lemma mount_spec (storage : gmap string string) (href : option string) :
  mount storage href = mkWorld (hydrated storage) 0 storage href [] [] [].
Proof. unfold mount. rewrite useState_token_init_spec. reflexivity. Qed.

(** The initializer never touches the storage: its [catch] block, the only
    place that removes the token, is never entered. *)
Lemma mount_storage (storage : gmap string string) (href : option string) :
  localStorage (mount storage href) = storage.
Proof. rewrite mount_spec. reflexivity. Qed.

(** C1: at session initialization a stored token that does not split into
    three dot-separated segments should leave the session unauthenticated
    and be removed from durable storage. On the stored token ["abc"] the
    session does start unauthenticated, but the token is still in storage
    afterwards, and nothing was logged. *)
Theorem mount_keeps_invalid_token :
  let w := mount {[ "token" := "abc" ]} (Some "/") in
  length (split "." "abc") ≠ 3%nat ∧
  token w = None ∧ isAuthenticated w = false ∧
  localStorage w !! "token" = Some "abc" ∧
  console w = [].
Proof.
  rewrite mount_spec. simpl. repeat split; try reflexivity.
  vm_compute. lia.
Qed.

(** *** Base-URL resolution *)

#[local] Arguments startsWith : simpl never.
#[local] Arguments includes : simpl never.
#[local] Arguments endsWith : simpl never.
#[local] Arguments String.append : simpl never.
#[local] Arguments pretty : simpl never.

Ltac run :=
  cbv beta iota zeta delta
    [bind ret throw try_catch modify gets
     console_log console_warn console_error console_ AuthContext.toast_
     setToken setLoadingCount localStorage_getItem localStorage_setItem
     localStorage_removeItem navigate_if_window send fst snd];
  simpl.

Lemma resolve_baseURL_spec (host : Host) (w : World) :
  resolve_baseURL host w =
    match override host with
    | Some c =>
        if http_url host c
        then (with_console [(LevelLog, "Using API base URL: " +:+ c)] w, Normal c)
        else (with_console [fallback_warning host;
                            (LevelLog, "Using API base URL: " +:+ DEFAULT_BASE_URL)] w,
              Normal DEFAULT_BASE_URL)
    | None =>
        (with_console [(LevelLog, "Using API base URL: " +:+ DEFAULT_BASE_URL)] w,
         Normal DEFAULT_BASE_URL)
    end.
Proof.
  unfold resolve_baseURL, override, http_url, fallback_warning, with_console, URL_.
  destruct (VITE_API_BASE_URL host) as [c|]; [|reflexivity].
  destruct (truthy_string c); [|reflexivity].
  destruct (new_URL host c) as [u|]; run.
  - destruct (startsWith "http" (URL.protocol u)); simpl; [reflexivity|].
    rewrite <- app_assoc. reflexivity.
  - rewrite <- app_assoc. reflexivity.
Qed.

(** C6, counterexample: with no override configured the default is used
    but no warning is emitted; the only console line is the one that
    reports the base URL in use. *)
Lemma missing_override_is_silent : ¬ fallback_warns plain_host fresh.
Proof.
  unfold fallback_warns. intros H.
  destruct (H I) as [_ [text Hin]].
  rewrite resolve_baseURL_spec in Hin. simpl in Hin.
  apply list_elem_of_singleton in Hin. discriminate.
Qed.

(** C6, amended: construction never throws. A non-empty override that
    parses as a URL whose scheme starts with [http] becomes the base URL;
    a non-empty override that does not is replaced by the default
    ['http://127.0.0.1:8000/api'] with one warning; a missing or empty
    override gives the default without a warning. Nothing but the console
    changes. *)
Theorem resolve_baseURL_fallback (host : Host) (w : World) :
  ∃ b lines,
    resolve_baseURL host w = (with_console lines w, Normal b) ∧
    b = match override host with
        | Some c => if http_url host c then c else DEFAULT_BASE_URL
        | None => DEFAULT_BASE_URL
        end ∧
    DEFAULT_BASE_URL = "http://127.0.0.1:8000/api" ∧
    List.filter (λ l, bool_decide (l.1 = LevelWarn)) lines =
      match override host with
      | Some c => if http_url host c then [] else [fallback_warning host]
      | None => []
      end.
Proof.
  rewrite resolve_baseURL_spec.
  destruct (override host) as [c|]; [destruct (http_url host c)|];
    eexists _, _; (split; [reflexivity|]); repeat split; reflexivity.
Qed.

(** *** The interceptors *)

Ltac split_if :=
  match goal with
  | |- context [if ?b then _ else _] => destruct b eqn:?
  end.

Lemma on_rejected_outcome (error : AxiosError.t) (w : World) :
  (on_rejected error w).2 =
    Normal (if will_retry error then Retry (retry_config error)
            else Reject (rejected_error error)).
Proof.
  unfold on_rejected, will_retry, counter.
  repeat (run; split_if); reflexivity.
Qed.

Ltac handler_cases :=
  unfold on_rejected, new_toasts, logs_out, notification, handled_in_page,
    will_retry, counter, detail_of;
  repeat (run; split_if); run;
  repeat (case_match; simpl in * ); simplify_eq; try reflexivity; try discriminate.

Lemma on_rejected_loadingCount (error : AxiosError.t) (w : World) :
  loadingCount (on_rejected error w).1 = dec_sat (loadingCount w).
Proof. handler_cases. Qed.

Lemma on_rejected_wire (error : AxiosError.t) (w : World) :
  wire (on_rejected error w).1 = wire w.
Proof. handler_cases. Qed.

Lemma on_rejected_toasts (error : AxiosError.t) (w : World) :
  toasts (on_rejected error w).1 = (toasts w ++ new_toasts error)%list.
Proof. handler_cases; rewrite ?app_nil_r; reflexivity. Qed.

Lemma on_rejected_token (error : AxiosError.t) (w : World) :
  token (on_rejected error w).1 = if logs_out error then None else token w.
Proof. handler_cases. Qed.

Lemma on_rejected_localStorage (error : AxiosError.t) (w : World) :
  localStorage (on_rejected error w).1 =
    if logs_out error then delete "token" (localStorage w) else localStorage w.
Proof. handler_cases. Qed.

Lemma on_rejected_href (error : AxiosError.t) (w : World) :
  window_location_href (on_rejected error w).1 =
    if logs_out error then (λ _, "/login") <$> window_location_href w
    else window_location_href w.
Proof. handler_cases. Qed.

Lemma on_request_spec (tok : option string) (cfg : Config.t) (w : World) :
  ∃ w' cfg',
    on_request tok cfg w = (w', Normal cfg') ∧
    loadingCount w' = loadingCount w + 1 ∧
    wire w' = wire w ∧ token w' = token w ∧ localStorage w' = localStorage w ∧
    toasts w' = toasts w ∧ window_location_href w' = window_location_href w ∧
    cfg' = match tok with
           | Some t => if truthy_string t
                       then Config.set_header "Authorization" ("Bearer " +:+ t) cfg
                       else cfg
           | None => cfg
           end.
Proof.
  unfold on_request. run.
  destruct tok as [t|]; [destruct (truthy_string t)|]; simpl;
    eexists _, _; (split; [reflexivity|]); repeat split; reflexivity.
Qed.

Lemma on_fulfilled_spec (response : Response.t) (w : World) :
  ∃ w',
    on_fulfilled response w = (w', Normal response) ∧
    loadingCount w' = dec_sat (loadingCount w) ∧
    wire w' = wire w ∧ token w' = token w ∧ localStorage w' = localStorage w ∧
    toasts w' = toasts w ∧ window_location_href w' = window_location_href w.
Proof.
  unfold on_fulfilled. run.
  eexists; (split; [reflexivity|]); repeat split; reflexivity.
Qed.

(** *** The instance makes finitely many calls *)

Section Instance.

Variable host : Host.
Variable base : string.
Variable tok : option string.

Lemma on_request_retryCount (cfg cfg1 : Config.t) (w w1 : World) :
  on_request tok cfg w = (w1, Normal cfg1) →
  Config.__retryCount cfg1 = Config.__retryCount cfg.
Proof.
  destruct (on_request_spec tok cfg w) as (w' & cfg' & -> & _ & _ & _ & _ & _ & _ & ->).
  intros [= <- <-]. destruct tok as [t|]; [destruct (truthy_string t)|]; reflexivity.
Qed.

Lemma on_request_normal (cfg : Config.t) (w w1 : World) (e : Exn) :
  on_request tok cfg w ≠ (w1, Throw e).
Proof.
  destruct (on_request_spec tok cfg w) as (w' & cfg' & -> & _). discriminate.
Qed.

Lemma transport_error_config (cfg : Config.t) (w w2 : World) (e : Exn) :
  transport host base cfg w = (w2, Throw e) →
  ∃ err, e = EAxios err ∧ AxiosError.config err = Some cfg.
Proof.
  unfold transport. destruct (http host _ _); intros [= <- <-]; eauto.
Qed.

Lemma instance_fuel_mono (fuel : nat) :
  ∀ cfg w r, instance_fuel host fuel base tok cfg w = Some r →
  ∀ fuel', (fuel ≤ fuel')%nat → instance_fuel host fuel' base tok cfg w = Some r.
Proof.
  induction fuel as [|fuel IH]; intros cfg w r H fuel' Hle; [discriminate|].
  destruct fuel' as [|fuel']; [lia|]. simpl in *.
  destruct (on_request tok cfg w) as [w1 [cfg1|e]]; [|exact H].
  destruct (transport host base cfg1 w1) as [w2 [response|[err|m|m|m]]]; try exact H.
  destruct (on_rejected err w2) as [w3 [[cfg2|e]|e]]; try exact H.
  apply (IH _ _ _ H). lia.
Qed.

Lemma instance_fuel_total (fuel : nat) :
  ∀ cfg w, (calls_needed cfg ≤ fuel)%nat →
  is_Some (instance_fuel host fuel base tok cfg w).
Proof.
  induction fuel as [|fuel IH]; intros cfg w Hle; [unfold calls_needed in Hle; lia|].
  simpl.
  destruct (on_request tok cfg w) as [w1 [cfg1|e]] eqn:Hreq; [|eauto].
  destruct (transport host base cfg1 w1) as [w2 [response|e]] eqn:Htr; [eauto|].
  destruct (transport_error_config _ _ _ _ Htr) as (err & -> & Hcfg).
  pose proof (on_rejected_outcome err w2) as Hout.
  destruct (on_rejected err w2) as [w3 [[cfg2|e]|e]]; [|eauto|eauto].
  simpl in Hout. apply IH.
  destruct (will_retry err) eqn:Hretry; [|discriminate].
  injection Hout as ->.
  unfold will_retry in Hretry. apply andb_true_iff in Hretry as [_ Hlt].
  apply Z.ltb_lt in Hlt.
  unfold calls_needed, retry_config in *. simpl.
  unfold counter in *. rewrite Hcfg in *. simpl in *.
  unfold retryCount_or_0 in Hlt, Hle |- *.
  rewrite (on_request_retryCount _ _ _ _ Hreq) in *.
  unfold MAX_RETRIES in *. simpl. lia.
Qed.

Lemma instance_fuel_enough (fuel : nat) (cfg : Config.t) (w : World) :
  (calls_needed cfg ≤ fuel)%nat →
  instance_fuel host fuel base tok cfg w = Some (instance host base tok cfg w).
Proof.
  intros Hle. unfold instance.
  destruct (instance_fuel_total (calls_needed cfg) cfg w (le_n _)) as [r Hr].
  rewrite Hr. eapply instance_fuel_mono; eauto.
Qed.

(** [instance(cfg)] as the source reads: request interceptor, transport,
    response interceptor, and the handler's [return instance(cfg)]. *)
Lemma instance_unfold (cfg : Config.t) (w : World) :
  instance host base tok cfg w =
    match on_request tok cfg w with
    | (w1, Throw e) => (w1, Throw e)
    | (w1, Normal cfg1) =>
        match transport host base cfg1 w1 with
        | (w2, Normal response) => on_fulfilled response w2
        | (w2, Throw (EAxios err)) =>
            match on_rejected err w2 with
            | (w3, Normal (Retry cfg2)) => instance host base tok cfg2 w3
            | (w3, Normal (Reject e)) => (w3, Throw (EAxios e))
            | (w3, Throw e) => (w3, Throw e)
            end
        | (w2, Throw e) => (w2, Throw e)
        end
    end.
Proof.
  assert (∀ r r' : World * Completion Response.t, Some r = Some r' → r = r')
    as inj by congruence.
  apply inj.
  destruct (on_request tok cfg w) as [w1 [cfg1|e]] eqn:Hreq.
  2:{ rewrite <- (instance_fuel_enough (calls_needed cfg)) by lia.
      unfold calls_needed. simpl. rewrite Hreq. reflexivity. }
  destruct (transport host base cfg1 w1) as [w2 [response|e]] eqn:Htr.
  { rewrite <- (instance_fuel_enough (calls_needed cfg)) by lia.
    unfold calls_needed. simpl. rewrite Hreq, Htr. reflexivity. }
  destruct e as [err|m|m|m];
    try (rewrite <- (instance_fuel_enough (calls_needed cfg)) by lia;
         unfold calls_needed; simpl; rewrite Hreq, Htr; reflexivity).
  destruct (on_rejected err w2) as [w3 [[cfg2|e]|e]] eqn:Hrej;
    try (rewrite <- (instance_fuel_enough (calls_needed cfg)) by lia;
         unfold calls_needed; simpl; rewrite Hreq, Htr, Hrej; reflexivity).
  remember (calls_needed cfg + calls_needed cfg2)%nat as fuel eqn:Hfuel.
  rewrite <- (instance_fuel_enough (S fuel) cfg) by lia.
  simpl. rewrite Hreq, Htr, Hrej.
  apply instance_fuel_enough. lia.
Qed.

End Instance.

(** *** Retry policy *)

Lemma retriable_includes_transient (status : option Z) :
  retriable_includes status = true ↔ transient status.
Proof.
  unfold retriable_includes, transient, retriable. destruct status as [s|].
  - rewrite bool_decide_eq_true. rewrite !elem_of_cons, elem_of_nil.
    split; [intros [->|[->|[->|[]]]]; auto | intros [[= ->]|[[= ->]|[= ->]]]; auto].
  - split; [discriminate | intros [|[|]]; discriminate].
Qed.

Lemma dispatched_retryCount (tok : option string) (cfg : Config.t) :
  Config.__retryCount (dispatched tok cfg) = Config.__retryCount cfg.
Proof. unfold dispatched. repeat case_match; reflexivity. Qed.

Lemma dispatched_again (tok : option string) (cfg : Config.t) (n : Z) :
  Config.payload (dispatched tok (Config.set_retryCount n (dispatched tok cfg)))
  = Config.payload (dispatched tok cfg).
Proof.
  unfold dispatched. repeat case_match; try reflexivity.
  unfold Config.payload, Config.set_header, Config.set_retryCount. simpl.
  rewrite insert_insert_eq. reflexivity.
Qed.

Lemma will_retry_failure (cfg : Config.t) code message response :
  will_retry (failure cfg code message response) = true ↔
  transient (fst <$> response) ∧ retryCount_or_0 cfg < MAX_RETRIES.
Proof.
  unfold will_retry, counter, failure, status_of. simpl.
  rewrite andb_true_iff, Z.ltb_lt, retriable_includes_transient.
  destruct response as [[s d]|]; reflexivity.
Qed.

Section Retry.

Variable host : Host.
Variable base : string.
Variable tok : option string.

(** One call of the instance whose request the transport rejects: the
    state in which the failure handler starts. *)
Lemma instance_rejected (cfg : Config.t) (w : World) code message response :
  http host (wire w) {| baseURL := base; config := dispatched tok cfg |}
    = Rejected code message response →
  ∃ w2,
    wire w2 = (wire w ++ [{| baseURL := base; config := dispatched tok cfg |}])%list ∧
    toasts w2 = toasts w ∧ token w2 = token w ∧
    loadingCount w2 = loadingCount w + 1 ∧
    instance host base tok cfg w =
      match on_rejected (failure (dispatched tok cfg) code message response) w2 with
      | (w3, Normal (Retry cfg2)) => instance host base tok cfg2 w3
      | (w3, Normal (Reject e)) => (w3, Throw (EAxios e))
      | (w3, Throw e) => (w3, Throw e)
      end.
Proof.
  intros Hhttp. rewrite instance_unfold.
  destruct (on_request_spec tok cfg w)
    as (w1 & cfg1 & -> & Hc & Hw & Ht & _ & Hto & _ & ->).
  fold (dispatched tok cfg).
  unfold transport. rewrite Hw, Hhttp.
  eexists. split; [|split; [|split; [|split; [|reflexivity]]]]; simpl;
    congruence.
Qed.

(** A request whose counter has reached the maximum goes out once. *)
Lemma instance_exhausted (cfg : Config.t) (w : World) :
  MAX_RETRIES ≤ retryCount_or_0 cfg →
  wire (instance host base tok cfg w).1
  = (wire w ++ [{| baseURL := base; config := dispatched tok cfg |}])%list.
Proof.
  intros Hn. rewrite instance_unfold.
  destruct (on_request_spec tok cfg w)
    as (w1 & cfg1 & -> & _ & Hw & _ & _ & _ & _ & ->).
  fold (dispatched tok cfg). unfold transport.
  destruct (http host (wire w1) _) as [status data|code message response].
  - destruct (on_fulfilled_spec (Response.mk status data (dispatched tok cfg))
                (send {| baseURL := base; config := dispatched tok cfg |} w1).1)
      as (w' & -> & _ & Hw' & _). simpl. rewrite Hw'. simpl. congruence.
  - set (err := AxiosError.mk _ _ _ _).
    set (w2 := (send _ w1).1).
    pose proof (on_rejected_outcome err w2) as Hout.
    pose proof (on_rejected_wire err w2) as Hwire.
    destruct (on_rejected err w2) as [w3 r]. simpl in Hout, Hwire. subst r.
    assert (will_retry err = false) as ->.
    { apply not_true_is_false. intros Hr.
      apply (will_retry_failure (dispatched tok cfg)) in Hr as [_ Hlt].
      unfold retryCount_or_0 in *. rewrite dispatched_retryCount in Hlt. lia. }
    simpl. rewrite Hwire. unfold w2. simpl. congruence.
Qed.

(** C2: a request is dispatched and the transport rejects it. If the
    response status is 502, 503 or 504 and the request's own counter is
    below the maximum of 1, the handler shows no notification, leaves the
    token alone and calls the instance once more with the same request
    (only the counter, now one higher, differs), and what that call
    returns is what the caller gets; a request that had not been retried
    before is thus sent exactly twice. In every other case (no response
    at all, any other status such as a 4xx, or a counter that has reached
    the maximum) exactly one request was sent, the generic handling ran
    and the caller gets the error. *)
Theorem retry_policy (cfg : Config.t) (w : World) code message response :
  let req := {| baseURL := base; config := dispatched tok cfg |} in
  let n := retryCount_or_0 cfg in
  let error := failure (dispatched tok cfg) code message response in
  http host (wire w) req = Rejected code message response →
  (transient (fst <$> response) ∧ n < MAX_RETRIES →
     ∃ w' cfg',
       wire w' = (wire w ++ [req])%list ∧
       toasts w' = toasts w ∧ token w' = token w ∧
       Config.__retryCount cfg' = Some (n + 1) ∧
       Config.payload cfg' = Config.payload (dispatched tok cfg) ∧
       Config.payload (dispatched tok cfg') = Config.payload (dispatched tok cfg) ∧
       instance host base tok cfg w = instance host base tok cfg' w' ∧
       (0 ≤ n →
        wire (instance host base tok cfg w).1
        = (wire w ++ [req; {| baseURL := base; config := dispatched tok cfg' |}])%list))
  ∧
  (¬ (transient (fst <$> response) ∧ n < MAX_RETRIES) →
     ∃ w',
       instance host base tok cfg w = (w', Throw (EAxios (rejected_error error))) ∧
       wire w' = (wire w ++ [req])%list ∧
       toasts w' = (toasts w ++ new_toasts error)%list ∧
       AxiosError.code (rejected_error error) = code ∧
       AxiosError.message (rejected_error error) = message ∧
       status_of (rejected_error error) = fst <$> response).
Proof.
  intros req n error Hhttp.
  destruct (instance_rejected cfg w code message response Hhttp)
    as (w2 & Hwire & Htoasts & Htoken & _ & Heq).
  fold error in Heq.
  pose proof (on_rejected_outcome error w2) as Hout.
  pose proof (on_rejected_wire error w2) as Hw3.
  pose proof (on_rejected_toasts error w2) as Ht3.
  pose proof (on_rejected_token error w2) as Hk3.
  destruct (on_rejected error w2) as [w3 r]. simpl in Hout, Hw3, Ht3, Hk3. subst r.
  pose proof (will_retry_failure (dispatched tok cfg) code message response) as Hiff.
  fold error in Hiff.
  assert (retryCount_or_0 (dispatched tok cfg) = n) as Hn
    by (unfold n, retryCount_or_0; rewrite dispatched_retryCount; reflexivity).
  rewrite Hn in Hiff.
  split; intros Hcond.
  - apply Hiff in Hcond as Hretry. rewrite Hretry in Heq.
    assert (counter error = n) as Hcounter by exact Hn.
    exists w3, (retry_config error).
    unfold new_toasts, logs_out in *. rewrite Hretry in *. simpl in *.
    rewrite app_nil_r in Ht3.
    split; [rewrite Hw3, Hwire; reflexivity|].
    split; [congruence|]. split; [congruence|].
    split; [unfold retry_config; simpl; rewrite Hcounter; reflexivity|].
    split; [reflexivity|].
    split; [apply dispatched_again|].
    split; [exact Heq|].
    intros Hpos. rewrite Heq, instance_exhausted.
      * rewrite Hw3, Hwire, <- app_assoc. reflexivity.
      * unfold retry_config, retryCount_or_0. simpl. rewrite Hcounter.
        unfold MAX_RETRIES. lia.
  - assert (will_retry error = false) as Hretry.
    { apply not_true_is_false. intros Hr. apply Hcond, Hiff, Hr. }
    rewrite Hretry in Heq. exists w3.
    split; [exact Heq|].
    split; [rewrite Hw3, Hwire; reflexivity|].
    split; [congruence|].
    split; [reflexivity|]. split; [reflexivity|].
    unfold rejected_error, status_of. simpl.
    destruct response as [[s d]|]; reflexivity.
Qed.

End Retry.

Lemma no_retry_without_response : ¬ transient (fst <$> (None : option (Z * Value))).
Proof. intros [|[|]]; discriminate. Qed.

Lemma no_retry_on_client_error (s : Z) (d : Value) :
  400 ≤ s < 500 → ¬ transient (fst <$> Some (s, d)).
Proof. intros Hs [[=]|[[=]|[=]]]; simpl in *; lia. Qed.

(** *** Authentication failure *)

(** C3: when the failure handler runs on a response with status 401, the
    token state is cleared, the persisted token is removed from storage,
    the location is set to ['/login'] (the source sets it under [typeof
    window !== 'undefined'], which holds in a browser), no notification is
    added, and the handler rejects with the error it was given (whose
    request configuration now carries the counter). *)
Theorem unauthorized_logs_out (error : AxiosError.t) (w : World) :
  status_of error = Some 401 →
  let r := on_rejected error w in
  token r.1 = None ∧
  isAuthenticated r.1 = false ∧
  localStorage r.1 = delete "token" (localStorage w) ∧
  localStorage r.1 !! "token" = None ∧
  (is_Some (window_location_href w) → window_location_href r.1 = Some "/login") ∧
  toasts r.1 = toasts w ∧
  r.2 = Normal (Reject (rejected_error error)) ∧
  AxiosError.code (rejected_error error) = AxiosError.code error ∧
  AxiosError.message (rejected_error error) = AxiosError.message error ∧
  AxiosError.response (rejected_error error) = AxiosError.response error.
Proof.
  intros Hstatus r. subst r.
  assert (will_retry error = false) as Hretry
    by (unfold will_retry; rewrite Hstatus; reflexivity).
  assert (logs_out error = true) as Hout
    by (unfold logs_out; rewrite Hretry, Hstatus; reflexivity).
  pose proof (on_rejected_token error w) as Htok.
  rewrite Hout in Htok.
  split; [exact Htok|].
  split; [unfold isAuthenticated; rewrite Htok; reflexivity|].
  split; [rewrite on_rejected_localStorage, Hout; reflexivity|].
  split; [rewrite on_rejected_localStorage, Hout; apply lookup_delete_eq|].
  split; [intros [here Hwin]; rewrite on_rejected_href, Hout, Hwin; reflexivity|].
  split.
  { rewrite on_rejected_toasts. unfold new_toasts.
    rewrite Hretry, Hstatus. simpl. apply app_nil_r. }
  split; [rewrite on_rejected_outcome, Hretry; reflexivity|].
  repeat split.
Qed.

(** *** Generic failures *)

Lemma notification_shown_text (error : AxiosError.t) :
  notification error = VString (shown_text error).
Proof.
  unfold notification, shown_text, or_else.
  unfold truthy_string.
  destruct (detail_of error) as [| |b|n|s|items|props]; simpl;
    [| |destruct b; simpl|destruct (n =? 0) eqn:Hn; simpl; rewrite ?Hn; simpl
     |destruct (String.eqb s "") eqn:Hs; simpl; rewrite ?Hs; simpl| |];
    try reflexivity;
    destruct (String.eqb (AxiosError.message error) ""); reflexivity.
Qed.

(** C5, counterexample: for a 422 whose [detail] is a list, the
    notification shows neither the detail nor the transport message but
    the text ['An unexpected error occurred']. *)
Lemma structured_detail_not_shown :
  ¬ shows_detail_else_message validation_failure fresh.
Proof.
  unfold shows_detail_else_message. intros H.
  specialize (H eq_refl ltac:(discriminate)).
  rewrite on_rejected_toasts in H.
  vm_compute in H. discriminate.
Qed.

(** C5, amended: for a failure that is not retried the handler rejects
    with the error it was given (its request configuration now carrying
    the counter). When in addition the status is not 401, the session is
    left as it is and one error notification is shown, with the text
    [shown_text]: the [detail] field when it is a non-empty string, ['An
    unexpected error occurred'] when [detail] is some other truthy value,
    otherwise the error's message when non-empty, otherwise ['Request
    failed']; except that nothing is shown when the status is 400 and the
    request URL contains ['/predict/']. *)
Theorem generic_failure_handling (error : AxiosError.t) (w : World) :
  will_retry error = false →
  let r := on_rejected error w in
  r.2 = Normal (Reject (rejected_error error)) ∧
  AxiosError.code (rejected_error error) = AxiosError.code error ∧
  AxiosError.message (rejected_error error) = AxiosError.message error ∧
  AxiosError.response (rejected_error error) = AxiosError.response error ∧
  (status_of error ≠ Some 401 →
   token r.1 = token w ∧ localStorage r.1 = localStorage w ∧
   window_location_href r.1 = window_location_href w ∧
   toasts r.1 =
     (toasts w ++
      if bool_decide (status_of error = Some 400) &&
         match url_of error with
         | Some u => includes "/predict/" u
         | None => false
         end
      then []
      else [toast_error (VString (shown_text error))])%list).
Proof.
  intros Hretry r. subst r.
  split; [rewrite on_rejected_outcome, Hretry; reflexivity|].
  do 3 (split; [reflexivity|]).
  intros Hstatus.
  assert (logs_out error = false) as Hout.
  { unfold logs_out. rewrite Hretry. simpl. apply bool_decide_eq_false. exact Hstatus. }
  rewrite on_rejected_token, on_rejected_localStorage, on_rejected_href,
    on_rejected_toasts, Hout.
  do 3 (split; [reflexivity|]).
  unfold new_toasts. rewrite Hretry.
  rewrite (bool_decide_eq_false_2 _ Hstatus).
  fold (handled_in_page error).
  destruct (handled_in_page error); [reflexivity|].
  rewrite notification_shown_text. reflexivity.
Qed.

(** *** The count of pending requests *)

Lemma step_loadingCount (w : World) (ev : Event) :
  loadingCount (step w ev) =
    match ev with
    | Dispatch _ _ => loadingCount w + 1
    | Success _ | Failure _ => dec_sat (loadingCount w)
    end.
Proof.
  destruct ev as [tok cfg|response|error]; unfold step.
  - destruct (on_request_spec tok cfg w) as (w' & cfg' & -> & H & _). exact H.
  - destruct (on_fulfilled_spec response w) as (w' & -> & H & _). exact H.
  - apply on_rejected_loadingCount.
Qed.

Lemma run_nonneg (evs : list Event) :
  ∀ w, 0 ≤ loadingCount w → 0 ≤ loadingCount (run w evs).
Proof.
  induction evs as [|ev evs IH]; intros w Hw; [exact Hw|].
  apply IH. rewrite step_loadingCount. unfold dec_sat. destruct ev; lia.
Qed.

Lemma run_in_flight (evs : list Event) :
  ∀ w m n, loadingCount w = Z.of_nat m → in_flight m evs = Some n →
  loadingCount (run w evs) = Z.of_nat n.
Proof.
  induction evs as [|ev evs IH]; intros w m n Hw Hfl; simpl in *.
  - congruence.
  - destruct ev as [tok cfg|response|error].
    + apply (IH _ (S m)); [|exact Hfl]. rewrite step_loadingCount. lia.
    + destruct m as [|m]; [discriminate|].
      apply (IH _ m); [|exact Hfl]. rewrite step_loadingCount. unfold dec_sat. lia.
    + destruct m as [|m]; [discriminate|].
      apply (IH _ m); [|exact Hfl]. rewrite step_loadingCount. unfold dec_sat. lia.
Qed.

Lemma transport_loadingCount (host : Host) (base : string) (cfg : Config.t)
    (w : World) :
  loadingCount (transport host base cfg w).1 = loadingCount w.
Proof. unfold transport. destruct (http host _ _); reflexivity. Qed.

Lemma instance_fuel_loadingCount (host : Host) (base : string)
    (tok : option string) (fuel : nat) :
  ∀ cfg w r, instance_fuel host fuel base tok cfg w = Some r →
  0 ≤ loadingCount w → loadingCount r.1 = loadingCount w.
Proof.
  induction fuel as [|fuel IH]; intros cfg w r H Hw; [discriminate|].
  cbn [instance_fuel] in H.
  destruct (on_request_spec tok cfg w) as (w1 & cfg1 & Hreq & Hc1 & _).
  rewrite Hreq in H.
  pose proof (transport_loadingCount host base cfg1 w1) as Hc2.
  destruct (transport host base cfg1 w1) as [w2 [response|e]] eqn:Htr;
    simpl in Hc2.
  - destruct (on_fulfilled_spec response w2) as (w3 & Hful & Hc3 & _).
    rewrite Hful in H. injection H as <-. simpl.
    rewrite Hc3, Hc2, Hc1. unfold dec_sat. lia.
  - destruct (transport_error_config _ _ _ _ _ _ Htr) as (err & -> & _).
    pose proof (on_rejected_loadingCount err w2) as Hc3.
    destruct (on_rejected err w2) as [w3 [[cfg2|e]|e]]; simpl in Hc3.
    + rewrite (IH _ _ _ H); rewrite Hc3, Hc2, Hc1; unfold dec_sat; lia.
    + injection H as <-. simpl. rewrite Hc3, Hc2, Hc1. unfold dec_sat. lia.
    + injection H as <-. simpl. rewrite Hc3, Hc2, Hc1. unfold dec_sat. lia.
Qed.

(** C4: starting from a count of zero, along any order in which the
    interceptors of any requests run, [loadingCount] goes up by one at
    each dispatch and down by one, but not below zero, at each success or
    failure. It is never negative; when every response belongs to a
    request in flight it equals the number of requests still in flight,
    so it is zero (and [isLoading] false) once all have resolved; and one
    whole call of the instance, its retry included, leaves it where it
    was. *)
Theorem loadingCount_balanced (evs : list Event) (w : World) :
  loadingCount w = 0 →
  (∀ ev w', loadingCount (step w' ev) =
            match ev with
            | Dispatch _ _ => loadingCount w' + 1
            | Success _ | Failure _ => Z.max 0 (loadingCount w' - 1)
            end) ∧
  (∀ k, 0 ≤ loadingCount (run w (take k evs))) ∧
  (∀ n, in_flight 0 evs = Some n → loadingCount (run w evs) = Z.of_nat n) ∧
  (in_flight 0 evs = Some 0%nat →
   loadingCount (run w evs) = 0 ∧ isLoading (run w evs) = false) ∧
  (∀ host base tok cfg,
     loadingCount (instance host base tok cfg (run w evs)).1
     = loadingCount (run w evs)).
Proof.
  intros Hw.
  split; [intros ev w'; apply step_loadingCount|].
  split; [intros k; apply run_nonneg; lia|].
  split; [intros n; apply run_in_flight; rewrite Hw; reflexivity|].
  split.
  - intros Hfl. pose proof (run_in_flight evs w 0 0 Hw Hfl) as H.
    unfold isLoading. rewrite H. split; reflexivity.
  - intros host base tok cfg.
    apply (instance_fuel_loadingCount host base tok (calls_needed cfg) cfg).
    + apply instance_fuel_enough. lia.
    + apply run_nonneg. lia.
Qed.

(** *** Login and signup *)

Section Login.

Variable host : Host.

(** C8, amended: [login] sends one request: a POST of the form-encoded
    fields [username] and [password] to ['/login'], with no
    authorization header, through an instance without interceptors. When
    the response is a success whose body carries the string [t] under
    [access_token], the token state becomes [t] and [t] is stored under
    ['token']; the session is authenticated exactly when [t] is not
    empty, which is what [!!token] tests. When the transport rejects,
    [login] throws that very error and the token, the storage, the
    notifications and the pending count are as before. *)
Theorem login_stores_token (username password : string) (w : World) :
  let req := {| baseURL := unchecked_baseURL host;
                config := login_request username password |} in
  (Config.url (config req) = Some "/login" ∧
   Config.method (config req) = Some "post" ∧
   Config.data (config req)
     = URLSearchParams [("username", username); ("password", password)] ∧
   Config.headers (config req) !! "Content-Type"
     = Some "application/x-www-form-urlencoded" ∧
   Config.headers (config req) !! "Authorization" = None) ∧
  (∀ status data t,
     http host (wire w) req = Fulfilled status data →
     get data "access_token" = VString t →
     ∃ w',
       login host username password w = (w', Normal ()) ∧
       token w' = Some t ∧
       localStorage w' = <["token" := t]> (localStorage w) ∧
       localStorage w' !! "token" = Some t ∧
       (isAuthenticated w' = true ↔ t ≠ "") ∧
       wire w' = (wire w ++ [req])%list) ∧
  (∀ code message response,
     http host (wire w) req = Rejected code message response →
     ∃ w',
       login host username password w
         = (w', Throw (EAxios (failure (login_request username password)
                                 code message response))) ∧
       token w' = token w ∧ localStorage w' = localStorage w ∧
       toasts w' = toasts w ∧ loadingCount w' = loadingCount w ∧
       window_location_href w' = window_location_href w ∧
       wire w' = (wire w ++ [req])%list).
Proof.
  intros req. split; [|split].
  - repeat split; reflexivity.
  - intros status data t Hhttp Hget.
    assert (nullish data = false) as Hnn
      by (destruct data; try reflexivity; discriminate).
    unfold login, transport. run. fold req. rewrite Hhttp. run.
    rewrite Hnn. run. rewrite Hget. run.
    eexists. split; [reflexivity|]. simpl.
    split; [reflexivity|]. split; [reflexivity|].
    split; [apply lookup_insert_eq|].
    split; [|reflexivity].
    unfold isAuthenticated, truthy_string. simpl.
    destruct (String.eqb_spec t ""); simpl; split; congruence.
  - intros code message response Hhttp.
    unfold login, transport. run. fold req. rewrite Hhttp. run.
    eexists. split; [reflexivity|]. repeat split; reflexivity.
Qed.

(** C9: when the environment supplies a non-empty override, [login] and
    [signup] send their requests to that very value, whatever it is; if
    it does not parse as a URL whose scheme starts with [http], the main
    client is bound to the default instead. *)
Theorem login_signup_skip_validation (c : string) :
  VITE_API_BASE_URL host = Some c →
  truthy_string c = true →
  (∀ username password w,
     ∃ r, wire (login host username password w).1 = (wire w ++ [r])%list ∧
          baseURL r = c) ∧
  (∀ email username password w,
     ∃ r more,
       wire (signup host email username password w).1 = (wire w ++ r :: more)%list ∧
       baseURL r = c ∧ Forall (λ r', baseURL r' = c) more) ∧
  (http_url host c = false →
   ∀ w, ∃ w' api,
     useMemo_api host w = (w', Normal api) ∧
     api_baseURL api = DEFAULT_BASE_URL).
Proof.
  intros Henv Htruthy.
  assert (unchecked_baseURL host = c) as Hbase
    by (unfold unchecked_baseURL; rewrite Henv, Htruthy; reflexivity).
  assert (∀ username password w,
            ∃ r, wire (login host username password w).1 = (wire w ++ [r])%list ∧
                 baseURL r = c) as Hlogin.
  { intros username password w.
    exists {| baseURL := c; config := login_request username password |}.
    split; [|reflexivity].
    unfold login, transport. rewrite Hbase. run.
    destruct (http host _ _) as [status data|code message response]; run;
      [|reflexivity].
    destruct (nullish data); run; [reflexivity|].
    destruct (get data "access_token"); reflexivity. }
  split; [exact Hlogin|]. split.
  - intros email username password w.
    exists {| baseURL := c; config := signup_request email username password |}.
    unfold signup, transport. rewrite Hbase. run.
    destruct (http host _ _) as [status data|code message response]; run.
    + match goal with
      | |- context [login host username password ?w1] =>
          destruct (Hlogin username password w1) as (r' & Hw & Hr');
          destruct (login host username password w1) as [w2 res]
      end.
      simpl in Hw |- *.
      exists [r']. rewrite Hw. rewrite <- app_assoc.
      split; [reflexivity|]. split; [reflexivity|].
      constructor; [exact Hr'|constructor].
    + exists []. repeat split. constructor.
  - intros Hbad w. unfold useMemo_api, bind.
    rewrite resolve_baseURL_spec. unfold override.
    rewrite Henv, Htruthy, Hbad. eexists _, _. split; reflexivity.
Qed.

End Login.

(** C8, counterexample: when the login endpoint answers with a success
    whose [access_token] is the empty string, [login] stores that token
    and ends normally, but the session is not authenticated. *)
Lemma empty_token_not_authenticated :
  ¬ login_authenticates empty_token_backend "alice" "secret123" fresh.
Proof.
  intros H.
  destruct (H 200 _ "" eq_refl eq_refl) as (_ & Hauth & _).
  vm_compute in Hauth. discriminate.
Qed.

(* ===================================================================== *)
(** ** Properties of the upload page                                      *)
(* ===================================================================== *)

(** A CSV preview has no headers exactly when the text has no non-empty
    line: a line that is there always splits into at least one header. *)
Lemma csv_headers_empty (text : string) :
  Upload.headers (Upload.csv_headers_rows text) = [] ↔
  List.filter truthy_string (split_lines text) = [].
Proof.
  unfold Upload.csv_headers_rows.
  destruct (List.filter truthy_string (split_lines text)) as [|first more]; simpl.
  - split; reflexivity.
  - pose proof (split_length "," first) as Hlen.
    split; [|discriminate].
    intros H. rewrite H in Hlen. simpl in Hlen. lia.
Qed.

Section UploadFacts.

Context {Env : Type}.
Variable api_post : string → Body → gmap string string → M Env Response.t.
Variable api_get : string → M Env Response.t.
Variable token : option string.
Variable upload_progress : Env → list Upload.ProgressEvent.
Variable JSON_parse : string → option Value.

Abbreviation W := (Upload.World Env).
Abbreviation doUpload := (Upload.doUpload api_post api_get token upload_progress).
Abbreviation doUploadWithRetry :=
  (Upload.doUploadWithRetry api_post api_get token upload_progress).
Abbreviation onFiles :=
  (Upload.onFiles api_post api_get token upload_progress JSON_parse).

Ltac run_page :=
  cbv beta iota zeta delta
    [bind ret throw try_catch modify gets zoom
     Upload.setUploading Upload.setProgress Upload.setFileName
     Upload.setPreviewRows Upload.setPreviewHeaders Upload.setErrorMsg
     Upload.setLastFile Upload.setSuccess Upload.toast_ Upload.console_
     Upload.sleep Upload.navigate_after Upload.call Upload.with_env
     Upload.file_text];
  simpl.

(** [doUpload] never throws: whatever its body does, the [catch] block
    ends normally. *)
Lemma doUpload_returns (file : File.t) (w : W) :
  ∃ w', doUpload file w = (w', Normal ()).
Proof.
  unfold Upload.doUpload, try_catch.
  match goal with |- context [let '(_, _) := ?body w in _] => destruct (body w) as [w' [[]|e]] end.
  - eauto.
  - run_page. eauto.
Qed.

Lemma quiet_ret {A} (a : A) : quiet (ret a : M W A).
Proof. intros w. split; reflexivity. Qed.

Lemma quiet_throw {A} (e : Exn) : quiet (throw e : M W A).
Proof. intros w. split; reflexivity. Qed.

Lemma quiet_bind {A B} (m : M W A) (k : A → M W B) :
  quiet m → (∀ a, quiet (k a)) → quiet (bind m k).
Proof.
  intros Hm Hk w. unfold bind. specialize (Hm w).
  destruct (m w) as [w1 [a|e]]; simpl in *; [|exact Hm].
  destruct Hm as [H3 H4]. destruct (Hk a w1) as [H1 H2]. split; congruence.
Qed.

Lemma quiet_try_catch {A} (body : M W A) (handler : Exn → M W A) :
  quiet body → (∀ e, quiet (handler e)) → quiet (try_catch body handler).
Proof.
  intros Hm Hk w. unfold try_catch. specialize (Hm w).
  destruct (body w) as [w1 [a|e]]; simpl in *; [exact Hm|].
  destruct Hm as [H3 H4]. destruct (Hk e w1) as [H1 H2]. split; congruence.
Qed.

Lemma quiet_call {A} (m : M Env A) : quiet (Upload.call m).
Proof.
  intros w. unfold Upload.call, zoom.
  destruct (m (Upload.env w)) as [e r]. split; reflexivity.
Qed.

Lemma quiet_for_each {A} (f : A → M W ()) (l : list A) :
  (∀ a, quiet (f a)) → quiet (Upload.for_each f l).
Proof.
  intros Hf. induction l as [|a l IH]; simpl.
  - apply quiet_ret.
  - apply quiet_bind; [apply Hf | intros _; exact IH].
Qed.

Ltac quiet_step :=
  first
    [ apply quiet_ret | apply quiet_throw | apply quiet_call
    | apply quiet_bind; [|intros ?]
    | apply quiet_try_catch; [|intros ?]
    | apply quiet_for_each; intros ?
    | match goal with
      | |- quiet (if ?b then _ else _) => destruct b
      | |- quiet (match ?x with _ => _ end) => destruct x
      end
    | (intros ?; split; reflexivity) ].

Lemma doUpload_quiet (file : File.t) : quiet (doUpload file).
Proof.
  unfold Upload.doUpload, Upload.onUploadProgress.
  repeat quiet_step.
Qed.

(** C10: [doUploadWithRetry] is [doUpload] run once. [doUpload] ends
    normally whatever the two [api] calls do, so the retry loop returns in
    its first round; [doUpload] itself neither assigns [errorMsg] nor
    sleeps, so after [doUploadWithRetry] the error message is what it was
    (it is never set to ['Upload failed. Please try again.']) and no
    back-off sleep has happened. *)
Theorem doUploadWithRetry_runs_doUpload_once (file : File.t) (maxRetries : nat)
    (w : W) :
  doUploadWithRetry file maxRetries w = doUpload file w ∧
  ∃ w',
    doUploadWithRetry file maxRetries w = (w', Normal ()) ∧
    Upload.errorMsg w' = Upload.errorMsg w ∧
    Upload.slept w' = Upload.slept w.
Proof.
  assert (doUploadWithRetry file maxRetries w = doUpload file w) as Heq.
  { unfold Upload.doUploadWithRetry. cbn [Upload.doUploadWithRetry_loop].
    destruct (doUpload_returns file w) as [w' Hret].
    unfold bind at 1. unfold try_catch at 1. unfold bind at 1.
    rewrite Hret. reflexivity. }
  split; [exact Heq|].
  destruct (doUpload_returns file w) as [w' Hret].
  destruct (doUpload_quiet file w) as [Hmsg Hslept].
  rewrite Hret in Hmsg, Hslept.
  exists w'. rewrite Heq. auto.
Qed.

(** *** Files without columns *)

(** All rounds of [detectColumns] on a CSV file whose preview has no
    headers: each sleeps half a second, and the function throws. *)
Lemma detectColumns_loop_no_headers (file : File.t) (text : string)
    (retries : nat) :
  endsWith ".csv" (toLowerCase (File.name file)) = true →
  File.text file = inl text →
  Upload.headers (Upload.csv_headers_rows text) = [] →
  ∀ remaining i (w : W),
    Upload.detectColumns_loop JSON_parse file retries i remaining w =
      (Nat.iter remaining (λ w, (Upload.sleep 500 w).1) w,
       Throw (Error "Could not detect columns after multiple attempts")).
Proof.
  intros Hcsv Htext Hnone.
  induction remaining as [|remaining IH]; intros i w; [reflexivity|].
  cbn [Upload.detectColumns_loop]. rewrite Hcsv.
  unfold Upload.parseCsvHeadersRows, Upload.file_text. rewrite Htext.
  cbv beta iota zeta delta [bind ret try_catch throw]. rewrite Hnone.
  cbn [length Nat.ltb Nat.leb].
  cbv beta iota zeta delta [bind ret try_catch throw Upload.sleep modify].
  rewrite IH. rewrite Nat.iter_succ_r. reflexivity.
Qed.

Lemma validateFileBasics_csv (file : File.t) :
  endsWith ".csv" (toLowerCase (File.name file)) = true →
  File.size file ≤ Upload.MAX_BYTES →
  Upload.validateFileBasics file = None.
Proof.
  intros Hcsv Hsize. unfold Upload.validateFileBasics, Upload.ALLOWED_EXT.
  cbn [existsb]. rewrite Hcsv. cbn [orb negb].
  destruct (Z.ltb_spec Upload.MAX_BYTES (File.size file)); [lia|reflexivity].
Qed.

Lemma validateFileBasics_large_csv (file : File.t) :
  endsWith ".csv" (toLowerCase (File.name file)) = true →
  Upload.MAX_BYTES < File.size file →
  Upload.validateFileBasics file = Some "File too large. Maximum size is 100MB".
Proof.
  intros Hcsv Hsize. unfold Upload.validateFileBasics, Upload.ALLOWED_EXT.
  cbn [existsb]. rewrite Hcsv. cbn [orb negb].
  destruct (Z.ltb_spec Upload.MAX_BYTES (File.size file)); [reflexivity|lia].
Qed.

Lemma onFiles_no_columns (file : File.t) (others : list File.t)
    (text : string) (w : W) :
  endsWith ".csv" (toLowerCase (File.name file)) = true →
  File.size file ≤ Upload.MAX_BYTES →
  File.text file = inl text →
  Upload.headers (Upload.csv_headers_rows text) = [] →
  ∃ w',
    onFiles (Some (file :: others)) w = (w', Normal ()) ∧
    turned_away "Could not detect columns after multiple attempts" w w'.
Proof.
  intros Hcsv Hsize Htext Hnone.
  unfold Upload.onFiles. cbn [mbind option_bind head].
  rewrite (validateFileBasics_csv file Hcsv Hsize).
  unfold Upload.detectColumns.
  cbv beta iota zeta delta [bind try_catch].
  cbv beta iota zeta delta
    [modify Upload.setErrorMsg Upload.setSuccess Upload.setFileName
     Upload.setLastFile].
  rewrite (detectColumns_loop_no_headers file text 3 Hcsv Htext Hnone).
  vm_compute. eexists. split; [reflexivity|]. repeat split.
Qed.

Lemma onFiles_too_large (file : File.t) (others : list File.t) (w : W) :
  endsWith ".csv" (toLowerCase (File.name file)) = true →
  Upload.MAX_BYTES < File.size file →
  ∃ w',
    onFiles (Some (file :: others)) w = (w', Normal ()) ∧
    turned_away "File too large. Maximum size is 100MB" w w'.
Proof.
  intros Hcsv Hsize.
  unfold Upload.onFiles. cbn [mbind option_bind head].
  rewrite (validateFileBasics_large_csv file Hcsv Hsize).
  vm_compute. eexists. split; [reflexivity|]. repeat split.
Qed.

(** C7: a file named [*.csv] whose preview has no headers is rejected by
    [onFiles] on the page: [onFiles] ends normally with an error message
    set and shown as the one notification, [api] is never called (the
    state behind it is untouched, so no request goes out) and [doUpload]
    is not run (no upload starts, no navigation is scheduled). When the
    file passes the size check, which [onFiles] makes before it parses,
    the message reads ['Could not detect columns after multiple
    attempts']. *)
Theorem csv_without_columns_rejected (file : File.t) (others : list File.t)
    (text : string) (w : W) :
  endsWith ".csv" (toLowerCase (File.name file)) = true →
  File.text file = inl text →
  Upload.headers (Upload.csv_headers_rows text) = [] →
  ∃ w',
    onFiles (Some (file :: others)) w = (w', Normal ()) ∧
    Upload.env w' = Upload.env w ∧
    Upload.uploading w' = Upload.uploading w ∧
    Upload.progress w' = Upload.progress w ∧
    Upload.scheduled w' = Upload.scheduled w ∧
    Upload.success w' = false ∧
    Upload.errorMsg w' ≠ "" ∧
    Upload.toasts w' =
      (Upload.toasts w ++ [toast_error (VString (Upload.errorMsg w'))])%list ∧
    (File.size file ≤ Upload.MAX_BYTES →
     Upload.errorMsg w' = "Could not detect columns after multiple attempts" ∧
     includes "Could not detect columns" (Upload.errorMsg w') = true).
Proof.
  intros Hcsv Htext Hnone.
  destruct (Z.le_gt_cases (File.size file) Upload.MAX_BYTES) as [Hsize|Hsize].
  - destruct (onFiles_no_columns file others text w Hcsv Hsize Htext Hnone)
      as (w' & Hrun & Henv & Hup & Hpr & Hsch & Hsucc & Hmsg & Htoasts).
    exists w'. rewrite Hmsg.
    repeat (split; [assumption || discriminate|]).
    intros _. split; reflexivity.
  - destruct (onFiles_too_large file others w Hcsv Hsize)
      as (w' & Hrun & Henv & Hup & Hpr & Hsch & Hsucc & Hmsg & Htoasts).
    exists w'. rewrite Hmsg.
    repeat (split; [assumption || discriminate|]).
    intros Hle. lia.
Qed.

End UploadFacts.

(* ===================================================================== *)
(** ** Concrete runs                                                      *)
(* ===================================================================== *)

Example split_jwt : split "." jwt = ["aaa"; "bbb"; "ccc"].
Proof. reflexivity. Qed.

Example split_trailing_dot : split "." "a." = ["a"; ""].
Proof. reflexivity. Qed.

Example split_lines_mixed :
  split_lines ("a" +:+ CRLF +:+ "b" +:+ LF +:+ LF +:+ "c") = ["a"; "b"; ""; "c"].
Proof. reflexivity. Qed.

Example csv_preview :
  Upload.csv_headers_rows ("x,y" +:+ LF +:+ "1" +:+ LF)
  = {| Upload.headers := ["x"; "y"];
       Upload.rows := [VObject [("x", VString "1"); ("y", VString "")]] |}.
Proof. reflexivity. Qed.

Example json_preview :
  Upload.json_headers_rows
    (VObject [("data", VArray [VObject [("a", VNumber 1); ("b", VNull)]])])
  = {| Upload.headers := ["a"; "b"];
       Upload.rows := [VObject [("a", VNumber 1); ("b", VNull)]] |}.
Proof. reflexivity. Qed.

Example all_cells_empty :
  Upload.validateStructure ["x"; "y"] [VObject [("x", VString " "); ("y", VNull)]]
  = Some "All previewed values are empty; please check the file structure".
Proof. reflexivity. Qed.

Example percent_rounds_half_up :
  Upload.percent 1 3 = 33 ∧ Upload.percent 1 8 = 13 ∧ Upload.percent 2 3 = 67.
Proof. repeat split; vm_compute; reflexivity. Qed.

Example hydrated_jwt :
  token (mount {[ "token" := jwt ]} (Some "/")) = Some jwt.
Proof. rewrite mount_spec. reflexivity. Qed.

Example gateway_down_two_requests :
  let r := instance gateway_down DEFAULT_BASE_URL (Some jwt) list_datasets fresh in
  length (wire r.1) = 2%nat ∧ loadingCount r.1 = 0 ∧
  toasts r.1 = [toast_error (VString "Service Unavailable")] ∧
  ∃ e, r.2 = Throw (EAxios e) ∧ status_of e = Some 503.
Proof. vm_compute. repeat split. eexists. split; reflexivity. Qed.

(** The upload of a good file while the gateway is down: the provider's
    interceptor retries the POST once, [doUpload] reports the failure and
    ends, and [doUploadWithRetry] does not run it again. *)
Example failed_upload_is_not_repeated :
  let api := {| api_baseURL := DEFAULT_BASE_URL; api_token := Some jwt |} in
  let r := page_onFiles gateway_down api (Some [small_csv]) (page_initial fresh) in
  r.2 = Normal () ∧
  Upload.errorMsg r.1 = "" ∧ Upload.slept r.1 = [] ∧
  Upload.uploading r.1 = false ∧ Upload.progress r.1 = 0 ∧
  Upload.toasts r.1 = [toast_error (VString "Service Unavailable")] ∧
  (Config.url ∘ config) <$> wire (Upload.env r.1) = [Some "/upload"; Some "/upload"] ∧
  loadingCount (Upload.env r.1) = 0.
Proof. vm_compute. repeat split. Qed.

Example upload_then_preview :
  let api := {| api_baseURL := DEFAULT_BASE_URL; api_token := Some jwt |} in
  let r := page_onFiles datasets_backend api (Some [small_csv]) (page_initial fresh) in
  r.2 = Normal () ∧
  Upload.success r.1 = true ∧
  Upload.scheduled r.1 = [(700, "/analyze/7")] ∧
  Upload.previewHeaders r.1 = VArray [VString "x"; VString "y"] ∧
  (Config.url ∘ config) <$> wire (Upload.env r.1)
  = [Some "/upload"; Some "/datasets/7/preview"] ∧
  Upload.toasts r.1
  = [toast_success (VString "Upload complete with RAW data preserved!")].
Proof. vm_compute. repeat split. Qed.

Lemma retry_policy_witness :
  http gateway_down (wire fresh)
    {| baseURL := DEFAULT_BASE_URL; config := dispatched (Some jwt) list_datasets |}
  = Rejected (Some "ERR_BAD_RESPONSE") "Request failed with status code 503"
      (Some (503, VObject [("detail", VString "Service Unavailable")])) ∧
  length (wire (instance gateway_down DEFAULT_BASE_URL (Some jwt) list_datasets fresh).1)
  = 2%nat.
Proof.
  split; [reflexivity|].
  destruct (retry_policy gateway_down DEFAULT_BASE_URL (Some jwt) list_datasets fresh
              _ _ _ eq_refl) as [Hretry _].
  destruct Hretry as (w' & cfg' & _ & _ & _ & _ & _ & _ & _ & Hwire).
  - split; [right; left; reflexivity | reflexivity].
  - rewrite Hwire; [reflexivity | discriminate].
Defined.

Lemma unauthorized_logs_out_witness :
  let w := mount {[ "token" := jwt ]} (Some "/dashboard") in
  status_of session_expired = Some 401 ∧
  is_Some (window_location_href w) ∧
  token w = Some jwt ∧
  token (on_rejected session_expired w).1 = None ∧
  window_location_href (on_rejected session_expired w).1 = Some "/login".
Proof.
  split; [reflexivity|]. split; [eexists; reflexivity|]. split; [reflexivity|].
  assert (is_Some (window_location_href
                     (mount {[ "token" := jwt ]} (Some "/dashboard")))) as Hwin
    by (eexists; reflexivity).
  destruct (unauthorized_logs_out session_expired
              (mount {[ "token" := jwt ]} (Some "/dashboard")) eq_refl)
    as (Htoken & _ & _ & _ & Hhref & _).
  split; [exact Htoken | exact (Hhref Hwin)].
Defined.

Lemma loadingCount_balanced_witness :
  loadingCount fresh = 0 ∧
  loadingCount (run fresh [Dispatch None list_datasets; Dispatch None list_datasets;
                           Failure session_expired; Success answered]) = 0.
Proof.
  split; [reflexivity|].
  destruct (loadingCount_balanced
              [Dispatch None list_datasets; Dispatch None list_datasets;
               Failure session_expired; Success answered] fresh eq_refl)
    as (_ & _ & _ & Hzero & _).
  exact (proj1 (Hzero eq_refl)).
Defined.

Lemma generic_failure_handling_witness :
  will_retry validation_failure = false ∧
  toasts (on_rejected validation_failure fresh).1
  = [toast_error (VString "An unexpected error occurred")].
Proof.
  split; [reflexivity|].
  destruct (generic_failure_handling validation_failure fresh eq_refl)
    as (_ & _ & _ & _ & H).
  destruct H as (_ & _ & _ & Htoasts); [discriminate|].
  exact Htoasts.
Defined.

Lemma login_stores_token_witness :
  ∃ w', login backend "alice" "secret123" fresh = (w', Normal ()) ∧
        isAuthenticated w' = true ∧
        localStorage w' !! "token" = Some "aaa.bbb.ccc".
Proof.
  destruct (login_stores_token backend "alice" "secret123" fresh) as (_ & Hok & _).
  destruct (Hok 200 _ jwt eq_refl eq_refl) as (w' & Hrun & _ & _ & Hstored & Hauth & _).
  exists w'. split; [exact Hrun|]. split; [apply Hauth; discriminate | exact Hstored].
Defined.

Lemma login_signup_skip_validation_witness :
  VITE_API_BASE_URL misconfigured = Some "ftp://files.example/api" ∧
  truthy_string "ftp://files.example/api" = true ∧
  http_url misconfigured "ftp://files.example/api" = false ∧
  (∃ r, wire (login misconfigured "alice" "secret123" fresh).1 = [r] ∧
        baseURL r = "ftp://files.example/api") ∧
  (∃ w' api, useMemo_api misconfigured fresh = (w', Normal api) ∧
             api_baseURL api = "http://127.0.0.1:8000/api").
Proof.
  split; [reflexivity|]. split; [reflexivity|]. split; [reflexivity|].
  destruct (login_signup_skip_validation misconfigured "ftp://files.example/api"
              eq_refl eq_refl) as (Hlogin & _ & Hmain).
  split; [exact (Hlogin "alice" "secret123" fresh) | exact (Hmain eq_refl fresh)].
Defined.

Lemma csv_without_columns_rejected_witness :
  let api := {| api_baseURL := DEFAULT_BASE_URL; api_token := Some jwt |} in
  endsWith ".csv" (toLowerCase (File.name blank_csv)) = true ∧
  File.size blank_csv ≤ Upload.MAX_BYTES ∧
  Upload.headers (Upload.csv_headers_rows (LF +:+ LF)) = [] ∧
  ∃ w', page_onFiles backend api (Some [blank_csv]) (page_initial fresh) = (w', Normal ()) ∧
        Upload.errorMsg w' = "Could not detect columns after multiple attempts" ∧
        wire (Upload.env w') = [].
Proof.
  intros api.
  split; [reflexivity|]. split; [vm_compute; discriminate|]. split; [reflexivity|].
  destruct (csv_without_columns_rejected (api_post backend api) (api_get backend api)
              (api_token api) (λ _, []) (λ _, None) blank_csv [] _
              (page_initial fresh) eq_refl eq_refl eq_refl)
    as (w' & Hrun & Henv & _ & _ & _ & _ & _ & _ & Hmsg).
  exists w'. split; [exact Hrun|].
  split; [apply Hmsg; vm_compute; discriminate|].
  rewrite Henv. reflexivity.
Defined.

(* ===================================================================== *)
(** ** Further properties of the session                                  *)
(* ===================================================================== *)

(** *** Hydration and persistence *)

Lemma split_count (sep : ascii) (s : string) :
  length (split sep s) = S (count_char sep s).
Proof.
  induction s as [|c s IH]; [reflexivity|].
  simpl. destruct (Ascii.eqb c sep); simpl; [rewrite IH; reflexivity|].
  destruct (split sep s) as [|piece pieces]; simpl in *; [discriminate|].
  exact IH.
Qed.

Lemma hydrated_dots (storage : gmap string string) :
  hydrated storage =
    match storage !! "token" with
    | Some s => if (count_char "." s =? 2)%nat then Some s else None
    | None => None
    end.
Proof.
  unfold hydrated. destruct (storage !! "token") as [s|]; [|reflexivity].
  rewrite split_count.
  destruct s as [|c s]; [reflexivity|].
  reflexivity.
Qed.

(** X1: the session starts with a token exactly when the storage holds,
    under ['token'], a string with exactly two dots, and that string is
    then the token; the segments between the dots may be empty. In every
    other case the session starts unauthenticated. *)
Theorem mount_hydrates_two_dots (storage : gmap string string)
    (href : option string) (s : string) :
  (token (mount storage href) = Some s ↔
   storage !! "token" = Some s ∧ count_char "." s = 2%nat) ∧
  (isAuthenticated (mount storage href) = true ↔
   ∃ t, storage !! "token" = Some t ∧ count_char "." t = 2%nat) ∧
  token (mount {[ "token" := ".." ]} href) = Some "..".
Proof.
  rewrite mount_spec. unfold isAuthenticated. simpl. rewrite hydrated_dots.
  split; [|split; [|reflexivity]].
  - destruct (storage !! "token") as [t|]; [|split; [discriminate|intros [[=] _]]].
    destruct (Nat.eqb_spec (count_char "." t) 2) as [Hc|Hc].
    + split; [intros [= <-]; auto | intros [[= <-] _]; reflexivity].
    + split; [discriminate | intros [[= <-] Hc']; contradiction].
  - destruct (storage !! "token") as [t|]; [|split; [discriminate|intros (t & [=] & _)]].
    destruct (Nat.eqb_spec (count_char "." t) 2) as [Hc|Hc].
    + split; [eauto|]. intros _. unfold truthy_string.
      destruct t; [discriminate Hc | reflexivity].
    + split; [discriminate | intros (t' & [= <-] & Hc'); contradiction].
Qed.

Section SessionExtras.

Variable host : Host.

(** X2: a token obtained by [login] survives a reload of the page only
    if it has exactly two dots: [login] stores whatever string the
    backend sends, and the next mount over that storage hydrates it under
    the three-segment test. *)
Theorem login_then_reload (username password : string) (w : World)
    (status : Z) (data : Value) (t : string) (href : option string) :
  http host (wire w)
    {| baseURL := unchecked_baseURL host;
       config := login_request username password |} = Fulfilled status data →
  get data "access_token" = VString t →
  let w' := (login host username password w).1 in
  token w' = Some t ∧
  token (mount (localStorage w') href)
  = if (count_char "." t =? 2)%nat then Some t else None.
Proof.
  intros Hhttp Hget w'. subst w'.
  assert (nullish data = false) as Hnn
    by (destruct data; try reflexivity; discriminate).
  unfold login, transport. run. rewrite Hhttp. run.
  rewrite Hnn. run. rewrite Hget. run.
  split; [reflexivity|].
  rewrite mount_spec. simpl. rewrite hydrated_dots.
  rewrite lookup_insert_eq. reflexivity.
Qed.

(** X3: [logout] ends the session on the client only: the token state is
    cleared and the stored token removed, every other storage entry is
    kept, nothing is sent, nothing is shown, the pending count and the
    location are untouched; a reload afterwards starts unauthenticated,
    and logging out twice is the same as once. *)
Theorem logout_is_local (w : World) :
  ∃ w',
    logout w = (w', Normal ()) ∧
    token w' = None ∧ isAuthenticated w' = false ∧
    localStorage w' = delete "token" (localStorage w) ∧
    (∀ k, k ≠ "token" → localStorage w' !! k = localStorage w !! k) ∧
    wire w' = wire w ∧ toasts w' = toasts w ∧ console w' = console w ∧
    loadingCount w' = loadingCount w ∧
    window_location_href w' = window_location_href w ∧
    (∀ href, token (mount (localStorage w') href) = None) ∧
    logout w' = (w', Normal ()).
Proof.
  unfold logout. run. eexists. split; [reflexivity|]. simpl.
  repeat split.
  - intros k Hk. apply lookup_delete_ne. congruence.
  - intros href. rewrite mount_spec. simpl. unfold hydrated.
    rewrite lookup_delete_eq. reflexivity.
  - rewrite delete_delete_eq. reflexivity.
Qed.

(** X4: [signup] posts the three fields as a JSON body to ['/signup']
    without an authorization header. If the transport rejects, that error
    is thrown, no login is attempted and the session is as before. If it
    fulfils, whatever the response holds, [signup] goes on exactly as
    [login] with the same username and password would. *)
Theorem signup_then_login (email username password : string) (w : World) :
  let req := {| baseURL := unchecked_baseURL host;
                config := signup_request email username password |} in
  (Config.url (config req) = Some "/signup" ∧
   Config.data (config req)
     = JsonBody (VObject [("email", VString email);
                          ("username", VString username);
                          ("password", VString password)]) ∧
   Config.headers (config req) !! "Authorization" = None) ∧
  (∀ code message response,
     http host (wire w) req = Rejected code message response →
     ∃ w',
       signup host email username password w
         = (w', Throw (EAxios (failure (signup_request email username password)
                                 code message response))) ∧
       wire w' = (wire w ++ [req])%list ∧
       token w' = token w ∧ localStorage w' = localStorage w ∧
       toasts w' = toasts w) ∧
  (∀ status data,
     http host (wire w) req = Fulfilled status data →
     ∃ w1,
       signup host email username password w = login host username password w1 ∧
       wire w1 = (wire w ++ [req])%list ∧
       token w1 = token w ∧ localStorage w1 = localStorage w ∧
       toasts w1 = toasts w ∧ loadingCount w1 = loadingCount w).
Proof.
  intros req. split; [repeat split|split].
  - intros code message response Hhttp.
    unfold signup, transport. run. fold req. rewrite Hhttp. run.
    eexists. split; [reflexivity|]. repeat split.
  - intros status data Hhttp.
    unfold signup, transport. run. fold req. rewrite Hhttp. run.
    eexists. split; [reflexivity|]. repeat split.
Qed.

(** X5: when the login endpoint answers with a success whose body has no
    string under [access_token] (the key is missing, or holds something
    that is not a string, or there is no body), [login] throws a
    [TypeError] after the request went out, and the session and the
    storage are what they were. *)
Theorem login_without_token (username password : string) (w : World)
    (status : Z) (data : Value) :
  http host (wire w)
    {| baseURL := unchecked_baseURL host;
       config := login_request username password |} = Fulfilled status data →
  (∀ t, get data "access_token" ≠ VString t) →
  ∃ w' message,
    login host username password w = (w', Throw (TypeError message)) ∧
    token w' = token w ∧ localStorage w' = localStorage w ∧
    isAuthenticated w' = isAuthenticated w ∧
    wire w' = (wire w ++ [{| baseURL := unchecked_baseURL host;
                             config := login_request username password |}])%list.
Proof.
  intros Hhttp Hget.
  unfold login, transport. run. rewrite Hhttp. run.
  destruct (nullish data) eqn:Hnn; run.
  - eexists _, _. split; [reflexivity|]. repeat split.
  - destruct (get data "access_token") as [| |b|n|s|items|props] eqn:Hat;
      try (eexists _, _; split; [reflexivity|]; repeat split).
    exfalso. exact (Hget s eq_refl).
Qed.

End SessionExtras.

(** *** What an instance call sends *)

Section InstanceExtras.

Variable host : Host.
Variable base : string.
Variable tok : option string.

Lemma dispatched_set_retryCount (cfg : Config.t) (n : Z) :
  Config.payload (dispatched tok (Config.set_retryCount n cfg))
  = Config.payload (dispatched tok cfg).
Proof. unfold dispatched. repeat case_match; reflexivity. Qed.

Lemma dispatched_idem (cfg : Config.t) :
  dispatched tok (dispatched tok cfg) = dispatched tok cfg.
Proof.
  unfold dispatched. repeat case_match; try reflexivity.
  unfold Config.set_header. simpl. rewrite insert_insert_eq. reflexivity.
Qed.

Lemma instance_fuel_requests (fuel : nat) :
  ∀ cfg w r, instance_fuel host fuel base tok cfg w = Some r →
  ∃ more,
    wire r.1 = (wire w ++ more)%list ∧
    (1 ≤ length more ≤ fuel)%nat ∧
    (0 ≤ retryCount_or_0 cfg → (length more ≤ 2)%nat) ∧
    Forall (λ q, baseURL q = base ∧
                 Config.payload (config q) = Config.payload (dispatched tok cfg))
           more.
Proof.
  induction fuel as [|fuel IH]; intros cfg w r H; [discriminate|].
  cbn [instance_fuel] in H.
  destruct (on_request_spec tok cfg w)
    as (w1 & cfg1 & Hreq & _ & Hw1 & _ & _ & _ & _ & Hcfg1).
  fold (dispatched tok cfg) in Hcfg1. subst cfg1. rewrite Hreq in H.
  set (req := {| baseURL := base; config := dispatched tok cfg |}).
  assert (wire (transport host base (dispatched tok cfg) w1).1
          = (wire w ++ [req])%list) as Hw2.
  { unfold transport. destruct (http host _ _); simpl; rewrite Hw1; reflexivity. }
  destruct (transport host base (dispatched tok cfg) w1) as [w2 [response|e]] eqn:Htr;
    simpl in Hw2.
  - destruct (on_fulfilled_spec response w2) as (w3 & Hful & _ & Hw3 & _).
    rewrite Hful in H. injection H as <-. simpl.
    exists [req]. rewrite Hw3, Hw2. simpl.
    split; [reflexivity|]. split; [lia|]. split; [lia|].
    constructor; [split; reflexivity | constructor].
  - destruct (transport_error_config _ _ _ _ _ _ Htr) as (err & -> & Hcfg).
    pose proof (on_rejected_outcome err w2) as Hout.
    pose proof (on_rejected_wire err w2) as Hw3.
    destruct (on_rejected err w2) as [w3 res]. simpl in Hout, Hw3. subst res.
    destruct (will_retry err) eqn:Hretry.
    + destruct (IH _ _ _ H) as (more & Hmore & Hlen & Htwo & Hall).
      exists (req :: more).
      split; [rewrite Hmore, Hw3, Hw2, <- app_assoc; reflexivity|].
      split; [simpl; lia|].
      assert (counter err = retryCount_or_0 cfg) as Hcounter.
      { unfold counter. rewrite Hcfg. simpl. unfold retryCount_or_0.
        rewrite dispatched_retryCount. reflexivity. }
      split.
      * intros Hpos. simpl.
        assert (length more ≤ 1)%nat; [|lia].
        unfold will_retry in Hretry. apply andb_true_iff in Hretry as [_ Hlt].
        apply Z.ltb_lt in Hlt. unfold MAX_RETRIES in Hlt.
        assert (MAX_RETRIES ≤ retryCount_or_0 (retry_config err)) as Hfull.
        { unfold retry_config, retryCount_or_0, MAX_RETRIES. simpl. lia. }
        pose proof (instance_exhausted host base tok (retry_config err) w3 Hfull) as Hex.
        assert (instance host base tok (retry_config err) w3 = r) as Hinst.
        { assert (Some (instance host base tok (retry_config err) w3) = Some r) as Hs;
            [|congruence].
          rewrite <- H. symmetry.
          eapply instance_fuel_mono;
            [apply (instance_fuel_enough host base tok (calls_needed (retry_config err)));
             lia|].
          destruct fuel as [|fuel']; [discriminate H|].
          unfold calls_needed, retryCount_or_0, retry_config, MAX_RETRIES. simpl. lia. }
        rewrite Hinst, Hmore in Hex. apply app_inv_head in Hex.
        rewrite Hex. simpl. lia.
      * constructor; [split; reflexivity|].
        eapply Forall_impl; [exact Hall|]. intros q [Hb Hp]. split; [exact Hb|].
        rewrite Hp. unfold retry_config. rewrite Hcfg. simpl.
        rewrite dispatched_set_retryCount, dispatched_idem. reflexivity.
    + injection H as <-. simpl.
      exists [req]. rewrite Hw3, Hw2. simpl.
      split; [reflexivity|]. split; [lia|]. split; [lia|].
      constructor; [split; reflexivity | constructor].
Qed.

Lemma instance_requests (cfg : Config.t) (w : World) :
  ∃ more,
    wire (instance host base tok cfg w).1 = (wire w ++ more)%list ∧
    (1 ≤ length more ≤ calls_needed cfg)%nat ∧
    (0 ≤ retryCount_or_0 cfg → (length more ≤ 2)%nat) ∧
    Forall (λ q, baseURL q = base ∧
                 Config.payload (config q) = Config.payload (dispatched tok cfg))
           more.
Proof.
  apply (instance_fuel_requests (calls_needed cfg) cfg w).
  apply instance_fuel_enough. lia.
Qed.

(** X6: whatever the backend answers, one call of the instance sends at
    least one request and at most two when the request's counter is not
    negative (as for every request a page makes), and never more than one
    plus the number of steps the counter is below the maximum. Every one
    of them goes to the instance's base URL and carries the same URL,
    method, headers and body, the retry differing only in the counter. *)
Theorem instance_sends_same_request (cfg : Config.t) (w : World) :
  ∃ more,
    wire (instance host base tok cfg w).1 = (wire w ++ more)%list ∧
    (1 ≤ length more ≤ calls_needed cfg)%nat ∧
    (0 ≤ retryCount_or_0 cfg → (length more ≤ 2)%nat) ∧
    Forall (λ q, baseURL q = base ∧
                 Config.url (config q) = Config.url cfg ∧
                 Config.method (config q) = Config.method cfg ∧
                 Config.data (config q) = Config.data cfg ∧
                 Config.headers (config q) = Config.headers (dispatched tok cfg))
           more.
Proof.
  destruct (instance_requests cfg w) as (more & Hwire & Hlen & Htwo & Hall).
  exists more. repeat (split; [assumption|]).
  eapply Forall_impl; [exact Hall|]. intros q [Hb Hp]. split; [exact Hb|].
  assert (Config.url (dispatched tok cfg) = Config.url cfg ∧
          Config.method (dispatched tok cfg) = Config.method cfg ∧
          Config.data (dispatched tok cfg) = Config.data cfg) as (Hu & Hm & Hd)
    by (unfold dispatched; repeat case_match; repeat split).
  rewrite <- Hu, <- Hm, <- Hd.
  unfold Config.payload in Hp. injection Hp as -> -> -> ->. repeat split.
Qed.

(** X7: the request interceptor leaves the URL, the method, the body and
    the counter alone and touches one header: with a non-empty token in
    its closure the [Authorization] header becomes the bearer credential,
    replacing any the caller supplied; with no token, or an empty one,
    the headers pass as the caller gave them. *)
Theorem on_request_sets_bearer (cfg : Config.t) (w : World) :
  ∃ w' cfg',
    on_request tok cfg w = (w', Normal cfg') ∧
    Config.url cfg' = Config.url cfg ∧ Config.method cfg' = Config.method cfg ∧
    Config.data cfg' = Config.data cfg ∧
    Config.__retryCount cfg' = Config.__retryCount cfg ∧
    (∀ k, k ≠ "Authorization" → Config.headers cfg' !! k = Config.headers cfg !! k) ∧
    Config.headers cfg' !! "Authorization"
    = match tok with
      | Some t => if String.eqb t "" then Config.headers cfg !! "Authorization"
                  else Some ("Bearer " +:+ t)
      | None => Config.headers cfg !! "Authorization"
      end ∧
    token w' = token w ∧ localStorage w' = localStorage w ∧ wire w' = wire w.
Proof.
  destruct (on_request_spec tok cfg w)
    as (w' & cfg' & Hreq & _ & Hwire & Htok & Hst & _ & _ & ->).
  exists w', (match tok with
              | Some t => if truthy_string t
                          then Config.set_header "Authorization" ("Bearer " +:+ t) cfg
                          else cfg
              | None => cfg
              end).
  split; [exact Hreq|].
  unfold truthy_string.
  destruct tok as [t|]; [destruct (String.eqb t "")|]; simpl;
    repeat split; auto.
  - intros k Hk. apply lookup_insert_ne. congruence.
  - apply lookup_insert_eq.
Qed.

(** X8: when the transport fulfils the request, the instance returns that
    response (status and body as received, with the configuration that
    was sent), after exactly one request; no notification is shown, the
    session, the storage and the location are untouched, and the pending
    count, if it was not negative, is what it was. *)
Theorem instance_success (cfg : Config.t) (w : World) (status : Z) (data : Value) :
  http host (wire w) {| baseURL := base; config := dispatched tok cfg |}
    = Fulfilled status data →
  ∃ w',
    instance host base tok cfg w
      = (w', Normal (Response.mk status data (dispatched tok cfg))) ∧
    wire w' = (wire w ++ [{| baseURL := base; config := dispatched tok cfg |}])%list ∧
    toasts w' = toasts w ∧ token w' = token w ∧
    localStorage w' = localStorage w ∧
    window_location_href w' = window_location_href w ∧
    (0 ≤ loadingCount w → loadingCount w' = loadingCount w).
Proof.
  intros Hhttp. rewrite instance_unfold.
  destruct (on_request_spec tok cfg w)
    as (w1 & cfg1 & -> & Hc & Hw & Ht & Hs & Hto & Hh & ->).
  fold (dispatched tok cfg). unfold transport. rewrite Hw, Hhttp.
  destruct (on_fulfilled_spec (Response.mk status data (dispatched tok cfg))
              (send {| baseURL := base; config := dispatched tok cfg |} w1).1)
    as (w' & -> & Hc' & Hw' & Ht' & Hs' & Hto' & Hh').
  exists w'. split; [reflexivity|]. simpl in *.
  rewrite Hw', Hto', Ht', Hs', Hh', Hc'.
  repeat split; try congruence.
  intros Hpos. rewrite Hc. unfold dec_sat. lia.
Qed.

End InstanceExtras.

(** *** The client and the routes follow the session *)

Lemma useMemo_api_spec (host : Host) (w : World) :
  ∃ lines b,
    useMemo_api host w
    = (with_console lines w, Normal {| api_baseURL := b; api_token := token w |}).
Proof.
  unfold useMemo_api, bind. rewrite resolve_baseURL_spec.
  destruct (override host) as [c|]; [destruct (http_url host c)|];
    eexists _, _; reflexivity.
Qed.

(** X9: once the failure handler has run on a 401, the client the
    provider builds next closes over no token: the requests made through
    it go out with exactly the headers the caller gave, no bearer
    credential added. The client built before, which a page may still
    hold, keeps attaching the old token. *)
Theorem api_after_unauthorized (host : Host) (error : AxiosError.t) (w : World)
    (t : string) :
  status_of error = Some 401 →
  t ≠ "" →
  ∃ w' api,
    useMemo_api host (on_rejected error w).1 = (w', Normal api) ∧
    api_token api = None ∧ token w' = None ∧
    (∀ cfg w0, ∃ more,
       wire (api_request host api cfg w0).1 = (wire w0 ++ more)%list ∧
       Forall (λ q, Config.headers (config q) = Config.headers cfg) more) ∧
    (∀ cfg w0, ∃ more,
       wire (api_request host {| api_baseURL := api_baseURL api;
                                 api_token := Some t |} cfg w0).1
       = (wire w0 ++ more)%list ∧
       Forall (λ q, Config.headers (config q) !! "Authorization"
                    = Some ("Bearer " +:+ t)) more).
Proof.
  intros Hstatus Ht.
  assert (will_retry error = false) as Hretry
    by (unfold will_retry; rewrite Hstatus; reflexivity).
  assert (token (on_rejected error w).1 = None) as Htok.
  { rewrite on_rejected_token. unfold logs_out. rewrite Hretry, Hstatus. reflexivity. }
  destruct (useMemo_api_spec host (on_rejected error w).1) as (lines & b & Hmemo).
  rewrite Htok in Hmemo.
  eexists _, _. split; [exact Hmemo|]. simpl.
  split; [reflexivity|]. split; [exact Htok|]. split.
  - intros cfg w0. unfold api_request. simpl.
    destruct (instance_requests host b None cfg w0)
      as (more & Hwire & _ & _ & Hall).
    exists more. split; [exact Hwire|].
    eapply Forall_impl; [exact Hall|]. intros q [_ Hp].
    unfold Config.payload in Hp. injection Hp as _ _ Hh _. exact Hh.
  - intros cfg w0. unfold api_request. simpl.
    destruct (instance_requests host b (Some t) cfg w0)
      as (more & Hwire & _ & _ & Hall).
    exists more. split; [exact Hwire|].
    eapply Forall_impl; [exact Hall|]. intros q [_ Hp].
    unfold Config.payload in Hp. injection Hp as _ _ Hh _.
    rewrite Hh. unfold dispatched, truthy_string.
    destruct (String.eqb_spec t ""); [contradiction|]. simpl.
    apply lookup_insert_eq.
Qed.

Lemma render_spec (isLoading : bool) (w : World) :
  (ProtectedRoute.render isLoading w).2
  = Normal (if isLoading then ProtectedRoute.Spinner
            else if isAuthenticated w then ProtectedRoute.Page
                 else ProtectedRoute.Navigate "/login") ∧
  token (ProtectedRoute.render isLoading w).1 = token w ∧
  localStorage (ProtectedRoute.render isLoading w).1 = localStorage w ∧
  wire (ProtectedRoute.render isLoading w).1 = wire w.
Proof.
  unfold ProtectedRoute.render. run.
  destruct isLoading; [repeat split|].
  destruct (isAuthenticated w); repeat split.
Qed.

(** X10: a protected route shows the spinner until its timer has fired,
    whatever the session. From then on, over a freshly mounted provider
    it shows the page exactly when the stored token has two dots and
    redirects to ['/login'] otherwise; it redirects after [logout] and
    after the failure handler has run on a 401. Rendering sends nothing
    and changes neither the token nor the storage. *)
Theorem protected_route_follows_session (storage : gmap string string)
    (href : option string) (w : World) (error : AxiosError.t) :
  let loaded := ProtectedRoute.on_timer ProtectedRoute.isLoading_initial in
  (ProtectedRoute.render ProtectedRoute.isLoading_initial w).2
    = Normal ProtectedRoute.Spinner ∧
  (ProtectedRoute.render loaded (mount storage href)).2
    = Normal (match storage !! "token" with
              | Some s => if (count_char "." s =? 2)%nat then ProtectedRoute.Page
                          else ProtectedRoute.Navigate "/login"
              | None => ProtectedRoute.Navigate "/login"
              end) ∧
  (ProtectedRoute.render loaded (logout w).1).2
    = Normal (ProtectedRoute.Navigate "/login") ∧
  (status_of error = Some 401 →
   (ProtectedRoute.render loaded (on_rejected error w).1).2
   = Normal (ProtectedRoute.Navigate "/login")) ∧
  (∀ isLoading,
     token (ProtectedRoute.render isLoading w).1 = token w ∧
     localStorage (ProtectedRoute.render isLoading w).1 = localStorage w ∧
     wire (ProtectedRoute.render isLoading w).1 = wire w).
Proof.
  intros loaded. subst loaded. unfold ProtectedRoute.on_timer.
  split; [apply render_spec|].
  split.
  { destruct (render_spec false (mount storage href)) as [-> _].
    unfold isAuthenticated. rewrite mount_spec. simpl. rewrite hydrated_dots.
    destruct (storage !! "token") as [s|]; [|reflexivity].
    destruct (Nat.eqb_spec (count_char "." s) 2) as [Hc|Hc]; [|reflexivity].
    unfold truthy_string. destruct s; [discriminate Hc | reflexivity]. }
  split.
  { destruct (render_spec false (logout w).1) as [-> _].
    unfold logout. run. reflexivity. }
  split.
  { intros Hstatus.
    destruct (render_spec false (on_rejected error w).1) as [-> _].
    unfold isAuthenticated. rewrite on_rejected_token.
    unfold logs_out, will_retry. rewrite Hstatus. reflexivity. }
  intros isLoading. apply render_spec.
Qed.

(* ===================================================================== *)
(** ** Further properties of the upload page                              *)
(* ===================================================================== *)

Ltac norm_page :=
  cbv beta iota zeta delta
    [bind ret throw try_catch modify gets zoom fst snd
     Upload.setUploading Upload.setProgress Upload.setFileName
     Upload.setPreviewRows Upload.setPreviewHeaders Upload.setErrorMsg
     Upload.setLastFile Upload.setSuccess Upload.toast_ Upload.console_
     Upload.sleep Upload.navigate_after Upload.call Upload.with_env
     Upload.uploading Upload.progress Upload.fileName Upload.previewRows
     Upload.previewHeaders Upload.errorMsg Upload.lastFile Upload.success
     Upload.toasts Upload.console Upload.slept Upload.scheduled Upload.env
     begin_file turn_away show_detected].

Section UploadExtras.

Context {Env : Type}.
Variable api_post : string → Body → gmap string string → M Env Response.t.
Variable api_get : string → M Env Response.t.
Variable token : option string.
Variable upload_progress : Env → list Upload.ProgressEvent.
Variable JSON_parse : string → option Value.

Abbreviation W := (Upload.World Env).
Abbreviation doUpload := (Upload.doUpload api_post api_get token upload_progress).
Abbreviation doUploadWithRetry :=
  (Upload.doUploadWithRetry api_post api_get token upload_progress).
Abbreviation onFiles :=
  (Upload.onFiles api_post api_get token upload_progress JSON_parse).
Abbreviation detectColumns := (Upload.detectColumns JSON_parse).

(** [onFiles] on a chosen file, branch by branch. *)
Lemma onFiles_cases (file : File.t) (others : list File.t) (w : W) :
  onFiles (Some (file :: others)) w =
    match Upload.validateFileBasics file with
    | Some basicError => (turn_away basicError (begin_file file w), Normal ())
    | None =>
        match detectColumns file 3 (begin_file file w) with
        | (w1, Throw e) => (turn_away (detection_message e) w1, Normal ())
        | (w1, Normal d) =>
            match Upload.validateStructure (Upload.headers d) (Upload.rows d) with
            | Some structError =>
                (turn_away structError (show_detected d w1), Normal ())
            | None => doUploadWithRetry file 2 (show_detected d w1)
            end
        end
    end.
Proof.
  unfold Upload.onFiles. cbn [mbind option_bind head].
  destruct (Upload.validateFileBasics file) as [basicError|].
  - destruct w. norm_page. reflexivity.
  - destruct w. norm_page.
    match goal with
    | |- context [Upload.detectColumns JSON_parse file 3 ?w0] =>
        destruct (Upload.detectColumns JSON_parse file 3 w0) as [w1 [d|e]]
    end.
    + destruct (Upload.validateStructure (Upload.headers d) (Upload.rows d));
        [destruct w1|]; reflexivity.
    + destruct w1. reflexivity.
Qed.

(** *** Column detection *)

Lemma parse_round_pure (file : File.t) (w : W) :
  ∃ r, parse_round JSON_parse file w = (w, r) ∧
       ∀ w' : W, parse_round JSON_parse file w' = (w', r).
Proof.
  unfold parse_round, Upload.parseCsvHeadersRows, Upload.parseJsonHeadersRows,
    Upload.file_text, bind, ret, throw.
  destruct (endsWith ".csv" _); [|destruct (endsWith ".json" _)].
  - destruct (File.text file); eauto.
  - destruct (File.text file) as [text|m]; [destruct (JSON_parse text)|]; eauto.
  - eauto.
Qed.

Lemma after_waits_fields (k : nat) (w : W) :
  Upload.env (after_waits k w) = Upload.env w ∧
  Upload.uploading (after_waits k w) = Upload.uploading w ∧
  Upload.progress (after_waits k w) = Upload.progress w ∧
  Upload.fileName (after_waits k w) = Upload.fileName w ∧
  Upload.previewRows (after_waits k w) = Upload.previewRows w ∧
  Upload.previewHeaders (after_waits k w) = Upload.previewHeaders w ∧
  Upload.errorMsg (after_waits k w) = Upload.errorMsg w ∧
  Upload.lastFile (after_waits k w) = Upload.lastFile w ∧
  Upload.success (after_waits k w) = Upload.success w ∧
  Upload.toasts (after_waits k w) = Upload.toasts w ∧
  Upload.scheduled (after_waits k w) = Upload.scheduled w ∧
  Upload.slept (after_waits k w) = (Upload.slept w ++ replicate k 500)%list.
Proof.
  unfold after_waits. induction k as [|k IH].
  - simpl. rewrite app_nil_r. repeat split.
  - rewrite Nat.iter_succ.
    set (w' := Nat.iter k (λ w0 : W, (Upload.sleep 500 w0).1) w) in *.
    destruct IH as (?&?&?&?&?&?&?&?&?&?&?&Hs).
    cbn [Upload.sleep modify fst Upload.env Upload.uploading Upload.progress
         Upload.fileName Upload.previewRows Upload.previewHeaders Upload.errorMsg
         Upload.lastFile Upload.success Upload.toasts Upload.scheduled Upload.slept].
    repeat (split; [assumption|]).
    rewrite Hs, <- app_assoc. f_equal.
    change (replicate (S k) 500) with ([500] ++ replicate k 500)%list.
    clear. induction k as [|k IH]; [reflexivity|].
    simpl in *. rewrite IH. reflexivity.
Qed.

(** One round of the loop, by what the parser did. *)
Lemma detectColumns_loop_round (file : File.t) (retries i remaining : nat) (w : W) :
  Upload.detectColumns_loop JSON_parse file retries i (S remaining) w =
    match parse_round JSON_parse file w with
    | (_, Normal d) =>
        if (0 <? length (Upload.headers d))%nat then (w, Normal d)
        else Upload.detectColumns_loop JSON_parse file retries (S i) remaining
               (after_waits 1 w)
    | (_, Throw e) =>
        if (i =? retries - 1)%nat then (w, Throw e)
        else Upload.detectColumns_loop JSON_parse file retries (S i) remaining w
    end.
Proof.
  destruct (parse_round_pure file w) as (r & Hr & _).
  cbn [Upload.detectColumns_loop]. fold (@parse_round Env JSON_parse file).
  unfold bind at 1. unfold try_catch at 1. unfold bind at 1.
  rewrite Hr. destruct r as [d|e].
  - destruct (0 <? length (Upload.headers d))%nat; reflexivity.
  - destruct (i =? retries - 1)%nat; reflexivity.
Qed.

Lemma detectColumns_loop_frame (file : File.t) (retries : nat) :
  ∀ remaining i (w : W),
  ∃ k, (k ≤ remaining)%nat ∧
    (Upload.detectColumns_loop JSON_parse file retries i remaining w).1
    = after_waits k w ∧
    ∀ d, (Upload.detectColumns_loop JSON_parse file retries i remaining w).2
         = Normal d →
         Upload.headers d ≠ [] ∧ (parse_round JSON_parse file w).2 = Normal d.
Proof.
  induction remaining as [|remaining IH]; intros i w.
  - exists 0%nat. split; [lia|]. split; [reflexivity|]. intros d [=].
  - rewrite detectColumns_loop_round.
    destruct (parse_round_pure file w) as (r & Hr & Hall). rewrite Hr.
    destruct r as [d|e].
    + destruct (Nat.ltb_spec 0 (length (Upload.headers d))) as [Hlen|Hlen].
      * exists 0%nat. split; [lia|]. split; [reflexivity|].
        intros d' [= <-]. split; [|reflexivity].
        intros Hnil. rewrite Hnil in Hlen. simpl in Hlen. lia.
      * destruct (IH (S i) (after_waits 1 w)) as (k & Hk & Hw & Hd).
        exists (S k). split; [lia|]. split.
        { rewrite Hw. unfold after_waits. simpl Nat.iter at 2.
          symmetry. apply Nat.iter_succ_r. }
        intros d' Hd'. destruct (Hd d' Hd') as [Hne Hp]. split; [exact Hne|].
        rewrite Hall in Hp. exact Hp.
    + destruct (i =? retries - 1)%nat.
      * exists 0%nat. split; [lia|]. split; [reflexivity|]. intros d [=].
      * destruct (IH (S i) w) as (k & Hk & Hw & Hd).
        exists k. split; [lia|]. split; [exact Hw|].
        intros d' Hd'. destruct (Hd d' Hd') as [Hne Hp].
        rewrite Hr in Hp. split; assumption.
Qed.

(** X11: [detectColumns] reads and waits, nothing else: it makes at most
    [retries] rounds, each followed by at most one wait of half a second,
    never calls [api], and leaves the page's state alone. When it returns
    a result, that result has at least one header and is what the parser
    for the file's extension returns; so the check for no headers in
    [validateStructure] never fires on what it returns. *)
Theorem detectColumns_reads_and_waits (file : File.t) (retries : nat) (w : W) :
  ∃ k, (k ≤ retries)%nat ∧
    let r := detectColumns file retries w in
    Upload.slept r.1 = (Upload.slept w ++ replicate k 500)%list ∧
    Upload.env r.1 = Upload.env w ∧
    Upload.errorMsg r.1 = Upload.errorMsg w ∧
    Upload.toasts r.1 = Upload.toasts w ∧
    Upload.uploading r.1 = Upload.uploading w ∧
    Upload.previewHeaders r.1 = Upload.previewHeaders w ∧
    Upload.previewRows r.1 = Upload.previewRows w ∧
    ∀ d, r.2 = Normal d →
      Upload.headers d ≠ [] ∧
      (parse_round JSON_parse file w).2 = Normal d ∧
      Upload.validateStructure (Upload.headers d) (Upload.rows d)
      ≠ Some "Could not detect any columns in the file".
Proof.
  unfold Upload.detectColumns.
  destruct (detectColumns_loop_frame file retries retries 0 w) as (k & Hk & Hw & Hd).
  exists k. split; [exact Hk|]. cbv zeta. rewrite Hw.
  destruct (after_waits_fields k w) as (He&Hu&_&_&Hpr&Hph&Hm&_&_&Ht&_&Hs).
  repeat (split; [assumption|]).
  intros d Hres. destruct (Hd d Hres) as [Hne Hp].
  split; [exact Hne|]. split; [exact Hp|].
  unfold Upload.validateStructure.
  destruct (Upload.headers d) as [|h hs]; [contradiction|]. simpl.
  destruct (Upload.rows d); simpl; [discriminate|].
  match goal with |- (if ?b then _ else _) ≠ _ => destruct b; discriminate end.
Qed.

(** *** What [onFiles] does with a file *)

Lemma begin_file_fields (file : File.t) (w : W) :
  Upload.env (begin_file file w) = Upload.env w ∧
  Upload.uploading (begin_file file w) = Upload.uploading w ∧
  Upload.progress (begin_file file w) = Upload.progress w ∧
  Upload.scheduled (begin_file file w) = Upload.scheduled w ∧
  Upload.toasts (begin_file file w) = Upload.toasts w ∧
  Upload.slept (begin_file file w) = Upload.slept w ∧
  Upload.success (begin_file file w) = false ∧
  Upload.errorMsg (begin_file file w) = "" ∧
  Upload.fileName (begin_file file w) = File.name file ∧
  Upload.lastFile (begin_file file w) = Some file.
Proof. destruct w. repeat split. Qed.

Lemma turn_away_fields (message : string) (w : W) :
  Upload.env (turn_away message w) = Upload.env w ∧
  Upload.uploading (turn_away message w) = Upload.uploading w ∧
  Upload.progress (turn_away message w) = Upload.progress w ∧
  Upload.scheduled (turn_away message w) = Upload.scheduled w ∧
  Upload.toasts (turn_away message w)
    = (Upload.toasts w ++ [toast_error (VString message)])%list ∧
  Upload.slept (turn_away message w) = Upload.slept w ∧
  Upload.success (turn_away message w) = Upload.success w ∧
  Upload.errorMsg (turn_away message w) = message ∧
  Upload.fileName (turn_away message w) = Upload.fileName w ∧
  Upload.lastFile (turn_away message w) = Upload.lastFile w.
Proof. destruct w. repeat split. Qed.

Lemma show_detected_fields (d : Upload.Detected) (w : W) :
  Upload.env (show_detected d w) = Upload.env w ∧
  Upload.uploading (show_detected d w) = Upload.uploading w ∧
  Upload.progress (show_detected d w) = Upload.progress w ∧
  Upload.scheduled (show_detected d w) = Upload.scheduled w ∧
  Upload.toasts (show_detected d w) = Upload.toasts w ∧
  Upload.slept (show_detected d w) = Upload.slept w ∧
  Upload.success (show_detected d w) = Upload.success w ∧
  Upload.errorMsg (show_detected d w) = Upload.errorMsg w ∧
  Upload.fileName (show_detected d w) = Upload.fileName w ∧
  Upload.lastFile (show_detected d w) = Upload.lastFile w.
Proof. destruct w. repeat split. Qed.

(** The state after a file has been turned away with [message], [k]
    waits after [onFiles] began. *)
Lemma turned_away_after (message : string) (k : nat) (file : File.t) (w : W) :
  let w' := turn_away message (after_waits k (begin_file file w)) in
  turned_away message w w' ∧
  Upload.slept w' = (Upload.slept w ++ replicate k 500)%list ∧
  Upload.lastFile w' = Some file ∧ Upload.fileName w' = File.name file.
Proof.
  cbv zeta. unfold turned_away.
  destruct (turn_away_fields message (after_waits k (begin_file file w)))
    as (->&->&->&->&->&->&->&->&->&->).
  destruct (after_waits_fields k (begin_file file w))
    as (->&->&->&->&_&_&_&->&->&->&->&->).
  destruct (begin_file_fields file w) as (->&->&->&->&->&->&->&_&->&->).
  repeat split.
Qed.

Lemma detection_message_nonempty (e : Exn) : detection_message e ≠ "".
Proof.
  unfold detection_message, truthy_string.
  destruct (String.eqb_spec (message_of e) ""); simpl; [discriminate|assumption].
Qed.

Lemma validateFileBasics_nonempty (file : File.t) (e : string) :
  Upload.validateFileBasics file = Some e → e ≠ "".
Proof.
  unfold Upload.validateFileBasics.
  repeat case_match; intros [= <-]; discriminate.
Qed.

Lemma validateStructure_nonempty (hs : list string) (rs : list Value) (e : string) :
  Upload.validateStructure hs rs = Some e → e ≠ "".
Proof.
  unfold Upload.validateStructure.
  repeat case_match; intros [= <-]; discriminate.
Qed.

(** The retry loop ends in its first round. *)
Lemma doUploadWithRetry_first_round (file : File.t) (maxRetries : nat) (w : W) :
  doUploadWithRetry file maxRetries w = doUpload file w.
Proof.
  unfold Upload.doUploadWithRetry. cbn [Upload.doUploadWithRetry_loop].
  destruct (doUpload_returns api_post api_get token upload_progress file w)
    as [w' Hret].
  unfold bind at 1. unfold try_catch at 1. unfold bind at 1.
  rewrite Hret. reflexivity.
Qed.

(** X12: [onFiles] uploads a file exactly when it passes all three
    checks. When the name and size are accepted, column detection
    returns a preview and the preview's structure is accepted, [onFiles]
    does what [doUpload] does with that preview on display, the state
    behind [api] still untouched at that point. When one of the three
    checks fails, [onFiles] ends normally with [api] never called, no
    upload started and nothing scheduled, a non-empty error message set
    and shown as the one new notification, and the file remembered as
    [lastFile]. *)
Theorem onFiles_uploads_only_validated (file : File.t) (others : list File.t)
    (w : W) :
  let r := onFiles (Some (file :: others)) w in
  let detected := detectColumns file 3 (begin_file file w) in
  (∀ d,
     Upload.validateFileBasics file = None →
     detected.2 = Normal d →
     Upload.validateStructure (Upload.headers d) (Upload.rows d) = None →
     Upload.env (show_detected d detected.1) = Upload.env w ∧
     r = doUpload file (show_detected d detected.1)) ∧
  (Upload.validateFileBasics file ≠ None ∨
   (∃ e, detected.2 = Throw e) ∨
   (∃ d, detected.2 = Normal d ∧
         Upload.validateStructure (Upload.headers d) (Upload.rows d) ≠ None) →
   r.2 = Normal () ∧
   Upload.env r.1 = Upload.env w ∧
   Upload.uploading r.1 = Upload.uploading w ∧
   Upload.progress r.1 = Upload.progress w ∧
   Upload.scheduled r.1 = Upload.scheduled w ∧
   Upload.success r.1 = false ∧
   Upload.lastFile r.1 = Some file ∧
   Upload.errorMsg r.1 ≠ "" ∧
   Upload.toasts r.1
   = (Upload.toasts w ++ [toast_error (VString (Upload.errorMsg r.1))])%list).
Proof.
  cbv zeta. rewrite onFiles_cases.
  assert (∀ message k,
            message ≠ "" →
            let w' := turn_away message (after_waits k (begin_file file w)) in
            Upload.env w' = Upload.env w ∧
            Upload.uploading w' = Upload.uploading w ∧
            Upload.progress w' = Upload.progress w ∧
            Upload.scheduled w' = Upload.scheduled w ∧
            Upload.success w' = false ∧
            Upload.lastFile w' = Some file ∧
            Upload.errorMsg w' ≠ "" ∧
            Upload.toasts w'
            = (Upload.toasts w ++ [toast_error (VString (Upload.errorMsg w'))])%list)
    as Haway.
  { intros message k Hne.
    destruct (turned_away_after message k file w)
      as ((He&Hu&Hp&Hs&Hsu&Hm&Ht)&_&Hl&_).
    cbv zeta. rewrite Hm. repeat (split; [assumption|]). exact Ht. }
  destruct (detectColumns_loop_frame file 3 3 0 (begin_file file w))
    as (k & _ & Hw1 & _).
  fold (detectColumns file 3 (begin_file file w)) in Hw1.
  destruct (detectColumns file 3 (begin_file file w)) as [w1 [d|e]] eqn:Hdet;
    cbn [fst snd] in *; subst w1.
  - split.
    + intros d' Hbasic [= <-] Hstruct. rewrite Hbasic, Hstruct.
      split; [|apply doUploadWithRetry_first_round].
      destruct (show_detected_fields d (after_waits k (begin_file file w)))
        as (->&_).
      destruct (after_waits_fields k (begin_file file w)) as (->&_).
      apply begin_file_fields.
    + intros Hfail.
      destruct (Upload.validateFileBasics file) as [basicError|] eqn:Hbasic.
      { split; [reflexivity|]. apply (Haway basicError 0%nat).
        eapply validateFileBasics_nonempty; eassumption. }
      destruct (Upload.validateStructure (Upload.headers d) (Upload.rows d))
        as [structError|] eqn:Hstruct.
      * split; [reflexivity|]. cbn [fst snd].
        destruct (turn_away_fields structError
                    (show_detected d (after_waits k (begin_file file w))))
          as (->&->&->&->&->&_&->&->&_&->).
        destruct (show_detected_fields d (after_waits k (begin_file file w)))
          as (->&->&->&->&->&_&->&_&_&->).
        destruct (after_waits_fields k (begin_file file w))
          as (->&->&->&_&_&_&_&->&->&->&->&_).
        destruct (begin_file_fields file w) as (->&->&->&->&->&_&->&_&_&->).
        repeat split.
        eapply validateStructure_nonempty; eassumption.
      * exfalso. destruct Hfail as [Hb | [[e He] | (d' & Hd' & Hs')]].
        -- apply Hb. reflexivity.
        -- discriminate.
        -- injection Hd' as <-. apply Hs'. exact Hstruct.
  - split; [intros d' _ [=]|].
    intros _.
    destruct (Upload.validateFileBasics file) as [basicError|] eqn:Hbasic.
    + split; [reflexivity|]. apply (Haway basicError 0%nat).
      eapply validateFileBasics_nonempty; eassumption.
    + split; [reflexivity|].
      apply (Haway (detection_message e) k), detection_message_nonempty.
Qed.

Lemma detectColumns_loop_empty (file : File.t) (d : Upload.Detected)
    (retries : nat) :
  (∀ w : W, parse_round JSON_parse file w = (w, Normal d)) →
  Upload.headers d = [] →
  ∀ remaining i (w : W),
    Upload.detectColumns_loop JSON_parse file retries i remaining w
    = (after_waits remaining w,
       Throw (Error "Could not detect columns after multiple attempts")).
Proof.
  intros Hparse Hnil. induction remaining as [|remaining IH]; intros i w.
  - reflexivity.
  - rewrite detectColumns_loop_round, Hparse, Hnil. cbn [length Nat.ltb Nat.leb].
    rewrite IH. f_equal. unfold after_waits. simpl Nat.iter at 2.
    symmetry. apply Nat.iter_succ_r.
Qed.

Lemma detectColumns_loop_throws (file : File.t) (e : Exn) (retries : nat) :
  (∀ w : W, parse_round JSON_parse file w = (w, Throw e)) →
  ∀ remaining i (w : W),
    (0 < remaining)%nat → (i + remaining = retries)%nat →
    Upload.detectColumns_loop JSON_parse file retries i remaining w = (w, Throw e).
Proof.
  intros Hparse. induction remaining as [|remaining IH]; intros i w Hpos Hsum; [lia|].
  rewrite detectColumns_loop_round, Hparse.
  destruct (Nat.eqb_spec i (retries - 1)) as [Hlast|Hmore]; [reflexivity|].
  apply IH; lia.
Qed.

(** X13: a file with an allowed extension that is neither [.csv] nor
    [.json] (an Excel file) and within the size limit passes
    [validateFileBasics] and is then always turned away: [detectColumns]
    finds no headers in each of its three rounds, waiting half a second
    after each, and [onFiles] ends with ['Could not detect columns after
    multiple attempts'] set and shown, without [api] being called. *)
Theorem excel_is_never_uploaded (file : File.t) (others : list File.t) (w : W) :
  existsb (λ ext, endsWith ext (toLowerCase (File.name file))) Upload.ALLOWED_EXT
    = true →
  endsWith ".csv" (toLowerCase (File.name file)) = false →
  endsWith ".json" (toLowerCase (File.name file)) = false →
  File.size file ≤ Upload.MAX_BYTES →
  Upload.validateFileBasics file = None ∧
  ∃ w',
    onFiles (Some (file :: others)) w = (w', Normal ()) ∧
    turned_away "Could not detect columns after multiple attempts" w w' ∧
    Upload.slept w' = (Upload.slept w ++ [500; 500; 500])%list ∧
    Upload.lastFile w' = Some file.
Proof.
  intros Hallowed Hcsv Hjson Hsize.
  assert (Upload.validateFileBasics file = None) as Hbasic.
  { unfold Upload.validateFileBasics. rewrite Hallowed. cbn [negb].
    destruct (Z.ltb_spec Upload.MAX_BYTES (File.size file)); [lia|reflexivity]. }
  split; [exact Hbasic|].
  rewrite onFiles_cases, Hbasic. unfold Upload.detectColumns.
  rewrite (detectColumns_loop_empty file {| Upload.headers := []; Upload.rows := [] |});
    [| intros w0; unfold parse_round; rewrite Hcsv, Hjson; reflexivity
     | reflexivity].
  eexists. split; [reflexivity|].
  destruct (turned_away_after
              "Could not detect columns after multiple attempts" 3 file w)
    as (Haway & Hslept & Hlast & _).
  auto.
Qed.

(** X14: when the parser for the file's extension throws (the file cannot
    be read, or a [.json] file does not parse), [detectColumns] tries
    three times without waiting and rethrows, and [onFiles] turns the
    file away with the error's own message, or with ['Could not detect
    columns'] when that message is empty; [api] is never called. *)
Theorem unparsable_file_is_turned_away (file : File.t) (others : list File.t)
    (w : W) (e : Exn) :
  Upload.validateFileBasics file = None →
  (parse_round JSON_parse file (begin_file file w)).2 = Throw e →
  ∃ w',
    onFiles (Some (file :: others)) w = (w', Normal ()) ∧
    turned_away (if String.eqb (message_of e) "" then "Could not detect columns"
                 else message_of e) w w' ∧
    Upload.slept w' = Upload.slept w ∧
    (∀ m, File.text file = inr m →
          endsWith ".csv" (toLowerCase (File.name file)) = true →
          e = Error m).
Proof.
  intros Hbasic Hthrow.
  destruct (parse_round_pure file (begin_file file w)) as (r & Hr & Hall).
  rewrite Hr in Hthrow. simpl in Hthrow. subst r.
  rewrite onFiles_cases, Hbasic. unfold Upload.detectColumns.
  rewrite (detectColumns_loop_throws file e 3 Hall) by lia.
  eexists. split; [reflexivity|].
  destruct (turned_away_after (detection_message e) 0 file w)
    as (Haway & Hslept & _).
  change (after_waits 0 (begin_file file w)) with (begin_file file w) in *.
  rewrite app_nil_r in Hslept.
  assert (detection_message e
          = if String.eqb (message_of e) "" then "Could not detect columns"
            else message_of e) as <-.
  { unfold detection_message, truthy_string.
    destruct (String.eqb (message_of e) ""); reflexivity. }
  split; [exact Haway|]. split; [exact Hslept|].
  intros m Htext Hcsv.
  unfold parse_round, Upload.parseCsvHeadersRows, Upload.file_text, bind, throw in Hr.
  rewrite Hcsv, Htext in Hr. congruence.
Qed.

(** X15: a [.csv] file within the size limit whose text has exactly one
    non-empty line (a header line and no data) is detected at once, its
    headers are put on display with no rows, and it is turned away with
    ['No sample rows found in the file']; [api] is never called. *)
Theorem header_only_csv_is_turned_away (file : File.t) (others : list File.t)
    (w : W) (text line : string) :
  Upload.validateFileBasics file = None →
  endsWith ".csv" (toLowerCase (File.name file)) = true →
  File.text file = inl text →
  List.filter truthy_string (split_lines text) = [line] →
  ∃ w',
    onFiles (Some (file :: others)) w = (w', Normal ()) ∧
    turned_away "No sample rows found in the file" w w' ∧
    Upload.slept w' = Upload.slept w ∧
    Upload.previewHeaders w' = VArray (VString <$> split "," line) ∧
    Upload.previewRows w' = VArray [].
Proof.
  intros Hbasic Hcsv Htext Hline.
  set (d := {| Upload.headers := split "," line; Upload.rows := [] |}).
  assert (∀ w0 : W, parse_round JSON_parse file w0 = (w0, Normal d)) as Hparse.
  { intros w0. unfold parse_round, Upload.parseCsvHeadersRows, Upload.file_text,
      bind, ret, Upload.csv_headers_rows.
    rewrite Hcsv, Htext, Hline. reflexivity. }
  assert (Upload.validateStructure (Upload.headers d) (Upload.rows d)
          = Some "No sample rows found in the file") as Hstruct.
  { unfold Upload.validateStructure, d. cbn [Upload.headers Upload.rows].
    pose proof (split_length "," line) as Hlen.
    destruct (split "," line); [simpl in Hlen; lia|reflexivity]. }
  rewrite onFiles_cases, Hbasic. unfold Upload.detectColumns.
  rewrite detectColumns_loop_round, Hparse.
  assert ((0 <? length (Upload.headers d))%nat = true) as ->.
  { apply Nat.ltb_lt. apply split_length. }
  rewrite Hstruct.
  eexists. split; [reflexivity|].
  unfold turned_away.
  destruct (turn_away_fields "No sample rows found in the file"
              (show_detected d (begin_file file w)))
    as (->&->&->&->&->&->&->&->&_&_).
  assert (Upload.previewHeaders
            (turn_away "No sample rows found in the file"
               (show_detected d (begin_file file w)))
          = VArray (VString <$> split "," line) ∧
          Upload.previewRows
            (turn_away "No sample rows found in the file"
               (show_detected d (begin_file file w)))
          = VArray []) as [-> ->]
    by (destruct w; split; reflexivity).
  destruct (show_detected_fields d (begin_file file w))
    as (->&->&->&->&->&->&->&_&_&_).
  destruct (begin_file_fields file w) as (->&->&->&->&->&->&->&_&_&_).
  repeat split.
Qed.

End UploadExtras.

(** *** The structure check *)

Lemma count_empty_fold (row : Value) (hs : list string) (n : nat) :
  fold_left (λ n h, if Upload.empty_cell (opt_get row h) then S n else n) hs n
  = (n + length (List.filter (λ h, Upload.empty_cell (opt_get row h)) hs))%nat.
Proof.
  revert n. induction hs as [|h hs IH]; intros n; simpl; [lia|].
  rewrite IH. destruct (Upload.empty_cell (opt_get row h)); simpl; lia.
Qed.

Lemma count_rows_fold (hs : list string) (rs : list Value) (n : nat) :
  fold_left
    (λ n row,
       fold_left (λ n h, if Upload.empty_cell (opt_get row h) then S n else n) hs n)
    rs n
  = (n + sum_list
           (map (λ row, length (List.filter
                                  (λ h, Upload.empty_cell (opt_get row h)) hs))
                rs))%nat.
Proof.
  revert n. induction rs as [|row rs IH]; intros n; simpl; [lia|].
  rewrite IH, count_empty_fold. lia.
Qed.

Lemma filter_all {A} (P : A → bool) (l : list A) :
  (length (List.filter P l) ≤ length l)%nat ∧
  (length (List.filter P l) = length l ↔ Forall (λ x, P x = true) l).
Proof.
  induction l as [|x l [IHle IHiff]]; simpl.
  - split; [lia|]. split; [constructor|reflexivity].
  - destruct (P x) eqn:Hx; simpl.
    + split; [lia|]. split.
      * intros [= H]. constructor; [exact Hx | apply IHiff, H].
      * intros H. inversion H; subst. f_equal. apply IHiff. assumption.
    + split; [lia|]. split; [lia|].
      intros H. inversion H; subst. congruence.
Qed.

Lemma sum_all {A} (c : A → nat) (m : nat) (l : list A) :
  (∀ x, c x ≤ m)%nat →
  (sum_list (map c l) ≤ length l * m)%nat ∧
  (sum_list (map c l) = (length l * m)%nat ↔ Forall (λ x, c x = m) l).
Proof.
  intros Hc. induction l as [|x l [IHle IHiff]]; simpl.
  - split; [lia|]. split; [constructor|reflexivity].
  - pose proof (Hc x) as Hx0. split; [lia|]. split.
    + intros H. assert (c x = m ∧ sum_list (map c l) = (length l * m)%nat) as [? ?]
        by lia.
      constructor; [assumption | apply IHiff; assumption].
    + intros H. inversion H as [|? ? Hx Hl]; subst.
      apply IHiff in Hl. lia.
Qed.

(** X16: [validateStructure] accepts a preview exactly when it has at
    least one header, at least one row, and at least one cell, looked up
    in a row under a header, that is neither missing, null nor blank. *)
Theorem validateStructure_accepts_iff (hs : list string) (rs : list Value) :
  Upload.validateStructure hs rs = None ↔
  hs ≠ [] ∧ rs ≠ [] ∧
  ∃ row h, row ∈ rs ∧ h ∈ hs ∧ Upload.empty_cell (opt_get row h) = false.
Proof.
  unfold Upload.validateStructure.
  destruct hs as [|h0 hs']; [split; [discriminate | intros [[] _]; reflexivity]|].
  destruct rs as [|r0 rs']; [split; [discriminate | intros (_ & [] & _); reflexivity]|].
  set (hs := h0 :: hs'). set (rs := r0 :: rs').
  cbn [length Nat.eqb].
  rewrite count_rows_fold. cbn [Nat.add].
  set (c := λ row : Value,
              length (List.filter (λ h, Upload.empty_cell (opt_get row h)) hs)).
  assert (∀ row, c row ≤ length hs)%nat as Hc
    by (intros row; apply filter_all).
  destruct (sum_all c (length hs) rs Hc) as [_ Hiff].
  assert ((0 <? length rs * length hs)%nat = true) as ->
    by (apply Nat.ltb_lt; simpl; lia).
  cbn [andb].
  destruct (Nat.eqb_spec (sum_list (map c rs)) (length rs * length hs)) as [Heq|Hne].
  - split; [discriminate|]. intros (_ & _ & row & h & Hrow & Hh & Hcell).
    exfalso. apply Hiff in Heq. rewrite Forall_forall in Heq.
    specialize (Heq row Hrow). apply filter_all in Heq.
    rewrite Forall_forall in Heq. rewrite (Heq h Hh) in Hcell. discriminate.
  - split; [|reflexivity]. intros _.
    split; [discriminate|]. split; [discriminate|].
    assert (¬ Forall (λ row, c row = length hs) rs) as Hnot
      by (intros H; apply Hne, Hiff, H).
    apply not_Forall_Exists in Hnot; [|intros row; apply _].
    apply Exists_exists in Hnot as (row & Hrow & Hrow').
    assert (¬ Forall (λ h, Upload.empty_cell (opt_get row h) = true) hs) as Hnot'
      by (intros H; apply Hrow', filter_all, H).
    apply not_Forall_Exists in Hnot'; [|intros h; apply _].
    apply Exists_exists in Hnot' as (h & Hh & Hcell).
    exists row, h. split; [exact Hrow|]. split; [exact Hh|].
    apply not_true_is_false. exact Hcell.
Qed.

(** *** The CSV preview *)

Lemma assoc_put_prop_eq (k : string) (v : Value) (ps : list (string * Value)) :
  assoc k (put_prop k v ps) = Some v.
Proof.
  induction ps as [|[k' v'] ps IH]; simpl.
  - rewrite String.eqb_refl. reflexivity.
  - destruct (String.eqb_spec k' k) as [->|Hne]; simpl.
    + rewrite String.eqb_refl. reflexivity.
    + destruct (String.eqb_spec k' k); [contradiction|]. exact IH.
Qed.

Lemma assoc_put_prop_ne (k k' : string) (v : Value) (ps : list (string * Value)) :
  k' ≠ k → assoc k' (put_prop k v ps) = assoc k' ps.
Proof.
  intros Hne. induction ps as [|[k0 v0] ps IH]; simpl.
  - destruct (String.eqb_spec k k'); [congruence|reflexivity].
  - destruct (String.eqb_spec k0 k) as [->|Hne0]; simpl.
    + destruct (String.eqb_spec k k'); [congruence|reflexivity].
    + destruct (String.eqb_spec k0 k'); [reflexivity|exact IH].
Qed.

Lemma keys_put_prop (k : string) (v : Value) (ps : list (string * Value)) :
  NoDup ps.*1 →
  NoDup (put_prop k v ps).*1 ∧
  ∀ h, h ∈ (put_prop k v ps).*1 ↔ h = k ∨ h ∈ ps.*1.
Proof.
  induction ps as [|[k0 v0] ps IH]; simpl; intros Hnd.
  - split; [apply NoDup_singleton|]. intros h. rewrite list_elem_of_singleton.
    split; [auto | intros [|H]; [assumption | inversion H]].
  - apply NoDup_cons in Hnd as [Hk0 Hnd].
    destruct (String.eqb_spec k0 k) as [->|Hne]; simpl.
    + split; [apply NoDup_cons; auto|]. intros h. rewrite elem_of_cons. tauto.
    + destruct (IH Hnd) as [IHnd IHin]. split.
      * apply NoDup_cons. split; [|exact IHnd].
        rewrite IHin. intros [?|?]; [congruence|contradiction].
      * intros h. rewrite !elem_of_cons, IHin. tauto.
Qed.

Lemma assoc_set_prop_eq (k : string) (v : Value) (ps : list (string * Value)) :
  k ≠ "__proto__" → assoc k (set_prop k v ps) = Some v.
Proof.
  intros Hk. unfold set_prop.
  destruct (String.eqb_spec k "__proto__"); [contradiction|].
  apply assoc_put_prop_eq.
Qed.

Lemma assoc_set_prop_ne (k k' : string) (v : Value) (ps : list (string * Value)) :
  k' ≠ k → assoc k' (set_prop k v ps) = assoc k' ps.
Proof.
  intros Hne. unfold set_prop.
  destruct (String.eqb k "__proto__"); [reflexivity|].
  apply assoc_put_prop_ne, Hne.
Qed.

Lemma keys_set_prop (k : string) (v : Value) (ps : list (string * Value)) :
  NoDup ps.*1 →
  NoDup (set_prop k v ps).*1 ∧
  ∀ h, h ∈ (set_prop k v ps).*1 ↔ (h = k ∧ k ≠ "__proto__") ∨ h ∈ ps.*1.
Proof.
  intros Hnd. unfold set_prop.
  destruct (String.eqb_spec k "__proto__") as [Hk|Hk].
  - split; [exact Hnd|]. intros h. tauto.
  - destruct (keys_put_prop k v ps Hnd) as [Hnd' Hin].
    split; [exact Hnd'|]. intros h. rewrite Hin. tauto.
Qed.

Lemma csv_cells_snoc (vals hs : list string) (h : string) :
  csv_cells vals (hs ++ [h])
  = set_prop h (VString (default "" (vals !! length hs))) (csv_cells vals hs).
Proof.
  unfold csv_cells. rewrite imap_app, fold_left_app. simpl.
  rewrite Nat.add_0_r. reflexivity.
Qed.

Lemma csv_cells_spec (vals hs : list string) :
  NoDup (csv_cells vals hs).*1 ∧
  (∀ h, h ∈ (csv_cells vals hs).*1 ↔ h ∈ hs ∧ h ≠ "__proto__") ∧
  (∀ i h, hs !! i = Some h →
          h ≠ "__proto__" →
          (∀ j, (i < j)%nat → hs !! j ≠ Some h) →
          assoc h (csv_cells vals hs) = Some (VString (default "" (vals !! i)))) ∧
  assoc "__proto__" (csv_cells vals hs) = None.
Proof.
  induction hs as [|h hs (IHnd & IHin & IHval & IHproto)] using rev_ind.
  - split; [constructor|]. split; [|split].
    + intros h. split; [intros H; inversion H | intros [H _]; inversion H].
    + intros i h H. rewrite lookup_nil in H. discriminate.
    + reflexivity.
  - rewrite csv_cells_snoc.
    destruct (keys_set_prop h (VString (default "" (vals !! length hs)))
                (csv_cells vals hs) IHnd) as [Hnd Hin].
    split; [exact Hnd|]. split; [|split].
    + intros h'. rewrite Hin, IHin, elem_of_app, list_elem_of_singleton.
      split.
      * intros [[Heq Hk]|[Hm Hk]]; [subst h'|]; tauto.
      * intros [[Hm|Heq] Hk]; [|subst h']; tauto.
    + intros i h' Hi Hproto Hlast.
      destruct (decide (i = length hs)) as [->|Hne].
      * rewrite lookup_app_r, Nat.sub_diag in Hi by lia. injection Hi as <-.
        apply assoc_set_prop_eq, Hproto.
      * assert (i < length hs)%nat as Hlt.
        { apply lookup_lt_Some in Hi. rewrite length_app in Hi. simpl in Hi. lia. }
        rewrite lookup_app_l in Hi by exact Hlt.
        assert (h' ≠ h) as Hhh.
        { intros ->. apply (Hlast (length hs) Hlt).
          rewrite lookup_app_r, Nat.sub_diag by lia. reflexivity. }
        rewrite assoc_set_prop_ne by exact Hhh.
        apply IHval; [exact Hi|exact Hproto|].
        intros j Hj Hj'. apply (Hlast j Hj).
        rewrite lookup_app_l; [exact Hj'|]. apply lookup_lt_Some in Hj'. exact Hj'.
    + unfold set_prop. destruct (String.eqb_spec h "__proto__") as [Hh|Hh];
        [exact IHproto|].
      rewrite assoc_put_prop_ne by congruence. exact IHproto.
Qed.

(** X17: the CSV preview has at most five rows, one for each of the
    non-empty lines after the first. A row is an object whose own keys
    are exactly the headers other than ['__proto__'], each once (an
    assignment under that name creates no property, so a column with that
    header is missing from every row); under such a header it holds, as
    a string, the cell at the header's position in the line (at the last
    position, for a header that occurs more than once), and the empty
    string when the line has no such cell; cells beyond the headers are
    dropped. *)
Theorem csv_preview_rows (text : string) :
  let d := Upload.csv_headers_rows text in
  let lines := List.filter truthy_string (split_lines text) in
  (length (Upload.rows d) ≤ 5)%nat ∧
  length (Upload.rows d) = (length (take 6 lines) - 1)%nat ∧
  (∀ n row, Upload.rows d !! n = Some row →
     ∃ line props,
       lines !! S n = Some line ∧ row = VObject props ∧
       NoDup props.*1 ∧
       (∀ h, h ∈ props.*1 ↔ h ∈ Upload.headers d ∧ h ≠ "__proto__") ∧
       (∀ i h, Upload.headers d !! i = Some h →
               h ≠ "__proto__" →
               (∀ j, (i < j)%nat → Upload.headers d !! j ≠ Some h) →
               opt_get row h = VString (default "" (split "," line !! i)))).
Proof.
  cbv zeta. unfold Upload.csv_headers_rows.
  destruct (List.filter truthy_string (split_lines text)) as [|first more];
    [repeat split; simpl; try lia; intros n row H; discriminate|].
  cbn [take Upload.rows Upload.headers length].
  rewrite length_map, length_take.
  split; [lia|]. split; [lia|].
  intros n row Hrow.
  rewrite list_lookup_fmap in Hrow.
  destruct (take 5 more !! n) as [line|] eqn:Hline; [|discriminate].
  injection Hrow as <-.
  exists line, (csv_cells (split "," line) (split "," first)).
  split.
  { simpl. rewrite lookup_take_Some in Hline. apply Hline. }
  split; [reflexivity|].
  destruct (csv_cells_spec (split "," line) (split "," first))
    as (Hnd & Hin & Hval & _).
  split; [exact Hnd|]. split; [exact Hin|].
  intros i h Hi Hproto Hlast. unfold Upload.csv_row, opt_get, get. simpl.
  fold (csv_cells (split "," line) (split "," first)).
  rewrite (Hval i h Hi Hproto Hlast). reflexivity.
Qed.

(** *** Progress *)

Lemma ilog2_ratio_below (n d : Z) :
  0 < n → 0 < d → n < 128 * d → ilog2_ratio n d ≤ 6.
Proof.
  intros Hn Hd Hlt. unfold ilog2_ratio. cbv zeta.
  pose proof (Z.log2_spec n Hn) as [Hn1 Hn2].
  pose proof (Z.log2_spec d Hd) as [Hd1 Hd2].
  pose proof (Z.log2_nonneg n) as Hln. pose proof (Z.log2_nonneg d) as Hld.
  assert (Z.log2 n - Z.log2 d ≤ 7) as Hk.
  { destruct (Z_le_gt_dec (Z.log2 n - Z.log2 d) 7) as [|Hgt]; [assumption|].
    exfalso.
    assert (2 ^ (Z.log2 d + 8) ≤ 2 ^ Z.log2 n) as Hpow
      by (apply Z.pow_le_mono_r; lia).
    rewrite Z.pow_add_r in Hpow by lia.
    change (2 ^ 8) with 256 in Hpow.
    rewrite Z.pow_succ_r in Hd2 by lia. lia. }
  destruct (Z.eq_dec (Z.log2 n - Z.log2 d) 7) as [Heq|Hne].
  - rewrite Heq. change (Z.max 7 0) with 7. change (Z.max (Z.opp 7) 0) with 0.
    change (2 ^ 7) with 128. change (2 ^ 0) with 1.
    destruct (Z.leb_spec (d * 128) (n * 1)); lia.
  - match goal with |- (if ?b then _ else _) ≤ _ => destruct b end; lia.
Qed.

Lemma round_half_even_bounds (n d : Z) :
  0 < d →
  n / d ≤ round_half_even n d ∧ 2 * round_half_even n d * d ≤ 2 * n + d.
Proof.
  intros Hd. unfold round_half_even.
  pose proof (Z.div_mod n d ltac:(lia)) as Hdm.
  pose proof (Z.mod_pos_bound n d Hd) as Hr.
  destruct (Z.ltb_spec (2 * (n mod d)) d); [split; nia|].
  destruct (Z.ltb_spec d (2 * (n mod d))); [split; nia|].
  destruct (Z.even (n / d)); split; nia.
Qed.

(** Below [2 ^ 46] bytes the two roundings of the double computation do
    not show in the result: the product is exact, and the quotient, which
    is at most 100, is rounded by less than its distance to the next
    half. *)
Lemma percent_exact (loaded total : Z) :
  0 < total < 2 ^ 46 →
  0 ≤ loaded ≤ total →
  Upload.percent loaded total = (2 * (loaded * 100) + total) / (2 * total).
Proof.
  intros [Hpos Hbound] [Hlo Hhi]. unfold Upload.percent, double_of_Z.
  assert (2 ^ 46 * 100 < 2 ^ 53) as H53 by reflexivity.
  destruct (Z.ltb_spec (Z.abs (loaded * 100)) (2 ^ 53)) as [_|Hbig]; [|lia].
  set (a := loaded * 100). assert (0 ≤ a ≤ 100 * total) as Ha by lia.
  unfold binary64.
  destruct (Z.ltb_spec total 0) as [|_]; [lia|].
  destruct (Z.eqb_spec a 0) as [Hzero|Hnz].
  { rewrite Hzero. simpl. symmetry. apply Z.div_small. lia. }
  rewrite Z.abs_eq by lia.
  pose proof (ilog2_ratio_below a total ltac:(lia) Hpos ltac:(lia)) as He.
  set (e := ilog2_ratio a total) in *.
  unfold Math_round.
  destruct (Z.leb_spec 0 (e - 52)) as [|_]; [lia|].
  rewrite (Z.max_l (- (e - 52)) 0), (Z.max_r (e - 52) 0) by lia.
  change (2 ^ 0) with 1. rewrite Z.mul_1_r.
  set (k := - (e - 52)). assert (46 ≤ k) as Hk by lia.
  replace (1 - (e - 52)) with (k + 1) by lia.
  rewrite Z.pow_add_r by lia. change (2 ^ 1) with 2.
  set (m := round_half_even (a * 2 ^ k) total).
  destruct (round_half_even_bounds (a * 2 ^ k) total Hpos) as [Hq Hup].
  fold m in Hq, Hup.
  set (P := (2 * a + total) / (2 * total)).
  assert (2 * total * P ≤ 2 * a + total < 2 * total * (P + 1)) as [HP1 HP2].
  { unfold P. split.
    - apply Z.mul_div_le. lia.
    - pose proof (Z.mul_succ_div_gt (2 * a + total) (2 * total) ltac:(lia)). lia. }
  assert (2 ^ 46 ≤ 2 ^ k) as Hpow46 by (apply Z.pow_le_mono_r; lia).
  assert (0 ≤ P) as HP0 by (apply Z.div_pos; lia).
  assert (2 ^ k = 2 * 2 ^ (k - 1)) as Hhalf.
  { replace k with (1 + (k - 1)) at 1 by lia. rewrite Z.pow_add_r by lia.
    reflexivity. }
  set (h := 2 ^ (k - 1)) in *.
  assert (0 < h) as Hh by (apply Z.pow_pos_nonneg; lia).
  symmetry. apply Z.div_unique with (r := 2 * m + 2 ^ k - 2 ^ k * 2 * P); [|lia].
  left. split.
  - assert ((2 * P - 1) * h ≤ m) as Hlow; [|lia].
    etransitivity; [|exact Hq].
    apply Z.div_le_lower_bound; [lia|]. nia.
  - assert (m < (2 * P + 1) * h) as Hhigh; [|lia].
    destruct (Z_lt_ge_dec m ((2 * P + 1) * h)) as [|Hge]; [assumption|exfalso].
    assert (2 * ((2 * P + 1) * h) * total ≤ 2 * (a * 2 ^ k) + total) as Hc.
    { etransitivity; [|exact Hup]. nia. }
    rewrite Hhalf in Hc.
    assert (1 ≤ (2 * P + 1) * total - 2 * a) as Hgap by lia.
    assert (2 * h * ((2 * P + 1) * total - 2 * a) ≤ total) as Hc' by lia.
    assert (2 * h * 1 ≤ 2 * h * ((2 * P + 1) * total - 2 * a)) as Hmono
      by (apply Z.mul_le_mono_nonneg_l; lia).
    lia.
Qed.

Lemma percent_nearest (loaded total : Z) :
  0 < total < 2 ^ 46 →
  0 ≤ loaded ≤ total →
  200 * loaded - total < 2 * total * Upload.percent loaded total
  ∧ 2 * total * Upload.percent loaded total ≤ 200 * loaded + total.
Proof.
  intros Htotal Hloaded. rewrite percent_exact by assumption.
  pose proof (Z.mul_div_le (2 * (loaded * 100) + total) (2 * total) ltac:(lia)).
  pose proof (Z.mul_succ_div_gt (2 * (loaded * 100) + total) (2 * total) ltac:(lia)).
  lia.
Qed.

(** X18: for a progress event with a positive total below [2 ^ 46]
    bytes (64 TiB) and a loaded count between zero and that total, the
    double computation [Math.round((loaded * 100) / total)] sets
    [progress] to the percentage rounded to the nearest integer, halves
    upwards: it lies between 0 and 100, is 100 when everything is loaded
    and 0 when nothing is, and nothing else changes. An event whose total
    is undefined or zero changes nothing at all. *)
Theorem progress_is_a_percentage {Env : Type} (loaded total : Z)
    (w : Upload.World Env) :
  0 < total →
  total < 2 ^ 46 →
  0 ≤ loaded ≤ total →
  let w' := (Upload.onUploadProgress
               {| Upload.loaded := loaded; Upload.total := Some total |} w).1 in
  0 ≤ Upload.progress w' ≤ 100 ∧
  200 * loaded - total < 2 * total * Upload.progress w' ≤ 200 * loaded + total ∧
  (loaded = total → Upload.progress w' = 100) ∧
  (loaded = 0 → Upload.progress w' = 0) ∧
  Upload.env w' = Upload.env w ∧ Upload.uploading w' = Upload.uploading w ∧
  Upload.errorMsg w' = Upload.errorMsg w ∧ Upload.toasts w' = Upload.toasts w ∧
  (Upload.onUploadProgress
     {| Upload.loaded := loaded; Upload.total := None |} w).1 = w ∧
  (Upload.onUploadProgress
     {| Upload.loaded := loaded; Upload.total := Some 0 |} w).1 = w.
Proof.
  intros Htotal Hbound Hloaded. cbv zeta.
  unfold Upload.onUploadProgress. cbn [Upload.total Upload.loaded].
  destruct (Z.eqb_spec total 0) as [|_]; [lia|].
  cbn [Upload.setProgress modify fst Upload.progress Upload.env Upload.uploading
       Upload.errorMsg Upload.toasts ret Z.eqb].
  pose proof (percent_nearest loaded total (conj Htotal Hbound) Hloaded)
    as [Hlo Hhi].
  split; [nia|]. split; [lia|].
  split; [intros ->; nia|]. split; [intros ->; nia|].
  repeat split.
Qed.

(** *** What [doUpload] does *)

Ltac norm_upload :=
  cbv beta iota zeta delta
    [bind ret throw try_catch modify gets zoom fst snd
     Upload.setUploading Upload.setProgress Upload.setFileName
     Upload.setPreviewRows Upload.setPreviewHeaders Upload.setErrorMsg
     Upload.setLastFile Upload.setSuccess Upload.toast_ Upload.console_
     Upload.sleep Upload.navigate_after Upload.call Upload.with_env
     Upload.uploading Upload.progress Upload.fileName Upload.previewRows
     Upload.previewHeaders Upload.errorMsg Upload.lastFile Upload.success
     Upload.toasts Upload.console Upload.slept Upload.scheduled Upload.env
     upload_started upload_failed preview_logged preview_unchecked
     preview_corrupt preview_shown upload_finished upload_message
     upload_headers dataset_id].

Section DoUpload.

Context {Env : Type}.
Variable api_post : string → Body → gmap string string → M Env Response.t.
Variable api_get : string → M Env Response.t.
Variable token : option string.
Variable upload_progress : Env → list Upload.ProgressEvent.

Abbreviation W := (Upload.World Env).
Abbreviation doUpload := (Upload.doUpload api_post api_get token upload_progress).

Lemma for_each_progress (events : list Upload.ProgressEvent) (w : W) :
  Upload.for_each Upload.onUploadProgress events w = (progressed events w, Normal ()).
Proof.
  revert w. induction events as [|evt events IH]; intros w; [reflexivity|].
  cbn [Upload.for_each]. unfold bind at 1.
  assert (Upload.onUploadProgress evt w
          = ((Upload.onUploadProgress evt w).1, Normal ())) as ->.
  { unfold Upload.onUploadProgress. destruct (Upload.total evt) as [t|]; [|reflexivity].
    destruct (t =? 0); reflexivity. }
  rewrite IH. reflexivity.
Qed.

(** [doUpload], branch by branch. *)
Lemma doUpload_cases (file : File.t) (w : W) :
  doUpload file w =
    match Upload.call (api_post "/upload" (FormData [("file", file)])
                         (upload_headers token))
            (upload_started upload_progress w) with
    | (w1, Throw e) => (upload_failed e w1, Normal ())
    | (w1, Normal response) =>
        let id := dataset_id (Response.data response) in
        match Upload.call (api_get ("/datasets/" +:+ String_ id +:+ "/preview")) w1 with
        | (w2, Throw _) => (upload_finished id (preview_unchecked w2), Normal ())
        | (w2, Normal preview) =>
            let rawData := Response.data preview in
            if nullish rawData then
              (upload_finished id
                 (preview_unchecked
                    (Upload.console_ LevelLog "RAW DATA PREVIEW:" w2).1), Normal ())
            else if truthy (get rawData "preprocessing_applied") then
              (preview_corrupt w2, Normal ())
            else (upload_finished id (preview_shown rawData w2), Normal ())
        end
    end.
Proof.
  unfold Upload.doUpload. destruct w.
  cbv beta iota zeta delta
    [bind try_catch modify gets Upload.setUploading Upload.setProgress
     Upload.env upload_started upload_headers dataset_id fst snd].
  rewrite for_each_progress.
  cbv beta iota zeta.
  match goal with
  | |- context [Upload.call ?m ?w0] => destruct (Upload.call m w0) as [w1 [response|e]]
  end.
  - cbv beta iota zeta.
    match goal with
    | |- context [Upload.call ?m w1] =>
        destruct (Upload.call m w1) as [w2 [preview|e]]
    end.
    + destruct w2. norm_upload.
      destruct (nullish (Response.data preview)); [reflexivity|].
      cbv beta iota zeta.
      destruct (truthy (get (Response.data preview) "preprocessing_applied"));
        reflexivity.
    + destruct w2. norm_upload. reflexivity.
  - destruct w1. norm_upload. reflexivity.
Qed.

Lemma progressed_fields (events : list Upload.ProgressEvent) (w : W) :
  Upload.env (progressed events w) = Upload.env w ∧
  Upload.uploading (progressed events w) = Upload.uploading w ∧
  Upload.errorMsg (progressed events w) = Upload.errorMsg w ∧
  Upload.success (progressed events w) = Upload.success w ∧
  Upload.toasts (progressed events w) = Upload.toasts w ∧
  Upload.scheduled (progressed events w) = Upload.scheduled w ∧
  Upload.previewHeaders (progressed events w) = Upload.previewHeaders w ∧
  Upload.previewRows (progressed events w) = Upload.previewRows w ∧
  Upload.lastFile (progressed events w) = Upload.lastFile w ∧
  Upload.fileName (progressed events w) = Upload.fileName w.
Proof.
  revert w. induction events as [|evt events IH]; intros w; [repeat split|].
  unfold progressed in *. cbn [fold_left].
  destruct (IH (Upload.onUploadProgress evt w).1)
    as (->&->&->&->&->&->&->&->&->&->).
  unfold Upload.onUploadProgress.
  destruct (Upload.total evt) as [t|]; [destruct (t =? 0)|]; destruct w; repeat split.
Qed.

Lemma upload_started_fields  (w : W) :
  Upload.env (upload_started upload_progress w) = Upload.env w ∧
  Upload.uploading (upload_started upload_progress w) = true ∧
  Upload.errorMsg (upload_started upload_progress w) = Upload.errorMsg w ∧
  Upload.success (upload_started upload_progress w) = Upload.success w ∧
  Upload.toasts (upload_started upload_progress w) = Upload.toasts w ∧
  Upload.scheduled (upload_started upload_progress w) = Upload.scheduled w ∧
  Upload.previewHeaders (upload_started upload_progress w) = Upload.previewHeaders w ∧
  Upload.previewRows (upload_started upload_progress w) = Upload.previewRows w ∧
  Upload.lastFile (upload_started upload_progress w) = Upload.lastFile w ∧
  Upload.fileName (upload_started upload_progress w) = Upload.fileName w.
Proof.
  unfold upload_started.
  destruct (progressed_fields (upload_progress (Upload.env w))
              (Upload.setProgress 1 (Upload.setUploading true w).1).1)
    as (->&->&->&->&->&->&->&->&->&->).
  destruct w. repeat split.
Qed.

Lemma with_env_fields (e : Env) (w : W) :
  Upload.env (Upload.with_env e w) = e ∧
  Upload.uploading (Upload.with_env e w) = Upload.uploading w ∧
  Upload.progress (Upload.with_env e w) = Upload.progress w ∧
  Upload.errorMsg (Upload.with_env e w) = Upload.errorMsg w ∧
  Upload.success (Upload.with_env e w) = Upload.success w ∧
  Upload.toasts (Upload.with_env e w) = Upload.toasts w ∧
  Upload.scheduled (Upload.with_env e w) = Upload.scheduled w ∧
  Upload.previewHeaders (Upload.with_env e w) = Upload.previewHeaders w ∧
  Upload.previewRows (Upload.with_env e w) = Upload.previewRows w ∧
  Upload.lastFile (Upload.with_env e w) = Upload.lastFile w ∧
  Upload.fileName (Upload.with_env e w) = Upload.fileName w.
Proof. destruct w. repeat split. Qed.

Lemma upload_failed_fields (e : Exn) (w : W) :
  Upload.env (upload_failed e w) = Upload.env w ∧
  Upload.uploading (upload_failed e w) = false ∧
  Upload.progress (upload_failed e w) = 0 ∧
  Upload.errorMsg (upload_failed e w) = Upload.errorMsg w ∧
  Upload.success (upload_failed e w) = Upload.success w ∧
  Upload.toasts (upload_failed e w) = (Upload.toasts w ++ [toast_error (upload_message e)])%list ∧
  Upload.scheduled (upload_failed e w) = Upload.scheduled w ∧
  Upload.previewHeaders (upload_failed e w) = Upload.previewHeaders w ∧
  Upload.previewRows (upload_failed e w) = Upload.previewRows w ∧
  Upload.lastFile (upload_failed e w) = Upload.lastFile w ∧
  Upload.fileName (upload_failed e w) = Upload.fileName w.
Proof. destruct w. repeat split. Qed.

Lemma preview_unchecked_fields  (w : W) :
  Upload.env (preview_unchecked w) = Upload.env w ∧
  Upload.uploading (preview_unchecked w) = Upload.uploading w ∧
  Upload.progress (preview_unchecked w) = Upload.progress w ∧
  Upload.errorMsg (preview_unchecked w) = Upload.errorMsg w ∧
  Upload.success (preview_unchecked w) = Upload.success w ∧
  Upload.toasts (preview_unchecked w) = (Upload.toasts w ++ [toast_success (VString "Upload complete. Redirecting...")])%list ∧
  Upload.scheduled (preview_unchecked w) = Upload.scheduled w ∧
  Upload.previewHeaders (preview_unchecked w) = Upload.previewHeaders w ∧
  Upload.previewRows (preview_unchecked w) = Upload.previewRows w ∧
  Upload.lastFile (preview_unchecked w) = Upload.lastFile w ∧
  Upload.fileName (preview_unchecked w) = Upload.fileName w.
Proof. destruct w. repeat split. Qed.

Lemma preview_corrupt_fields  (w : W) :
  Upload.env (preview_corrupt w) = Upload.env w ∧
  Upload.uploading (preview_corrupt w) = Upload.uploading w ∧
  Upload.progress (preview_corrupt w) = Upload.progress w ∧
  Upload.errorMsg (preview_corrupt w) = Upload.errorMsg w ∧
  Upload.success (preview_corrupt w) = Upload.success w ∧
  Upload.toasts (preview_corrupt w) = (Upload.toasts w ++ [toast_error (VString "Data corruption detected! Please re-upload the file.")])%list ∧
  Upload.scheduled (preview_corrupt w) = Upload.scheduled w ∧
  Upload.previewHeaders (preview_corrupt w) = Upload.previewHeaders w ∧
  Upload.previewRows (preview_corrupt w) = Upload.previewRows w ∧
  Upload.lastFile (preview_corrupt w) = Upload.lastFile w ∧
  Upload.fileName (preview_corrupt w) = Upload.fileName w.
Proof. destruct w. repeat split. Qed.

Lemma preview_shown_fields (rawData : Value) (w : W) :
  Upload.env (preview_shown rawData w) = Upload.env w ∧
  Upload.uploading (preview_shown rawData w) = Upload.uploading w ∧
  Upload.progress (preview_shown rawData w) = Upload.progress w ∧
  Upload.errorMsg (preview_shown rawData w) = Upload.errorMsg w ∧
  Upload.success (preview_shown rawData w) = Upload.success w ∧
  Upload.toasts (preview_shown rawData w) = (Upload.toasts w ++ [toast_success (VString "Upload complete with RAW data preserved!")])%list ∧
  Upload.scheduled (preview_shown rawData w) = Upload.scheduled w ∧
  Upload.previewHeaders (preview_shown rawData w) = get rawData "columns" ∧
  Upload.previewRows (preview_shown rawData w) = get rawData "sample_data" ∧
  Upload.lastFile (preview_shown rawData w) = Upload.lastFile w ∧
  Upload.fileName (preview_shown rawData w) = Upload.fileName w.
Proof. destruct w. repeat split. Qed.

Lemma upload_finished_fields (id : Value) (w : W) :
  Upload.env (upload_finished id w) = Upload.env w ∧
  Upload.uploading (upload_finished id w) = Upload.uploading w ∧
  Upload.progress (upload_finished id w) = Upload.progress w ∧
  Upload.errorMsg (upload_finished id w) = Upload.errorMsg w ∧
  Upload.success (upload_finished id w) = true ∧
  Upload.toasts (upload_finished id w) = Upload.toasts w ∧
  Upload.scheduled (upload_finished id w) = (Upload.scheduled w ++ [(700, "/analyze/" +:+ String_ id)])%list ∧
  Upload.previewHeaders (upload_finished id w) = Upload.previewHeaders w ∧
  Upload.previewRows (upload_finished id w) = Upload.previewRows w ∧
  Upload.lastFile (upload_finished id w) = Upload.lastFile w ∧
  Upload.fileName (upload_finished id w) = Upload.fileName w.
Proof. destruct w. repeat split. Qed.

(** A call of [api] changes the state behind [api] and nothing else. *)
Lemma call_spec {A} (m : M Env A) (w : W) :
  Upload.call m w = (Upload.with_env (m (Upload.env w)).1 w, (m (Upload.env w)).2).
Proof. unfold Upload.call, zoom. destruct (m (Upload.env w)). reflexivity. Qed.

Lemma console_fields (l : Level) (text : string) (w : W) :
  Upload.env (Upload.console_ l text w).1 = Upload.env w ∧
  Upload.uploading (Upload.console_ l text w).1 = Upload.uploading w ∧
  Upload.progress (Upload.console_ l text w).1 = Upload.progress w ∧
  Upload.errorMsg (Upload.console_ l text w).1 = Upload.errorMsg w ∧
  Upload.success (Upload.console_ l text w).1 = Upload.success w ∧
  Upload.toasts (Upload.console_ l text w).1 = Upload.toasts w ∧
  Upload.scheduled (Upload.console_ l text w).1 = Upload.scheduled w ∧
  Upload.previewHeaders (Upload.console_ l text w).1 = Upload.previewHeaders w ∧
  Upload.previewRows (Upload.console_ l text w).1 = Upload.previewRows w ∧
  Upload.lastFile (Upload.console_ l text w).1 = Upload.lastFile w ∧
  Upload.fileName (Upload.console_ l text w).1 = Upload.fileName w.
Proof. destruct w. repeat split. Qed.

Ltac use_fields L :=
  let H := fresh in
  pose proof L as H;
  repeat match type of H with
         | _ ∧ _ => let H1 := fresh in destruct H as [H1 H]; rewrite ?H1; clear H1
         end;
  rewrite ?H; clear H.

Ltac page_fields :=
  repeat match goal with
  | |- context [upload_finished ?id ?w] => progress use_fields (upload_finished_fields id w)
  | |- context [upload_failed ?e ?w] => progress use_fields (upload_failed_fields e w)
  | |- context [preview_shown ?d ?w] => progress use_fields (preview_shown_fields d w)
  | |- context [preview_corrupt ?w] => progress use_fields (preview_corrupt_fields w)
  | |- context [preview_unchecked ?w] => progress use_fields (preview_unchecked_fields w)
  | |- context [(Upload.console_ ?l ?t ?w).1] => progress use_fields (console_fields l t w)
  | |- context [Upload.with_env ?e ?w] => progress use_fields (with_env_fields e w)
  | |- context [upload_started ?p ?w] => progress use_fields (upload_started_fields w)
  end.

(** The outcome of [doUpload] in terms of what the two calls answer. *)
Lemma doUpload_outcome (file : File.t) (w : W) :
  doUpload file w =
    let post := api_post "/upload" (FormData [("file", file)]) (upload_headers token)
                  (Upload.env w) in
    let w1 := Upload.with_env post.1 (upload_started upload_progress w) in
    match post.2 with
    | Throw e => (upload_failed e w1, Normal ())
    | Normal response =>
        let id := dataset_id (Response.data response) in
        let preview := api_get ("/datasets/" +:+ String_ id +:+ "/preview") post.1 in
        let w2 := Upload.with_env preview.1 w1 in
        match preview.2 with
        | Throw _ => (upload_finished id (preview_unchecked w2), Normal ())
        | Normal preview =>
            let rawData := Response.data preview in
            if nullish rawData then
              (upload_finished id
                 (preview_unchecked
                    (Upload.console_ LevelLog "RAW DATA PREVIEW:" w2).1), Normal ())
            else if truthy (get rawData "preprocessing_applied") then
              (preview_corrupt w2, Normal ())
            else (upload_finished id (preview_shown rawData w2), Normal ())
        end
    end.
Proof.
  rewrite doUpload_cases, call_spec. cbv zeta.
  rewrite (proj1 (upload_started_fields w)).
  destruct (api_post "/upload" (FormData [("file", file)]) (upload_headers token)
              (Upload.env w)) as [e1 [response|e]]; cbn [fst snd]; [|reflexivity].
  rewrite call_spec, (proj1 (with_env_fields e1 _)).
  destruct (api_get _ e1) as [e2 [preview|e']]; reflexivity.
Qed.

(** X19: [doUpload] always ends normally, and what it does on the network
    is this: one POST to ['/upload'] of the file as the form field
    ['file'], as multipart form data and with the bearer credential when
    the page holds a non-empty token; then, only if that succeeded, one
    GET of ['/datasets/<id>/preview'] for the id read off the upload
    response; nothing else. *)
Theorem doUpload_network (file : File.t) (w : W) :
  let post := api_post "/upload" (FormData [("file", file)]) (upload_headers token)
                (Upload.env w) in
  (doUpload file w).2 = Normal () ∧
  Upload.env (doUpload file w).1
  = match post.2 with
    | Throw _ => post.1
    | Normal response =>
        (api_get ("/datasets/" +:+ String_ (dataset_id (Response.data response))
                  +:+ "/preview") post.1).1
    end ∧
  upload_headers token !! "Content-Type" = Some "multipart/form-data" ∧
  upload_headers token !! "Authorization"
  = match token with
    | Some t => if String.eqb t "" then None else Some ("Bearer " +:+ t)
    | None => None
    end.
Proof.
  cbv zeta. rewrite doUpload_outcome. cbv zeta.
  split; [|split; [|split]].
  - repeat case_match; reflexivity.
  - repeat case_match; cbn [fst snd]; page_fields; reflexivity.
  - unfold upload_headers. repeat case_match; reflexivity.
  - unfold upload_headers, truthy_string.
    destruct token as [t|]; [destruct (String.eqb t "")|]; reflexivity.
Qed.

(** X20: when the POST of the file fails, [doUpload] reports it in one
    error toast (the response's [detail], else the error's message, else
    ['Upload failed']), leaves the uploading state with the progress back
    at 0, and neither marks success nor schedules a navigation. It does
    not set the inline error message, so that after an upload started
    with an empty message the "Retry Upload" button is not rendered. *)
Theorem failed_upload_is_reported (file : File.t) (w : W) (e1 : Env) (e : Exn) :
  api_post "/upload" (FormData [("file", file)]) (upload_headers token) (Upload.env w)
  = (e1, Throw e) →
  let w' := (doUpload file w).1 in
  Upload.toasts w' = (Upload.toasts w ++ [toast_error (upload_message e)])%list ∧
  Upload.uploading w' = false ∧
  Upload.progress w' = 0 ∧
  Upload.success w' = Upload.success w ∧
  Upload.scheduled w' = Upload.scheduled w ∧
  Upload.errorMsg w' = Upload.errorMsg w ∧
  (Upload.errorMsg w = "" → UploadView.retry_button w' = None).
Proof.
  intros Hpost. cbv zeta. rewrite doUpload_outcome. cbv zeta. rewrite Hpost.
  cbn [fst snd]. unfold UploadView.retry_button. page_fields.
  repeat split. intros ->. rewrite andb_false_r. reflexivity.
Qed.

(** X21: an upload whose preview cannot be read still counts as done. When
    the POST succeeds and the GET of the preview fails, or answers with
    no data, [doUpload] shows the success toast 'Upload complete.
    Redirecting...', marks success and schedules the navigation to
    ['/analyze/<id>'] in 700 ms; the preview on display stays as it was
    and the page stays in its uploading state. *)
Theorem unreadable_preview_is_tolerated (file : File.t) (w : W) (e1 : Env)
    (response : Response.t) :
  api_post "/upload" (FormData [("file", file)]) (upload_headers token) (Upload.env w)
  = (e1, Normal response) →
  let id := dataset_id (Response.data response) in
  match (api_get ("/datasets/" +:+ String_ id +:+ "/preview") e1).2 with
  | Throw _ => True
  | Normal preview => nullish (Response.data preview) = true
  end →
  let w' := (doUpload file w).1 in
  Upload.toasts w'
  = (Upload.toasts w ++ [toast_success (VString "Upload complete. Redirecting...")])%list ∧
  Upload.success w' = true ∧
  Upload.scheduled w' = (Upload.scheduled w ++ [(700, "/analyze/" +:+ String_ id)])%list ∧
  Upload.uploading w' = true ∧
  Upload.previewHeaders w' = Upload.previewHeaders w ∧
  Upload.previewRows w' = Upload.previewRows w ∧
  Upload.errorMsg w' = Upload.errorMsg w.
Proof.
  intros Hpost id Hget. cbv zeta. rewrite doUpload_outcome. cbv zeta. rewrite Hpost.
  cbn [fst snd]. fold id.
  destruct (api_get ("/datasets/" +:+ String_ id +:+ "/preview") e1)
    as [e2 [preview|e']]; cbn [fst snd] in *.
  - rewrite Hget. cbn [fst snd]. page_fields. repeat split.
  - page_fields. repeat split.
Qed.

(** X22: when the preview of the uploaded dataset says
    [preprocessing_applied], [doUpload] shows the error toast 'Data
    corruption detected! Please re-upload the file.' and returns at once:
    success is not marked, no navigation is scheduled, the preview on
    display is not replaced, and the page is left in its uploading state,
    which hides the "Retry Upload" button. *)
Theorem preprocessed_upload_is_left_uploading (file : File.t) (w : W) (e1 e2 : Env)
    (response preview : Response.t) :
  api_post "/upload" (FormData [("file", file)]) (upload_headers token) (Upload.env w)
  = (e1, Normal response) →
  api_get ("/datasets/" +:+ String_ (dataset_id (Response.data response)) +:+ "/preview")
    e1 = (e2, Normal preview) →
  nullish (Response.data preview) = false →
  truthy (get (Response.data preview) "preprocessing_applied") = true →
  let w' := (doUpload file w).1 in
  Upload.toasts w'
  = (Upload.toasts w
     ++ [toast_error (VString "Data corruption detected! Please re-upload the file.")])%list ∧
  Upload.success w' = Upload.success w ∧
  Upload.scheduled w' = Upload.scheduled w ∧
  Upload.uploading w' = true ∧
  Upload.previewHeaders w' = Upload.previewHeaders w ∧
  Upload.previewRows w' = Upload.previewRows w ∧
  UploadView.retry_button w' = None.
Proof.
  intros Hpost Hget Hdata Hflag. cbv zeta. rewrite doUpload_outcome. cbv zeta.
  rewrite Hpost. cbn [fst snd]. rewrite Hget. cbn [fst snd]. rewrite Hdata, Hflag.
  cbn [fst snd]. unfold UploadView.retry_button. page_fields.
  repeat split. rewrite orb_true_r. reflexivity.
Qed.

(** X23: when the POST succeeds and the preview of the dataset comes back
    without [preprocessing_applied], [doUpload] replaces the preview on
    display by the server's [columns] and [sample_data], shows the toast
    'Upload complete with RAW data preserved!', marks success and
    schedules the navigation to ['/analyze/<id>'] in 700 ms. *)
Theorem clean_upload_shows_server_preview (file : File.t) (w : W) (e1 e2 : Env)
    (response preview : Response.t) :
  api_post "/upload" (FormData [("file", file)]) (upload_headers token) (Upload.env w)
  = (e1, Normal response) →
  let id := dataset_id (Response.data response) in
  api_get ("/datasets/" +:+ String_ id +:+ "/preview") e1 = (e2, Normal preview) →
  nullish (Response.data preview) = false →
  truthy (get (Response.data preview) "preprocessing_applied") = false →
  let w' := (doUpload file w).1 in
  Upload.previewHeaders w' = get (Response.data preview) "columns" ∧
  Upload.previewRows w' = get (Response.data preview) "sample_data" ∧
  Upload.toasts w'
  = (Upload.toasts w
     ++ [toast_success (VString "Upload complete with RAW data preserved!")])%list ∧
  Upload.success w' = true ∧
  Upload.scheduled w' = (Upload.scheduled w ++ [(700, "/analyze/" +:+ String_ id)])%list ∧
  Upload.errorMsg w' = Upload.errorMsg w.
Proof.
  intros Hpost id Hget Hdata Hflag. cbv zeta. rewrite doUpload_outcome. cbv zeta.
  rewrite Hpost. cbn [fst snd]. fold id. rewrite Hget. cbn [fst snd].
  rewrite Hdata, Hflag. cbn [fst snd]. page_fields. repeat split.
Qed.

(** X24: an upload answer that names no dataset ([dataset.id], [id] and
    [dataset_id] all missing or null) is taken to be about dataset 1:
    the preview asked for is ['/datasets/1/preview'], and the navigation,
    if one is scheduled, goes to ['/analyze/1']. *)
Theorem upload_without_id_means_dataset_1 (file : File.t) (w : W) (e1 : Env)
    (response : Response.t) :
  api_post "/upload" (FormData [("file", file)]) (upload_headers token) (Upload.env w)
  = (e1, Normal response) →
  nullish (opt_get (opt_get (Response.data response) "dataset") "id") = true →
  nullish (opt_get (Response.data response) "id") = true →
  nullish (opt_get (Response.data response) "dataset_id") = true →
  let w' := (doUpload file w).1 in
  Upload.env w' = (api_get "/datasets/1/preview" e1).1 ∧
  (Upload.scheduled w' = Upload.scheduled w ∨
   Upload.scheduled w' = (Upload.scheduled w ++ [(700, "/analyze/1")])%list).
Proof.
  intros Hpost H1 H2 H3. cbv zeta. rewrite doUpload_outcome. cbv zeta.
  rewrite Hpost. cbn [fst snd].
  assert (dataset_id (Response.data response) = VNumber 1) as ->.
  { unfold dataset_id, coalesce. rewrite H1, H2, H3. reflexivity. }
  change (String_ (VNumber 1)) with "1".
  change ("/datasets/" +:+ "1" +:+ "/preview") with "/datasets/1/preview".
  change ("/analyze/" +:+ "1") with "/analyze/1".
  destruct (api_get "/datasets/1/preview" e1) as [e2 [preview|e']]; cbn [fst snd].
  - destruct (nullish (Response.data preview));
      [|destruct (truthy (get (Response.data preview) "preprocessing_applied"))];
      cbn [fst snd]; page_fields; split; auto.
  - page_fields. split; auto.
Qed.

End DoUpload.

(** *** The "Retry Upload" button *)

Section RetryButton.

Context {Env : Type}.
Variable api_post : string → Body → gmap string string → M Env Response.t.
Variable api_get : string → M Env Response.t.
Variable token : option string.
Variable upload_progress : Env → list Upload.ProgressEvent.
Variable JSON_parse : string → option Value.

Abbreviation W := (Upload.World Env).
Abbreviation doUpload := (Upload.doUpload api_post api_get token upload_progress).
Abbreviation onFiles :=
  (Upload.onFiles api_post api_get token upload_progress JSON_parse).
Abbreviation click_retry :=
  (UploadView.click_retry api_post api_get token upload_progress).

(** What [onFiles] leaves of a file that did not pass its checks. *)
Lemma onFiles_turned_away (file : File.t) (others : list File.t) (w : W) :
  passes_checks JSON_parse file w = false →
  ∃ message k d,
    message ≠ "" ∧
    ((onFiles (Some (file :: others)) w).1
     = turn_away message (after_waits k (begin_file file w)) ∨
     (onFiles (Some (file :: others)) w).1
     = turn_away message (show_detected d (after_waits k (begin_file file w)))).
Proof.
  unfold passes_checks. rewrite onFiles_cases. intros Hno.
  destruct (Upload.validateFileBasics file) as [basicError|] eqn:Hbasic.
  - exists basicError, 0%nat, {| Upload.headers := []; Upload.rows := [] |}.
    split; [eapply validateFileBasics_nonempty; eassumption|]. left. reflexivity.
  - destruct (detectColumns_loop_frame JSON_parse file 3 3 0 (begin_file file w))
      as (k & _ & Hw1 & _).
    fold (Upload.detectColumns JSON_parse file 3 (begin_file file w)) in Hw1.
    destruct (Upload.detectColumns JSON_parse file 3 (begin_file file w))
      as [w1 [d|e]]; cbn [fst snd] in *; subst w1.
    + destruct (Upload.validateStructure (Upload.headers d) (Upload.rows d))
        as [structError|] eqn:Hstruct; [|discriminate].
      exists structError, k, d.
      split; [eapply validateStructure_nonempty; eassumption|]. right. reflexivity.
    + exists (detection_message e), k, {| Upload.headers := []; Upload.rows := [] |}.
      split; [apply detection_message_nonempty|]. left. reflexivity.
Qed.

(** X25: the "Retry Upload" button skips the checks. After [onFiles] has
    turned a named file away, whichever check it failed (type, size,
    column detection, preview structure), the page not being in its
    uploading state, the button is rendered for that very file, and a
    click on it runs [doUpload] on the file: the file goes to the
    server unchecked. *)
Theorem retry_uploads_a_rejected_file (file : File.t) (others : list File.t) (w : W) :
  passes_checks JSON_parse file w = false →
  Upload.uploading w = false →
  File.name file ≠ "" →
  let w' := (onFiles (Some (file :: others)) w).1 in
  UploadView.retry_button w' = Some file ∧
  click_retry w' = doUpload file w'.
Proof.
  intros Hno Hidle Hname. cbv zeta.
  destruct (onFiles_turned_away file others w Hno) as (message & k & d & Hne & Hw').
  assert (UploadView.retry_button (onFiles (Some (file :: others)) w).1 = Some file)
    as Hbutton.
  { assert (truthy_string message = true) as Hm.
    { unfold truthy_string. destruct (String.eqb_spec message ""); [contradiction|].
      reflexivity. }
    assert (truthy_string (File.name file) = true) as Hn.
    { unfold truthy_string. destruct (String.eqb_spec (File.name file) "");
        [contradiction|]. reflexivity. }
    unfold UploadView.retry_button.
    destruct Hw' as [-> | ->].
    - destruct (turn_away_fields message (after_waits k (begin_file file w)))
        as (_&->&_&_&_&_&_&->&->&->).
      destruct (after_waits_fields k (begin_file file w))
        as (_&->&_&->&_&_&_&->&_).
      destruct (begin_file_fields file w) as (_&->&_&_&_&_&_&_&->&->).
      rewrite Hidle, Hm, Hn. reflexivity.
    - destruct (turn_away_fields message
                  (show_detected d (after_waits k (begin_file file w))))
        as (_&->&_&_&_&_&_&->&->&->).
      destruct (show_detected_fields d (after_waits k (begin_file file w)))
        as (_&->&_&_&_&_&_&_&->&->).
      destruct (after_waits_fields k (begin_file file w))
        as (_&->&_&->&_&_&_&->&_).
      destruct (begin_file_fields file w) as (_&->&_&_&_&_&_&_&->&->).
      rewrite Hidle, Hm, Hn. reflexivity. }
  split; [exact Hbutton|].
  unfold UploadView.click_retry, bind, gets. rewrite Hbutton.
  apply doUploadWithRetry_first_round.
Qed.

(** X26: the button is not there for the failure it is named after. When
    a file passes the checks and its POST then fails, [onFiles] ends
    with the failure in one error toast, the uploading state left and
    the inline error message still empty, so that "Retry Upload" is not
    rendered. *)
Theorem retry_not_offered_after_failed_upload (file : File.t) (others : list File.t)
    (w : W) (e1 : Env) (e : Exn) :
  passes_checks JSON_parse file w = true →
  api_post "/upload" (FormData [("file", file)]) (upload_headers token) (Upload.env w)
  = (e1, Throw e) →
  let r := onFiles (Some (file :: others)) w in
  r.2 = Normal () ∧
  Upload.toasts r.1 = (Upload.toasts w ++ [toast_error (upload_message e)])%list ∧
  Upload.uploading r.1 = false ∧
  Upload.errorMsg r.1 = "" ∧
  Upload.success r.1 = false ∧
  Upload.scheduled r.1 = Upload.scheduled w ∧
  UploadView.retry_button r.1 = None.
Proof.
  unfold passes_checks. intros Hyes Hpost. cbv zeta. rewrite onFiles_cases.
  destruct (Upload.validateFileBasics file); [discriminate|].
  destruct (detectColumns_loop_frame JSON_parse file 3 3 0 (begin_file file w))
    as (k & _ & Hw1 & _).
  fold (Upload.detectColumns JSON_parse file 3 (begin_file file w)) in Hw1.
  destruct (Upload.detectColumns JSON_parse file 3 (begin_file file w))
    as [w1 [d|e0]]; cbn [fst snd] in *; [|discriminate]. subst w1.
  destruct (Upload.validateStructure (Upload.headers d) (Upload.rows d));
    [discriminate|].
  rewrite doUploadWithRetry_first_round, doUpload_outcome. cbv zeta.
  set (w0 := show_detected d (after_waits k (begin_file file w))).
  assert (Upload.env w0 = Upload.env w ∧ Upload.toasts w0 = Upload.toasts w ∧
          Upload.errorMsg w0 = "" ∧ Upload.success w0 = false ∧
          Upload.scheduled w0 = Upload.scheduled w) as (Henv & Ht & Hm & Hs & Hsch).
  { unfold w0.
    destruct (show_detected_fields d (after_waits k (begin_file file w)))
      as (->&_&_&->&->&_&->&->&_).
    destruct (after_waits_fields k (begin_file file w))
      as (->&_&_&_&_&_&->&_&->&->&->&_).
    destruct (begin_file_fields file w) as (->&_&_&->&->&_&->&->&_).
    repeat split. }
  rewrite Henv, Hpost. cbn [fst snd]. unfold UploadView.retry_button.
  destruct (upload_failed_fields e
              (Upload.with_env e1 (upload_started upload_progress w0)))
    as (_&->&_&->&->&->&->&_).
  destruct (with_env_fields e1 (upload_started upload_progress w0))
    as (_&_&_&->&->&->&->&_).
  destruct (upload_started_fields upload_progress w0) as (_&_&->&->&->&->&_).
  rewrite Ht, Hm, Hs, Hsch, andb_false_r. repeat split.
Qed.

(** X27: [parsePreview] never throws and puts on display what one round
    of column detection finds for the file: the headers and rows of a
    readable CSV file with a non-blank line or of a JSON file that
    parses; and nothing ([null]) for a CSV file without such a line, for
    a file that cannot be read or parsed, and for any other extension. *)
Theorem parsePreview_shows_what_detection_finds (file : File.t) (w : W) :
  let r := UploadView.parsePreview JSON_parse file w in
  let lower := toLowerCase (File.name file) in
  r.2 = Normal () ∧
  (Upload.previewHeaders r.1, Upload.previewRows r.1)
  = match (parse_round JSON_parse file w).2 with
    | Normal d =>
        if (0 <? length (Upload.headers d))%nat
           || negb (endsWith ".csv" lower) && endsWith ".json" lower
        then (VArray (VString <$> Upload.headers d), VArray (Upload.rows d))
        else (VNull, VNull)
    | Throw _ => (VNull, VNull)
    end ∧
  Upload.env r.1 = Upload.env w ∧
  Upload.errorMsg r.1 = Upload.errorMsg w ∧
  Upload.toasts r.1 = Upload.toasts w ∧
  Upload.uploading r.1 = Upload.uploading w ∧
  Upload.lastFile r.1 = Upload.lastFile w.
Proof.
  cbv zeta.
  unfold UploadView.parsePreview, UploadView.simpleCsvPreview, UploadView.jsonPreview,
    parse_round, Upload.parseCsvHeadersRows, Upload.parseJsonHeadersRows,
    Upload.file_text, Upload.csv_headers_rows.
  destruct w.
  destruct (endsWith ".csv" (toLowerCase (File.name file)));
    [|destruct (endsWith ".json" (toLowerCase (File.name file)))].
  - destruct (File.text file) as [text|m]; [|repeat split].
    destruct (take 6 (List.filter truthy_string (split_lines text)))
      as [|first more] eqn:Hlines.
    + norm_upload. rewrite Hlines. repeat split.
    + norm_upload. rewrite Hlines. cbn [Upload.headers Upload.rows].
      pose proof (split_length "," first) as Hlen.
      destruct (split "," first) as [|h hs]; [simpl in Hlen; lia|].
      repeat split.
  - destruct (File.text file) as [text|m]; [|repeat split].
    destruct (JSON_parse text) as [json|] eqn:Hjson.
    + norm_upload. rewrite Hjson. cbn [negb andb]. rewrite orb_true_r. repeat split.
    + norm_upload. rewrite Hjson. repeat split.
  - repeat split.
Qed.

End RetryButton.

(** *** The selection on the Analyze page *)

Lemma without_spec (column c : string) (prev : list string) :
  c ∈ Analyze.without column prev ↔ c ∈ prev ∧ c ≠ column.
Proof.
  unfold Analyze.without. rewrite !list_elem_of_In, List.filter_In, <- list_elem_of_In.
  destruct (String.eqb_spec c column); simpl; intuition congruence.
Qed.

Lemma without_NoDup (column : string) (prev : list string) :
  NoDup prev → NoDup (Analyze.without column prev).
Proof.
  unfold Analyze.without. rewrite !NoDup_ListNoDup. apply List.NoDup_filter.
Qed.

Lemma without_absent (column : string) (prev : list string) :
  column ∉ prev → Analyze.without column prev = prev.
Proof.
  unfold Analyze.without. induction prev as [|c prev IH]; intros Hnot; [reflexivity|].
  rewrite not_elem_of_cons in Hnot. destruct Hnot as [Hne Hnot]. simpl.
  destruct (String.eqb_spec c column); [congruence|]. simpl. rewrite IH; auto.
Qed.

Lemma includes_spec (column : string) (prev : list string) :
  Analyze.includes column prev = true ↔ column ∈ prev.
Proof.
  unfold Analyze.includes. rewrite existsb_exists, list_elem_of_In. split.
  - intros (c & Hin & Heq). apply String.eqb_eq in Heq. subst. exact Hin.
  - intros Hin. exists column. split; [exact Hin | apply String.eqb_refl].
Qed.

Lemma click_keeps_NoDup (c : Analyze.Click) (s : Analyze.State) :
  NoDup (Analyze.selectedInputs s) →
  NoDup (Analyze.selectedInputs (Analyze.click c s).1).
Proof.
  intros Hnodup. destruct s as [inputs output toasts0]. simpl in *.
  destruct c as [column|column|target columns]; simpl.
  - unfold Analyze.handleInputToggle, bind, gets. simpl.
    destruct (String.eqb column output); simpl; [exact Hnodup|].
    destruct (Analyze.includes column inputs) eqn:Hinc.
    + apply without_NoDup, Hnodup.
    + apply NoDup_app. split; [exact Hnodup|]. split; [|apply NoDup_singleton].
      intros x Hx Hx'. apply list_elem_of_singleton in Hx'. subst x.
      apply includes_spec in Hx. congruence.
  - apply without_NoDup, Hnodup.
  - unfold Analyze.analyzeDataset_select.
    destruct (truthy_string target && columns); exact Hnodup.
Qed.

Lemma handler_keeps_target_out (c : Analyze.Click) (s : Analyze.State) :
  (∀ target columns, c ≠ Analyze.Analysed target columns) →
  Analyze.selectedOutput s ∉ Analyze.selectedInputs s →
  Analyze.selectedOutput (Analyze.click c s).1
    ∉ Analyze.selectedInputs (Analyze.click c s).1.
Proof.
  intros Hhandler Hout. destruct s as [inputs output toasts0]. simpl in *.
  destruct c as [column|column|target columns]; simpl.
  - unfold Analyze.handleInputToggle, bind, gets. simpl.
    destruct (String.eqb_spec column output) as [->|Hne]; simpl; [exact Hout|].
    destruct (Analyze.includes column inputs) eqn:Hinc.
    + rewrite without_spec. tauto.
    + rewrite not_elem_of_app, not_elem_of_cons. split; [exact Hout|].
      split; [congruence | apply not_elem_of_nil].
  - rewrite without_spec. tauto.
  - exfalso. exact (Hhandler target columns eq_refl).
Qed.

(** X28: the selection on the Analyze page under its three writers.
    No feature is ever selected twice, whatever the sequence of feature
    toggles ([handleInputToggle]), target choices ([handleTargetSelect])
    and finished analyses ([analyzeDataset]). The two handlers keep the
    target column out of the selected features: if it is not among them
    before, it is not after any sequence of toggles and target choices,
    and choosing a column as the target deselects it as a feature. The
    analysis does not: when it suggests a column that is a selected
    feature, it makes that column the target and leaves it selected, and
    a click on its checkbox then only shows an error toast. *)
Theorem handlers_keep_target_out_of_inputs (cs : list Analyze.Click)
    (s : Analyze.State) :
  NoDup (Analyze.selectedInputs s) →
  let s' := Analyze.clicks cs s in
  NoDup (Analyze.selectedInputs s') ∧
  (Analyze.selectedOutput s ∉ Analyze.selectedInputs s →
   (∀ target columns, Analyze.Analysed target columns ∉ cs) →
   Analyze.selectedOutput s' ∉ Analyze.selectedInputs s') ∧
  (∀ column,
     Analyze.selectedOutput (Analyze.handleTargetSelect column s').1 = column ∧
     column ∉ Analyze.selectedInputs (Analyze.handleTargetSelect column s').1) ∧
  (∀ target,
     target ≠ "" →
     target ∈ Analyze.selectedInputs s' →
     let s'' := (Analyze.analyzeDataset_select target true s').1 in
     Analyze.selectedOutput s'' = target ∧
     target ∈ Analyze.selectedInputs s'' ∧
     Analyze.selectedInputs s'' = Analyze.selectedInputs s' ∧
     (Analyze.handleInputToggle target s'').1
     = Analyze.mkState (Analyze.selectedInputs s'') target
         (Analyze.toasts s''
          ++ [toast_error
                (VString "Cannot select target column as input feature")])%list).
Proof.
  intros Hnodup. cbv zeta. split; [|split; [|split]].
  - revert s Hnodup. unfold Analyze.clicks.
    induction cs as [|c cs IH]; intros s Hnodup; [exact Hnodup|].
    cbn [fold_left]. apply IH, click_keeps_NoDup, Hnodup.
  - revert s Hnodup. unfold Analyze.clicks.
    induction cs as [|c cs IH]; intros s Hnodup Hout Hhandlers; [exact Hout|].
    cbn [fold_left]. apply IH.
    + apply click_keeps_NoDup, Hnodup.
    + apply handler_keeps_target_out; [|exact Hout].
      intros target columns ->. apply (Hhandlers target columns), elem_of_cons.
      left. reflexivity.
    + intros target columns Hin. apply (Hhandlers target columns), elem_of_cons.
      right. exact Hin.
  - intros column. destruct (Analyze.clicks cs s) as [inputs output toasts0]. simpl.
    split; [reflexivity|]. rewrite without_spec. tauto.
  - intros target Hne Hin. destruct (Analyze.clicks cs s) as [inputs output toasts0].
    simpl in *. unfold Analyze.analyzeDataset_select, truthy_string.
    destruct (String.eqb_spec target ""); [contradiction|]. simpl.
    split; [reflexivity|]. split; [exact Hin|]. split; [reflexivity|].
    unfold Analyze.handleInputToggle, bind, gets. simpl.
    rewrite String.eqb_refl. reflexivity.
Qed.

(** X29: a click on a feature checkbox toggles that feature and no
    other: a feature that is not the target is selected after the click
    exactly when it was not before, every other column keeps its state,
    and a second click on a feature just selected restores the selection
    as it was. *)
Theorem toggle_flips_one_feature (column : string) (s : Analyze.State) :
  column ≠ Analyze.selectedOutput s →
  let s' := (Analyze.handleInputToggle column s).1 in
  (column ∈ Analyze.selectedInputs s' ↔ column ∉ Analyze.selectedInputs s) ∧
  (∀ c, c ≠ column →
        (c ∈ Analyze.selectedInputs s' ↔ c ∈ Analyze.selectedInputs s)) ∧
  Analyze.selectedOutput s' = Analyze.selectedOutput s ∧
  Analyze.toasts s' = Analyze.toasts s ∧
  (column ∉ Analyze.selectedInputs s →
   (Analyze.handleInputToggle column s').1 = s).
Proof.
  intros Hne. cbv zeta. destruct s as [inputs output toasts0]. simpl in *.
  unfold Analyze.handleInputToggle, bind, gets. simpl.
  destruct (String.eqb_spec column output) as [|_]; [contradiction|]. simpl.
  destruct (Analyze.includes column inputs) eqn:Hinc.
  - apply includes_spec in Hinc. split; [|split; [|split; [|split]]]; try reflexivity.
    + rewrite without_spec. tauto.
    + intros c Hc. rewrite without_spec. tauto.
    + contradiction.
  - assert (column ∉ inputs) as Hnot.
    { intros Hin. apply includes_spec in Hin. congruence. }
    split; [|split; [|split; [|split]]]; try reflexivity.
    + rewrite elem_of_app, list_elem_of_singleton. tauto.
    + intros c Hc. rewrite elem_of_app, list_elem_of_singleton. tauto.
    + intros _. destruct (String.eqb_spec column output) as [|_]; [contradiction|].
      simpl.
      assert (Analyze.includes column (inputs ++ [column])%list = true) as ->.
      { apply includes_spec. rewrite elem_of_app, list_elem_of_singleton. tauto. }
      unfold Analyze.without. rewrite List.filter_app. simpl.
      rewrite String.eqb_refl. simpl. rewrite app_nil_r.
      fold (Analyze.without column inputs). rewrite without_absent by exact Hnot.
      reflexivity.
Qed.

(* ===================================================================== *)
(** ** Concrete runs of the further properties                            *)
(* ===================================================================== *)

Lemma login_then_reload_witness :
  let w' := (login backend "alice" "secret123" fresh).1 in
  get (VObject [("access_token", VString jwt); ("token_type", VString "bearer")])
      "access_token" = VString jwt ∧
  token w' = Some jwt ∧
  token (mount (localStorage w') None) = Some jwt.
Proof.
  split; [reflexivity|].
  exact (login_then_reload backend "alice" "secret123" fresh 200 _ jwt None
           eq_refl eq_refl).
Defined.

Lemma login_without_token_witness :
  ∃ w' message,
    login tokenless_backend "alice" "secret123" fresh = (w', Throw (TypeError message)) ∧
    token w' = None ∧ localStorage w' = ∅.
Proof.
  destruct (login_without_token tokenless_backend "alice" "secret123" fresh 200
              (VObject [("detail", VString "ok")]) eq_refl)
    as (w' & message & Hrun & Htoken & Hstorage & _).
  { intros t. vm_compute. discriminate. }
  exists w', message. split; [exact Hrun|]. split; [exact Htoken | exact Hstorage].
Defined.

Lemma instance_success_witness :
  ∃ w',
    instance backend DEFAULT_BASE_URL (Some jwt) list_datasets fresh
    = (w', Normal (Response.mk 200
                     (VObject [("access_token", VString jwt);
                               ("token_type", VString "bearer")])
                     (dispatched (Some jwt) list_datasets))) ∧
    length (wire w') = 1%nat ∧ toasts w' = [] ∧ loadingCount w' = 0.
Proof.
  destruct (instance_success backend DEFAULT_BASE_URL (Some jwt) list_datasets fresh
              200 _ eq_refl)
    as (w' & Hrun & Hwire & Htoasts & _ & _ & _ & Hcount).
  exists w'. split; [exact Hrun|]. split; [rewrite Hwire; reflexivity|].
  split; [exact Htoasts|]. apply Hcount. vm_compute. discriminate.
Defined.

Lemma api_after_unauthorized_witness :
  let w := mount {[ "token" := jwt ]} (Some "/dashboard") in
  status_of session_expired = Some 401 ∧
  token w = Some jwt ∧
  ∃ w' api,
    useMemo_api backend (on_rejected session_expired w).1 = (w', Normal api) ∧
    api_token api = None.
Proof.
  split; [reflexivity|]. split; [reflexivity|].
  destruct (api_after_unauthorized backend session_expired
              (mount {[ "token" := jwt ]} (Some "/dashboard")) jwt eq_refl)
    as (w' & api & Hrun & Hnone & _).
  { discriminate. }
  exists w', api. split; [exact Hrun | exact Hnone].
Defined.

Lemma excel_is_never_uploaded_witness :
  Upload.validateFileBasics workbook = None ∧
  ∃ w',
    Upload.onFiles (server_post (Normal stored_as_7)) (server_get (Normal raw_preview))
      (Some jwt) (λ _, []) (λ _, None) (Some [workbook]) idle_page = (w', Normal ()) ∧
    Upload.errorMsg w' = "Could not detect columns after multiple attempts" ∧
    Upload.env w' = 0%nat.
Proof.
  assert (File.size workbook ≤ Upload.MAX_BYTES) as Hsize
    by (vm_compute; discriminate).
  destruct (excel_is_never_uploaded (server_post (Normal stored_as_7))
              (server_get (Normal raw_preview)) (Some jwt) (λ _, []) (λ _, None)
              workbook [] idle_page eq_refl eq_refl eq_refl Hsize)
    as (Hbasic & w' & Hrun & Haway & _).
  split; [exact Hbasic|]. exists w'. split; [exact Hrun|].
  destruct Haway as (Henv & _ & _ & _ & _ & Hmsg & _).
  split; [exact Hmsg | exact Henv].
Defined.

Lemma unparsable_file_is_turned_away_witness :
  Upload.validateFileBasics unreadable_csv = None ∧
  ∃ w',
    Upload.onFiles (server_post (Normal stored_as_7)) (server_get (Normal raw_preview))
      (Some jwt) (λ _, []) (λ _, None) (Some [unreadable_csv]) idle_page
    = (w', Normal ()) ∧
    Upload.errorMsg w' = "The requested file could not be read" ∧
    Upload.env w' = 0%nat.
Proof.
  split; [reflexivity|].
  destruct (unparsable_file_is_turned_away (server_post (Normal stored_as_7))
              (server_get (Normal raw_preview)) (Some jwt) (λ _, []) (λ _, None)
              unreadable_csv [] idle_page
              (Error "The requested file could not be read") eq_refl eq_refl)
    as (w' & Hrun & Haway & _).
  exists w'. split; [exact Hrun|].
  destruct Haway as (Henv & _ & _ & _ & _ & Hmsg & _).
  split; [exact Hmsg | exact Henv].
Defined.

Lemma header_only_csv_is_turned_away_witness :
  List.filter truthy_string (split_lines ("x,y" +:+ LF)) = ["x,y"] ∧
  ∃ w',
    Upload.onFiles (server_post (Normal stored_as_7)) (server_get (Normal raw_preview))
      (Some jwt) (λ _, []) (λ _, None) (Some [header_only_csv]) idle_page
    = (w', Normal ()) ∧
    Upload.errorMsg w' = "No sample rows found in the file" ∧
    Upload.previewHeaders w' = VArray [VString "x"; VString "y"] ∧
    Upload.env w' = 0%nat.
Proof.
  split; [reflexivity|].
  destruct (header_only_csv_is_turned_away (server_post (Normal stored_as_7))
              (server_get (Normal raw_preview)) (Some jwt) (λ _, []) (λ _, None)
              header_only_csv [] idle_page ("x,y" +:+ LF) "x,y"
              eq_refl eq_refl eq_refl eq_refl)
    as (w' & Hrun & Haway & _ & Hheaders & _).
  exists w'. split; [exact Hrun|].
  destruct Haway as (Henv & _ & _ & _ & _ & Hmsg & _).
  split; [exact Hmsg|]. split; [exact Hheaders | exact Henv].
Defined.

(** Beyond the bound the double computation is off by one: the product
    is rounded and the quotient lands on the half. *)
Example percent_in_doubles :
  Upload.percent 97108866965177 281474976710658 = 35 ∧
  (2 * (97108866965177 * 100) + 281474976710658) / (2 * 281474976710658) = 34.
Proof. split; vm_compute; reflexivity. Qed.

Lemma progress_is_a_percentage_witness :
  Upload.progress
    (Upload.onUploadProgress {| Upload.loaded := 1; Upload.total := Some 3 |}
       idle_page).1 = 33.
Proof.
  assert (0 < 3) as Htotal by lia.
  assert (3 < 2 ^ 46) as Hbound by reflexivity.
  assert (0 ≤ 1 ≤ 3) as Hloaded by lia.
  destruct (progress_is_a_percentage 1 3 idle_page Htotal Hbound Hloaded)
    as (_ & Hnear & _).
  lia.
Defined.

Lemma failed_upload_is_reported_witness :
  let w' := (Upload.doUpload (server_post (Throw offline))
               (server_get (Normal raw_preview)) (Some jwt) (λ _, [])
               small_csv idle_page).1 in
  Upload.toasts w' = [toast_error (VString "Network Error")] ∧
  Upload.uploading w' = false ∧
  UploadView.retry_button w' = None.
Proof.
  destruct (failed_upload_is_reported (server_post (Throw offline))
              (server_get (Normal raw_preview)) (Some jwt) (λ _, [])
              small_csv idle_page 1%nat offline eq_refl)
    as (Htoasts & Hup & _ & _ & _ & _ & Hbutton).
  split; [exact Htoasts|]. split; [exact Hup | exact (Hbutton eq_refl)].
Defined.

Lemma unreadable_preview_is_tolerated_witness :
  let w' := (Upload.doUpload (server_post (Normal stored_as_7))
               (server_get (Throw offline)) (Some jwt) (λ _, [])
               small_csv idle_page).1 in
  Upload.success w' = true ∧
  Upload.scheduled w' = [(700, "/analyze/7")].
Proof.
  destruct (unreadable_preview_is_tolerated (server_post (Normal stored_as_7))
              (server_get (Throw offline)) (Some jwt) (λ _, [])
              small_csv idle_page 1%nat stored_as_7 eq_refl I)
    as (_ & Hsuccess & Hscheduled & _).
  split; [exact Hsuccess | exact Hscheduled].
Defined.

Lemma preprocessed_upload_is_left_uploading_witness :
  let w' := (Upload.doUpload (server_post (Normal stored_as_7))
               (server_get (Normal preprocessed_preview)) (Some jwt) (λ _, [])
               small_csv idle_page).1 in
  truthy (get (Response.data preprocessed_preview) "preprocessing_applied") = true ∧
  Upload.success w' = false ∧
  Upload.scheduled w' = [] ∧
  Upload.uploading w' = true.
Proof.
  split; [reflexivity|].
  destruct (preprocessed_upload_is_left_uploading (server_post (Normal stored_as_7))
              (server_get (Normal preprocessed_preview)) (Some jwt) (λ _, [])
              small_csv idle_page 1%nat 2%nat stored_as_7 preprocessed_preview
              eq_refl eq_refl eq_refl eq_refl)
    as (_ & Hsuccess & Hscheduled & Hup & _).
  split; [exact Hsuccess|]. split; [exact Hscheduled | exact Hup].
Defined.

Lemma clean_upload_shows_server_preview_witness :
  let w' := (Upload.doUpload (server_post (Normal stored_as_7))
               (server_get (Normal raw_preview)) (Some jwt) (λ _, [])
               small_csv idle_page).1 in
  truthy (get (Response.data raw_preview) "preprocessing_applied") = false ∧
  Upload.previewHeaders w' = VArray [VString "x"; VString "y"] ∧
  Upload.success w' = true ∧
  Upload.scheduled w' = [(700, "/analyze/7")].
Proof.
  split; [reflexivity|].
  destruct (clean_upload_shows_server_preview (server_post (Normal stored_as_7))
              (server_get (Normal raw_preview)) (Some jwt) (λ _, [])
              small_csv idle_page 1%nat 2%nat stored_as_7 raw_preview
              eq_refl eq_refl eq_refl eq_refl)
    as (Hheaders & _ & _ & Hsuccess & Hscheduled & _).
  split; [exact Hheaders|]. split; [exact Hsuccess | exact Hscheduled].
Defined.

Lemma upload_without_id_means_dataset_1_witness :
  let w' := (Upload.doUpload (server_post (Normal stored_unnamed))
               (server_get (Throw offline)) (Some jwt) (λ _, [])
               small_csv idle_page).1 in
  nullish (opt_get (Response.data stored_unnamed) "id") = true ∧
  Upload.env w' = 2%nat ∧
  (Upload.scheduled w' = [] ∨ Upload.scheduled w' = [(700, "/analyze/1")]).
Proof.
  split; [reflexivity|].
  exact (upload_without_id_means_dataset_1 (server_post (Normal stored_unnamed))
           (server_get (Throw offline)) (Some jwt) (λ _, [])
           small_csv idle_page 1%nat stored_unnamed eq_refl eq_refl eq_refl eq_refl).
Defined.

Lemma retry_uploads_a_rejected_file_witness :
  let post := server_post (Normal stored_as_7) in
  let get_ := server_get (Normal raw_preview) in
  let w' := (Upload.onFiles post get_ (Some jwt) (λ _, []) (λ _, None)
               (Some [text_note]) idle_page).1 in
  passes_checks (λ _, None) text_note idle_page = false ∧
  UploadView.retry_button w' = Some text_note ∧
  UploadView.click_retry post get_ (Some jwt) (λ _, []) w'
  = Upload.doUpload post get_ (Some jwt) (λ _, []) text_note w'.
Proof.
  split; [reflexivity|].
  assert (File.name text_note ≠ "") as Hname by discriminate.
  exact (retry_uploads_a_rejected_file (server_post (Normal stored_as_7))
           (server_get (Normal raw_preview)) (Some jwt) (λ _, []) (λ _, None)
           text_note [] idle_page eq_refl eq_refl Hname).
Defined.

Lemma retry_not_offered_after_failed_upload_witness :
  let r := Upload.onFiles (server_post (Throw offline)) (server_get (Normal raw_preview))
             (Some jwt) (λ _, []) (λ _, None) (Some [small_csv]) idle_page in
  passes_checks (λ _, None) small_csv idle_page = true ∧
  Upload.toasts r.1 = [toast_error (VString "Network Error")] ∧
  Upload.errorMsg r.1 = "" ∧
  UploadView.retry_button r.1 = None.
Proof.
  assert (passes_checks (λ _, None) small_csv idle_page = true) as Hpass
    by (vm_compute; reflexivity).
  split; [exact Hpass|].
  destruct (retry_not_offered_after_failed_upload (server_post (Throw offline))
              (server_get (Normal raw_preview)) (Some jwt) (λ _, []) (λ _, None)
              small_csv [] idle_page 1%nat offline Hpass eq_refl)
    as (_ & Htoasts & _ & Hmsg & _ & _ & Hbutton).
  split; [exact Htoasts|]. split; [exact Hmsg | exact Hbutton].
Defined.

Lemma handlers_keep_target_out_of_inputs_witness :
  let handled := Analyze.clicks [Analyze.Toggle "age"; Analyze.Toggle "income";
                                 Analyze.Target "age"; Analyze.Toggle "age"]
                   Analyze.initial in
  let analysed := Analyze.clicks [Analyze.Toggle "age"; Analyze.Analysed "age" true]
                    Analyze.initial in
  Analyze.selectedInputs handled = ["income"] ∧
  Analyze.selectedOutput handled = "age" ∧
  (Analyze.selectedOutput handled ∉ Analyze.selectedInputs handled) ∧
  Analyze.selectedOutput analysed ∈ Analyze.selectedInputs analysed.
Proof.
  split; [reflexivity|]. split; [reflexivity|]. split.
  - destruct (handlers_keep_target_out_of_inputs
                [Analyze.Toggle "age"; Analyze.Toggle "income";
                 Analyze.Target "age"; Analyze.Toggle "age"]
                Analyze.initial (NoDup_nil_2 (A := string)))
      as (_ & Hout & _).
    apply Hout.
    + apply not_elem_of_nil.
    + intros target columns Hin.
      repeat (apply elem_of_cons in Hin as [Hin|Hin]; [discriminate|]).
      inversion Hin.
  - apply list_elem_of_singleton. reflexivity.
Defined.

Lemma toggle_flips_one_feature_witness :
  Analyze.selectedInputs (Analyze.handleInputToggle "age" Analyze.initial).1 = ["age"] ∧
  (Analyze.handleInputToggle "age"
     (Analyze.handleInputToggle "age" Analyze.initial).1).1 = Analyze.initial.
Proof.
  split; [reflexivity|].
  assert ("age" ≠ Analyze.selectedOutput Analyze.initial) as Hne by discriminate.
  destruct (toggle_flips_one_feature "age" Analyze.initial Hne)
    as (_ & _ & _ & _ & Hback).
  apply Hback, not_elem_of_nil.
Defined.

Lemma onFiles_uploads_only_validated_witness :
  let post := server_post (Normal stored_as_7) in
  let get_ := server_get (Normal raw_preview) in
  let d := Upload.csv_headers_rows ("x,y" +:+ LF +:+ "1,2" +:+ LF) in
  Upload.validateFileBasics small_csv = None ∧
  Upload.validateStructure (Upload.headers d) (Upload.rows d) = None ∧
  Upload.onFiles post get_ (Some jwt) (λ _, []) (λ _, None) (Some [small_csv]) idle_page
  = Upload.doUpload post get_ (Some jwt) (λ _, []) small_csv
      (show_detected d (begin_file small_csv idle_page)).
Proof.
  assert (Upload.validateFileBasics small_csv = None) as Hbasic
    by (vm_compute; reflexivity).
  assert ((Upload.detectColumns (λ _, None) small_csv 3
             (begin_file small_csv idle_page)).2
          = Normal (Upload.csv_headers_rows ("x,y" +:+ LF +:+ "1,2" +:+ LF)))
    as Hdetected by (vm_compute; reflexivity).
  assert (Upload.validateStructure
            (Upload.headers (Upload.csv_headers_rows ("x,y" +:+ LF +:+ "1,2" +:+ LF)))
            (Upload.rows (Upload.csv_headers_rows ("x,y" +:+ LF +:+ "1,2" +:+ LF)))
          = None) as Hstruct by (vm_compute; reflexivity).
  split; [exact Hbasic|]. split; [exact Hstruct|].
  destruct (onFiles_uploads_only_validated (server_post (Normal stored_as_7))
              (server_get (Normal raw_preview)) (Some jwt) (λ _, []) (λ _, None)
              small_csv [] idle_page) as [Hupload _].
  destruct (Hupload _ Hbasic Hdetected Hstruct) as [_ Hrun].
  rewrite Hrun. f_equal.
Defined.
